(** * Personal Finance Manager (finance.c): record store, persistence,
      reports and CSV transcoder

    A shallow embedding of [finance.c] and the properties of its record
    store.  The three global stores, the obfuscation switch, the standard
    streams and the files of the working directory are gathered in one
    [World] record that every operation threads through a small state
    monad.

    Conventions of the embedding:
    - a C [int] is a [Z].  What [atoi] returns and what a file holds is cut
      to the 32 bits of an [int]; the counters of the ids are incremented as
      numbers, and the properties that depend on them are stated for
      counters up to [INT_MAX], where the [next_id++] of the source does not
      overflow;
    - a C string (a [char] array read up to its terminator) is a [string];
      the C library truncations ([strncpy], [fgets], [snprintf]) are written
      out with the buffer sizes of the source, and a buffer filled by
      [fgets] is cut at its first NUL byte where the source reads it as a
      string;
    - a [double] amount of a record is the finite rational [Qc] that it
      holds.  The sums of the reports are computed in binary64 (module
      [Binary64]): every addition rounds to nearest, ties to even, and can
      overflow to an infinity;
    - a byte of a file is a [Z] in [0, 256). *)

From Stdlib Require Import ZArith QArith Qcanon Ascii String DecimalString Lia Bool.
From stdpp Require Import base tactics option list gmap strings numbers.

Local Open Scope string_scope.
Local Open Scope Z_scope.

(** ** Binary64 arithmetic

    A [double] that the program computes is a finite number, an infinity or
    a NaN.  A number that is read and a sum of finite values are the exact
    value rounded to the nearest value of 53 significant bits, ties to
    even, within the exponents of binary64. *)

Module Binary64.

(** The integer nearest to [n / d], ties to even, for [0 <= n] and
    [0 < d]. *)
Definition round_half_even (n : Z) (d : Z) : Z :=
  let q := n / d in
  let r := n mod d in
  match 2 * r ?= d with
  | Lt => q
  | Gt => q + 1
  | Eq => if Z.even q then q else q + 1
  end.

Inductive double :=
| Num (q : Qc)
| Inf (neg : bool)
| NaN.

(** The exponent [e] with [2 ^ e <= n / d < 2 ^ (e + 1)], for positive [n]
    and [d]. *)
Definition exponent (n d : Z) : Z :=
  let e0 := Z.log2 n - Z.log2 d in
  let above := if 0 <=? e0 then d * 2 ^ e0 <=? n else d <=? n * 2 ^ (- e0) in
  if above then e0 else e0 - 1.

(** [m * 2 ^ p]. *)
Definition scaled (m p : Z) : Qc :=
  if 0 <=? p then Q2Qc (inject_Z (m * 2 ^ p))
  else Q2Qc (Qred (Qmake m (Z.to_pos (2 ^ (- p))))).

(** Rounding to nearest, ties to even.  The last place of a value of
    exponent [e] is [2 ^ (e - 52)], and [2 ^ (- 1074)] below the normal
    values; what rounds to [2 ^ 1024] or more is an infinity. *)
Definition nearest (q : Qc) : double :=
  let n := Z.abs (Qnum (this q)) in
  let d := Zpos (Qden (this q)) in
  let neg := Qnum (this q) <? 0 in
  if n =? 0 then Num (Q2Qc 0)
  else
    let p := Z.max (exponent n d) (- 1022) - 52 in
    let m := if 0 <=? p then round_half_even n (d * 2 ^ p)
             else round_half_even (n * 2 ^ (- p)) d in
    if 2 ^ 1024 <=? m * 2 ^ p then Inf neg
    else Num (scaled (if neg then - m else m) p).

(** [x + y]. *)
Definition add (x y : double) : double :=
  match x, y with
  | Num a, Num b => nearest (a + b)%Qc
  | NaN, _ => NaN
  | _, NaN => NaN
  | Inf s, Num _ => Inf s
  | Num _, Inf s => Inf s
  | Inf s, Inf s' => if Bool.eqb s s' then Inf s else NaN
  end.

Definition opp (x : double) : double :=
  match x with
  | Num a => Num (- a)%Qc
  | Inf s => Inf (negb s)
  | NaN => NaN
  end.

(** [x - y]. *)
Definition sub (x y : double) : double := add x (opp y).

End Binary64.

Import Binary64.

(** ** Characters and C strings *)

Module CLib.

Definition code (c : ascii) : Z := Z.of_N (N_of_ascii c).

Definition chr (z : Z) : ascii := ascii_of_N (Z.to_N z).

(** [isspace] in the C locale: space, and the controls \t \n \v \f \r. *)
Definition isspace (c : ascii) : bool :=
  (code c =? 32) || ((9 <=? code c) && (code c <=? 13)).

Definition isdigit (c : ascii) : bool :=
  (48 <=? code c) && (code c <=? 57).

Definition digit_val (c : ascii) : Z := code c - 48.

(** [tolower] in the C locale. *)
Definition tolower (c : ascii) : ascii :=
  if (65 <=? code c) && (code c <=? 90) then chr (code c + 32) else c.

Definition LF : ascii := chr 10.
Definition CR : ascii := chr 13.

Definition is_eol (c : ascii) : bool := Ascii.eqb c LF || Ascii.eqb c CR.

Fixpoint skip_space (s : string) : string :=
  match s with
  | String c s' => if isspace c then skip_space s' else s
  | EmptyString => s
  end.

(** [strlen]. *)
Definition strlen (s : string) : Z := Z.of_nat (String.length s).

(** The first [n] characters of [s]: what [strncpy (dst, s, n)] leaves in a
    destination whose byte after the [n]th is a terminator. *)
Fixpoint strncpy (n : nat) (s : string) : string :=
  match n, s with
  | S n', String c s' => String c (strncpy n' s')
  | _, _ => EmptyString
  end.

(** The sign of [strcmp a b]; characters compare as unsigned bytes. *)
Definition strcmp (a b : string) : Z :=
  match String.compare a b with
  | Lt => -1
  | Eq => 0
  | Gt => 1
  end.

Fixpoint map_string (f : ascii -> ascii) (s : string) : string :=
  match s with
  | String c s' => String (f c) (map_string f s')
  | EmptyString => EmptyString
  end.

(** The sign of [strcasecmp a b]. *)
Definition strcasecmp (a b : string) : Z :=
  strcmp (map_string tolower a) (map_string tolower b).

(** Digits of a decimal conversion: at most [w] of them are consumed. *)
Fixpoint scan_digits (w : nat) (s : string) (acc : Z) : Z * string :=
  match w, s with
  | S w', String c s' =>
      if isdigit c then scan_digits w' s' (10 * acc + digit_val c)
      else (acc, s)
  | _, _ => (acc, s)
  end.

Definition starts_with_digit (s : string) : bool :=
  match s with
  | String c _ => isdigit c
  | EmptyString => false
  end.

Definition is_sign (c : ascii) : bool :=
  Ascii.eqb c "-" || Ascii.eqb c "+".

(** A [%wd] conversion of [sscanf]: white space is skipped and does not
    count; an optional sign and then decimal digits, [w] characters at most
    together; no digit is a matching failure. *)
Definition scan_int (w : nat) (s : string) : option (Z * string) :=
  match skip_space s with
  | String c s' =>
      if is_sign c then
        match w with
        | S w' =>
            if (0 <? Z.of_nat w') && starts_with_digit s' then
              let '(v, r) := scan_digits w' s' 0 in
              Some (if Ascii.eqb c "-" then - v else v, r)
            else None
        | O => None
        end
      else if (0 <? Z.of_nat w) && isdigit c then
        Some (scan_digits w (String c s') 0)
      else None
  | EmptyString => None
  end.

(** An ordinary character of a [sscanf] format. *)
Definition scan_lit (c : ascii) (s : string) : option string :=
  match s with
  | String c' s' => if Ascii.eqb c c' then Some s' else None
  | EmptyString => None
  end.

(** [strtol] in base 10 without a width: the value saturates at the bounds
    of [long]. *)
Definition to_long (v : Z) : Z := Z.max (- 2 ^ 63) (Z.min v (2 ^ 63 - 1)).

Definition strtol (s : string) : Z :=
  match scan_int (S (String.length s)) s with
  | Some (v, _) => to_long v
  | None => 0
  end.

(** The conversion of a [long] to [int]: its low 32 bits. *)
Definition to_int (v : Z) : Z := (v + 2 ^ 31) mod 2 ^ 32 - 2 ^ 31.

(** [atoi (s)] is [(int) strtol (s, NULL, 10)]. *)
Definition atoi (s : string) : Z := to_int (strtol s).


(** Decimal digits without a width, with their number. *)
Fixpoint scan_all_digits (s : string) (acc : Z) (n : nat) : Z * nat * string :=
  match s with
  | String c s' =>
      if isdigit c then scan_all_digits s' (10 * acc + digit_val c) (S n)
      else (acc, n, s)
  | EmptyString => (acc, n, s)
  end.

(** The exponent part of a decimal floating constant, taken only when a
    digit follows the [e] and its optional sign. *)
Definition scan_exponent (s : string) : Z :=
  match s with
  | String c s' =>
      if Ascii.eqb c "e" || Ascii.eqb c "E" then
        match s' with
        | String c' s'' =>
            if is_sign c' then
              if starts_with_digit s'' then
                let '(v, _, _) := scan_all_digits s'' 0 0 in
                if Ascii.eqb c' "-" then - v else v
              else 0
            else if isdigit c' then
              let '(v, _, _) := scan_all_digits s' 0 0 in v
            else 0
        | EmptyString => 0
        end
      else 0
  | EmptyString => 0
  end.

(** The decimal forms of [strtod]: digits with an optional radix point and
    an optional exponent.  [m] is the digit string read as an integer, [fn]
    the number of digits after the point and [e] the exponent. *)
Definition decimal_value (neg : bool) (m : Z) (fn : nat) (e : Z) : Qc :=
  let shift := e - Z.of_nat fn in
  let num := if 0 <=? shift then m * 10 ^ shift else m in
  let den := if 0 <=? shift then 1 else 10 ^ (- shift) in
  Q2Qc (Qmake (if neg then - num else num) (Z.to_pos den)).

Definition scan_decimal (neg : bool) (s : string) : Qc :=
  let '(ip, n1, r1) := scan_all_digits s 0 0 in
  match r1 with
  | String c r2 =>
      if Ascii.eqb c "." then
        let '(m, n2, r3) := scan_all_digits r2 ip 0 in
        match n1, n2 with
        | O, O => Q2Qc 0
        | _, _ => decimal_value neg m n2 (scan_exponent r3)
        end
      else
        match n1 with
        | O => Q2Qc 0
        | _ => decimal_value neg ip 0 (scan_exponent r1)
        end
  | EmptyString =>
      match n1 with
      | O => Q2Qc 0
      | _ => decimal_value neg ip 0 0
      end
  end.

(** The hexadecimal forms of [strtod]: after [0x], hexadecimal digits with
    an optional radix point, one digit at least, and an optional binary
    exponent after [p]. *)
Definition hex_digit (c : ascii) : option Z :=
  if isdigit c then Some (digit_val c)
  else if (97 <=? code c) && (code c <=? 102) then Some (code c - 87)
  else if (65 <=? code c) && (code c <=? 70) then Some (code c - 55)
  else None.

Fixpoint scan_hex_digits (s : string) (acc : Z) (n : nat) : Z * nat * string :=
  match s with
  | String c s' =>
      match hex_digit c with
      | Some v => scan_hex_digits s' (16 * acc + v) (S n)
      | None => (acc, n, s)
      end
  | EmptyString => (acc, n, s)
  end.

Definition scan_binary_exponent (s : string) : Z :=
  match s with
  | String c s' =>
      if Ascii.eqb c "p" || Ascii.eqb c "P" then
        match s' with
        | String c' s'' =>
            if is_sign c' then
              if starts_with_digit s'' then
                let '(v, _, _) := scan_all_digits s'' 0 0 in
                if Ascii.eqb c' "-" then - v else v
              else 0
            else if isdigit c' then
              let '(v, _, _) := scan_all_digits s' 0 0 in v
            else 0
        | EmptyString => 0
        end
      else 0
  | EmptyString => 0
  end.

(** [m] is the digit string read as an integer, [fn] the number of digits
    after the point and [e] the binary exponent. *)
Definition hex_value (neg : bool) (m : Z) (fn : nat) (e : Z) : Qc :=
  let shift := e - 4 * Z.of_nat fn in
  let num := if 0 <=? shift then m * 2 ^ shift else m in
  let den := if 0 <=? shift then 1 else 2 ^ (- shift) in
  Q2Qc (Qmake (if neg then - num else num) (Z.to_pos den)).

Definition scan_hex (neg : bool) (s : string) : option Qc :=
  let '(ip, n1, r1) := scan_hex_digits s 0 0 in
  let '(m, n2, r2) :=
    match r1 with
    | String c r => if Ascii.eqb c "." then scan_hex_digits r ip 0 else (ip, O, r1)
    | EmptyString => (ip, O, r1)
    end in
  match n1, n2 with
  | O, O => None
  | _, _ => Some (hex_value neg m n2 (scan_binary_exponent r2))
  end.

(** The constant after the sign: hexadecimal after [0x] when a hexadecimal
    digit follows, decimal otherwise. *)
Definition scan_constant (neg : bool) (s : string) : Qc :=
  match s with
  | String z (String x s') =>
      if Ascii.eqb z "0" && (Ascii.eqb x "x" || Ascii.eqb x "X") then
        match scan_hex neg s' with
        | Some v => v
        | None => scan_decimal neg s
        end
      else scan_decimal neg s
  | _ => scan_decimal neg s
  end.

(** The exact value of the constant that [strtod] finds: white space, an
    optional sign, a constant; 0 when there is none. *)
Definition constant_value (s : string) : Qc :=
  match skip_space s with
  | String c s' =>
      if is_sign c then scan_constant (Ascii.eqb c "-") s'
      else scan_constant false (String c s')
  | EmptyString => Q2Qc 0
  end.

(** [atof (s)] is [strtod (s, NULL)]: the binary64 value nearest to the
    constant.  An amount of the embedding is finite: a constant that rounds
    to an infinity is returned as it is, and the forms [inf] and [nan] of
    [strtod] read as no number. *)
Definition atof (s : string) : Qc :=
  match nearest (constant_value s) with
  | Num q => q
  | _ => constant_value s
  end.

(** [strtok]: leading delimiters are skipped, the token runs to the next
    delimiter, which is consumed.  The saved position is returned with the
    token. *)
Fixpoint skip_delims (delim : ascii) (s : string) : string :=
  match s with
  | String c s' => if Ascii.eqb c delim then skip_delims delim s' else s
  | EmptyString => s
  end.

Fixpoint token_upto (delim : ascii) (s : string) : string * string :=
  match s with
  | String c s' =>
      if Ascii.eqb c delim then (EmptyString, s')
      else let '(t, r) := token_upto delim s' in (String c t, r)
  | EmptyString => (EmptyString, EmptyString)
  end.

Definition strtok (delim : ascii) (s : string) : option (string * string) :=
  match skip_delims delim s with
  | EmptyString => None
  | s' => Some (token_upto delim s')
  end.

(** [fgets (buf, sz, f)]: at most [sz - 1] characters, through the first
    newline; nothing at end of input. *)
Fixpoint fgets_chars (n : nat) (inp : string) : string * string :=
  match n, inp with
  | S n', String c r =>
      if Ascii.eqb c LF then (String c EmptyString, r)
      else let '(l, r') := fgets_chars n' r in (String c l, r')
  | _, _ => (EmptyString, inp)
  end.

Definition fgets (sz : nat) (inp : string) : option (string * string) :=
  match inp with
  | EmptyString => None
  | _ => Some (fgets_chars (sz - 1) inp)
  end.

(** The C string that a buffer holds: its characters before the first
    terminator.  [fgets] stores a NUL byte of the input like any other
    character, and [strlen], [strtok] and the conversions stop there. *)
Fixpoint c_str (buf : string) : string :=
  match buf with
  | String c s' => if Ascii.eqb c zero then EmptyString else String c (c_str s')
  | EmptyString => EmptyString
  end.

(** Decimal output. *)
Definition fmt_nat (z : Z) : string := NilZero.string_of_uint (N.to_uint (Z.to_N z)).

Fixpoint zeros (n : nat) : string :=
  match n with
  | O => EmptyString
  | S n' => String "0" (zeros n')
  end.

(** [%0wd]: the sign counts in the width. *)
Definition fmt_0d (w : nat) (z : Z) : string :=
  let ds := fmt_nat (Z.abs z) in
  let sg := if z <? 0 then "-" else "" in
  sg ++ zeros (w - String.length sg - String.length ds) ++ ds.

(** [%d]. *)
Definition fmt_d (z : Z) : string := fmt_0d 0 z.

(** [%.2f] of a finite value: the nearest hundredth, ties to even. *)
Definition fmt_2f (a : Qc) : string :=
  let n := Qnum (this a) in
  let d := Zpos (Qden (this a)) in
  let h := round_half_even (100 * Z.abs n) d in
  (if n <? 0 then "-" else "") ++ fmt_nat (h / 100) ++ "." ++ fmt_0d 2 (h mod 100).

(** [%.2f] of a [double]; the NaN of a difference of infinities has its
    sign bit set. *)
Definition fmt_2f_double (x : double) : string :=
  match x with
  | Num q => fmt_2f q
  | Inf neg => if neg then "-inf" else "inf"
  | NaN => "-nan"
  end.

Definition nl : string := String LF EmptyString.

(** The trailing line ends that [read_line] overwrites with terminators. *)
Fixpoint rstrip_eol (s : string) : string :=
  match s with
  | String c s' =>
      match rstrip_eol s' with
      | EmptyString => if is_eol c then EmptyString else String c EmptyString
      | r => String c r
      end
  | EmptyString => EmptyString
  end.

(** A string cut at its first line end. *)
Fixpoint cut_eol (s : string) : string :=
  match s with
  | String c s' => if is_eol c then EmptyString else String c (cut_eol s')
  | EmptyString => EmptyString
  end.

End CLib.

Import CLib.

(** ** Date helpers *)

(** [sscanf (s, "%4d-%2d-%2d", &y, &m, &d) == 3], with the three values. *)
Definition sscanf_date (s : string) : option (Z * Z * Z) :=
  '(y, s1) ← scan_int 4 s;
  s2 ← scan_lit "-" s1;
  '(m, s3) ← scan_int 2 s2;
  s4 ← scan_lit "-" s3;
  '(d, _) ← scan_int 2 s4;
  Some (y, m, d).

(** [parse_date (s, NULL)]: every call of the source passes [out = NULL],
    and no call passes a null string. *)
Definition parse_date (s : string) : bool :=
  if negb (strlen s =? 10) then false
  else match sscanf_date s with
       | None => false
       | Some (y, m, d) =>
           if (m <? 1) || (12 <? m) || (d <? 1) || (31 <? d) then false
           else true
       end.

Definition compare_dates (a b : string) : Z := strcmp a b.



(** ** Data model *)

(** [enum TxnType]: the field is an [int] of four bytes and holds whatever
    a loaded file put there; the source names two of its values and prints
    the field with [%d]. *)
Definition TxnType := Z.

Definition TYPE_EXPENSE : TxnType := 0.
Definition TYPE_INCOME : TxnType := 1.

Record Transaction := mkTransaction {
  t_id : Z;
  t_date : string;
  t_amount : Qc;
  t_category_id : Z;
  t_type : TxnType;
  t_note : string
}.

Record Category := mkCategory {
  c_id : Z;
  c_name : string
}.

Record BudgetEntry := mkBudgetEntry {
  b_category_id : Z;
  b_year : Z;
  b_month : Z;
  b_amount : Qc
}.

(** The dynamic arrays: [size] is the length of [data]. *)
Record TxnStore := mkTxnStore {
  txn_data : list Transaction;
  txn_cap : Z;
  txn_next_id : Z
}.

Record CatStore := mkCatStore {
  cat_data : list Category;
  cat_cap : Z;
  cat_next_id : Z
}.

Record BudgetStore := mkBudgetStore {
  bud_data : list BudgetEntry;
  bud_cap : Z
}.

Definition txn_size (s : TxnStore) : Z := Z.of_nat (length (txn_data s)).
Definition cat_size (s : CatStore) : Z := Z.of_nat (length (cat_data s)).
Definition bud_size (s : BudgetStore) : Z := Z.of_nat (length (bud_data s)).

(** The fields of [struct tm] that the program reads. *)
Record tm := mkTm { tm_year : Z; tm_mon : Z; tm_mday : Z }.

(** The globals of the program with its environment: the standard streams,
    the local time and the files, by path. *)
Record World := mkWorld {
  txns : TxnStore;
  cats : CatStore;
  budgets : BudgetStore;
  obfuscate_enabled : bool;
  obf_key : Z;
  stdin : string;
  stdout : list string;
  localtime : tm;
  files : gmap string (list Z)
}.

Definition init_txns : TxnStore := mkTxnStore [] 0 1.
Definition init_cats : CatStore := mkCatStore [] 0 1.
Definition init_budgets : BudgetStore := mkBudgetStore [] 0.

Definition set_txns (w : World) (x : TxnStore) : World :=
  mkWorld x (cats w) (budgets w) (obfuscate_enabled w) (obf_key w)
          (stdin w) (stdout w) (localtime w) (files w).
Definition set_cats (w : World) (x : CatStore) : World :=
  mkWorld (txns w) x (budgets w) (obfuscate_enabled w) (obf_key w)
          (stdin w) (stdout w) (localtime w) (files w).
Definition set_budgets (w : World) (x : BudgetStore) : World :=
  mkWorld (txns w) (cats w) x (obfuscate_enabled w) (obf_key w)
          (stdin w) (stdout w) (localtime w) (files w).
Definition set_stdin (w : World) (x : string) : World :=
  mkWorld (txns w) (cats w) (budgets w) (obfuscate_enabled w) (obf_key w)
          x (stdout w) (localtime w) (files w).
Definition set_stdout (w : World) (x : list string) : World :=
  mkWorld (txns w) (cats w) (budgets w) (obfuscate_enabled w) (obf_key w)
          (stdin w) x (localtime w) (files w).
Definition set_files (w : World) (x : gmap string (list Z)) : World :=
  mkWorld (txns w) (cats w) (budgets w) (obfuscate_enabled w) (obf_key w)
          (stdin w) (stdout w) (localtime w) x.

(** ** The state monad of the program *)

Definition M (A : Type) : Type := World -> A * World.

Definition ret {A} (a : A) : M A := fun w => (a, w).

Definition bind {A B} (m : M A) (k : A -> M B) : M B :=
  fun w => let '(a, w') := m w in k a w'.

Definition gets {A} (f : World -> A) : M A := fun w => (f w, w).

Definition modify (f : World -> World) : M unit := fun w => (tt, f w).

Definition exec {A} (m : M A) (w : World) : World := snd (m w).

Notation "x <- m ;; k" := (bind m (fun x => k))
  (at level 100, m at next level, right associativity).
Notation "m ;; k" := (bind m (fun _ => k))
  (at level 100, right associativity).

Definition when (b : bool) (m : M unit) : M unit := if b then m else ret tt.

Fixpoint for_each {A} (l : list A) (body : A -> M unit) : M unit :=
  match l with
  | [] => ret tt
  | x :: l' => body x ;; for_each l' body
  end.

(** ** Input helpers *)

Definition printf (s : string) : M unit :=
  modify (fun w => set_stdout w (stdout w ++ [s])).

Definition read_line (sz : nat) : M string := fun w =>
  match fgets sz (stdin w) with
  | None => (EmptyString, w)
  | Some (buf, rest) => (rstrip_eol (c_str buf), set_stdin w rest)
  end.

Definition read_int : M Z :=
  buf <- read_line 64 ;;
  ret (if strlen buf =? 0 then 0 else atoi buf).

Definition read_double : M Qc :=
  buf <- read_line 64 ;;
  ret (if strlen buf =? 0 then Q2Qc 0 else atof buf).

(** ** Utilities *)

Definition grow (cap init : Z) : Z := if cap =? 0 then init else cap * 2.

Definition ensure_txn_capacity : M unit :=
  modify (fun w =>
    let s := txns w in
    if txn_cap s <? txn_size s + 1
    then set_txns w (mkTxnStore (txn_data s) (grow (txn_cap s) 16) (txn_next_id s))
    else w).

Definition ensure_cat_capacity : M unit :=
  modify (fun w =>
    let s := cats w in
    if cat_cap s <? cat_size s + 1
    then set_cats w (mkCatStore (cat_data s) (grow (cat_cap s) 8) (cat_next_id s))
    else w).

Definition ensure_budget_capacity : M unit :=
  modify (fun w =>
    let s := budgets w in
    if bud_cap s <? bud_size s + 1
    then set_budgets w (mkBudgetStore (bud_data s) (grow (bud_cap s) 8))
    else w).

(** The index of the first element that satisfies [p], from [i]; -1 when
    there is none. *)
Fixpoint find_index {A} (p : A -> bool) (l : list A) (i : Z) : Z :=
  match l with
  | [] => -1
  | x :: l' => if p x then i else find_index p l' (i + 1)
  end.

Definition find_category_by_id (id : Z) (w : World) : bool :=
  existsb (fun c => c_id c =? id) (cat_data (cats w)).

Definition find_category_index_by_id (id : Z) (w : World) : Z :=
  find_index (fun c => c_id c =? id) (cat_data (cats w)) 0.

Definition find_txn_index_by_id (id : Z) (w : World) : Z :=
  find_index (fun t => t_id t =? id) (txn_data (txns w)) 0.

(** [x.next_id++].  The counter is a number; it is the [int] of the source
    as long as it is not above [INT_MAX]. *)
Definition txn_fresh_id : M Z := fun w =>
  let s := txns w in
  (txn_next_id s,
   set_txns w (mkTxnStore (txn_data s) (txn_cap s) (txn_next_id s + 1))).

Definition cat_fresh_id : M Z := fun w =>
  let s := cats w in
  (cat_next_id s,
   set_cats w (mkCatStore (cat_data s) (cat_cap s) (cat_next_id s + 1))).

(** [x.data[x.size++] = v] *)
Definition push_txn (t : Transaction) : M unit :=
  modify (fun w =>
    let s := txns w in
    set_txns w (mkTxnStore (txn_data s ++ [t]) (txn_cap s) (txn_next_id s))).

Definition push_cat (c : Category) : M unit :=
  modify (fun w =>
    let s := cats w in
    set_cats w (mkCatStore (cat_data s ++ [c]) (cat_cap s) (cat_next_id s))).

Definition push_budget (b : BudgetEntry) : M unit :=
  modify (fun w =>
    let s := budgets w in
    set_budgets w (mkBudgetStore (bud_data s ++ [b]) (bud_cap s))).

(** [data[idx] = data[size-1]; size--] *)
Definition swap_remove {A} (idx : nat) (l : list A) : list A :=
  match l !! (length l - 1)%nat with
  | Some x => take (length l - 1) (<[idx := x]> l)
  | None => l
  end.

(** The name shown for a category id. *)
Definition category_name (cid : Z) (w : World) : string :=
  let idx := find_category_index_by_id cid w in
  if 0 <=? idx then
    match cat_data (cats w) !! Z.to_nat idx with
    | Some c => c_name c
    | None => "UNKNOWN"
    end
  else "UNKNOWN".

(** Comparisons of amounts. *)
Definition amount_leb (a b : Qc) : bool := Qle_bool (this a) (this b).
Definition amount_ltb (a b : Qc) : bool := negb (Qle_bool (this b) (this a)).

(** ** Categories *)

Definition add_category : M unit :=
  printf "Category name: " ;;
  name <- read_line 64 ;;
  if strlen name =? 0 then printf ("Empty name aborted." ++ nl)
  else
    ensure_cat_capacity ;;
    id <- cat_fresh_id ;;
    let c := mkCategory id (strncpy 63 name) in
    push_cat c ;;
    printf ("Added category '" ++ c_name c ++ "' (id=" ++ fmt_d (c_id c) ++ ")." ++ nl).

Definition list_categories : M unit :=
  printf ("Categories:" ++ nl) ;;
  cs <- gets (fun w => cat_data (cats w)) ;;
  if Z.of_nat (length cs) =? 0 then printf (" (none)" ++ nl)
  else
    for_each cs (fun c =>
      printf ("  id=" ++ fmt_d (c_id c) ++ "  " ++ c_name c ++ nl)).

Definition remove_category : M unit :=
  list_categories ;;
  printf "Enter category id to remove: " ;;
  id <- read_int ;;
  idx <- gets (find_category_index_by_id id) ;;
  if idx <? 0 then printf ("Not found." ++ nl)
  else
    used <- gets (fun w =>
      existsb (fun t => t_category_id t =? id) (txn_data (txns w))) ;;
    if used then
      printf ("Category used by transactions — cannot delete." ++ nl)
    else
      modify (fun w =>
        let s := cats w in
        set_cats w (mkCatStore (swap_remove (Z.to_nat idx) (cat_data s))
                               (cat_cap s) (cat_next_id s))) ;;
      printf ("Deleted." ++ nl).

(** ** Transactions *)

Definition default_date (t : tm) : string :=
  strncpy 10 (fmt_0d 4 (tm_year t + 1900) ++ "-" ++ fmt_0d 2 (tm_mon t + 1)
              ++ "-" ++ fmt_0d 2 (tm_mday t)).

Definition add_transaction : M unit :=
  ensure_txn_capacity ;;
  id <- txn_fresh_id ;;
  dflt <- gets (fun w => default_date (localtime w)) ;;
  printf ("Date (YYYY-MM-DD) [default " ++ dflt ++ "]: ") ;;
  line <- read_line 11 ;;
  let date := if strlen line =? 0 then dflt else line in
  if negb (parse_date date) then printf ("Invalid date format." ++ nl)
  else
    printf "Type: 0=Expense, 1=Income [0]: " ;;
    tp <- read_int ;;
    let type := if negb (tp =? 1) then TYPE_EXPENSE else TYPE_INCOME in
    printf "Amount: " ;;
    amount <- read_double ;;
    if amount_leb amount (Q2Qc 0) then printf ("Amount must be > 0." ++ nl)
    else
      list_categories ;;
      n <- gets (fun w => cat_size (cats w)) ;;
      abort <-
        (if n =? 0 then
           printf ("No categories exist — create one now." ++ nl) ;;
           add_category ;;
           n' <- gets (fun w => cat_size (cats w)) ;;
           if n' =? 0 then printf ("No categories — abort." ++ nl) ;; ret true
           else ret false
         else ret false) ;;
      if abort : bool then ret tt
      else
        printf "Enter category id for this transaction: " ;;
        cid <- read_int ;;
        ok <- gets (find_category_by_id cid) ;;
        if negb ok then printf ("Invalid category." ++ nl)
        else
          printf "Note (optional): " ;;
          note <- read_line 256 ;;
          let t := mkTransaction id date amount cid type note in
          push_txn t ;;
          printf ("Transaction added (id=" ++ fmt_d (t_id t) ++ ")." ++ nl).

Definition type_tag (t : TxnType) : string :=
  if t =? TYPE_INCOME then "IN" else "EX".

Definition list_transactions (start_date end_date : option string) : M unit :=
  printf "Transactions:" ;;
  ts <- gets (fun w => txn_data (txns w)) ;;
  if Z.of_nat (length ts) =? 0 then printf (" (none)" ++ nl)
  else
    printf nl ;;
    for_each ts (fun t =>
      if match start_date with
         | Some sd => compare_dates (t_date t) sd <? 0
         | None => false
         end then ret tt
      else if match end_date with
              | Some ed => 0 <? compare_dates (t_date t) ed
              | None => false
              end then ret tt
      else
        cname <- gets (category_name (t_category_id t)) ;;
        printf ("  id=" ++ fmt_d (t_id t) ++ "  " ++ t_date t ++ "  "
                ++ type_tag (t_type t) ++ "  " ++ fmt_2f (t_amount t)
                ++ "  [" ++ cname ++ "]  " ++ t_note t ++ nl)).

(** An assignment to a field through the pointer [t = &txns.data[idx]]. *)
Definition update_txn (idx : Z) (f : Transaction -> Transaction) : M unit :=
  modify (fun w =>
    let s := txns w in
    set_txns w (mkTxnStore (alter f (Z.to_nat idx) (txn_data s))
                           (txn_cap s) (txn_next_id s))).

Definition with_date (d : string) (t : Transaction) : Transaction :=
  mkTransaction (t_id t) d (t_amount t) (t_category_id t) (t_type t) (t_note t).
Definition with_type (ty : TxnType) (t : Transaction) : Transaction :=
  mkTransaction (t_id t) (t_date t) (t_amount t) (t_category_id t) ty (t_note t).
Definition with_amount (a : Qc) (t : Transaction) : Transaction :=
  mkTransaction (t_id t) (t_date t) a (t_category_id t) (t_type t) (t_note t).
Definition with_category_id (c : Z) (t : Transaction) : Transaction :=
  mkTransaction (t_id t) (t_date t) (t_amount t) c (t_type t) (t_note t).
Definition with_note (n : string) (t : Transaction) : Transaction :=
  mkTransaction (t_id t) (t_date t) (t_amount t) (t_category_id t) (t_type t) n.

(** The prompts print the fields through [t]; each is printed before the
    code can assign it, so the values are those of the entry found. *)
Definition edit_transaction : M unit :=
  list_transactions None None ;;
  printf "Enter transaction id to edit: " ;;
  id <- read_int ;;
  idx <- gets (find_txn_index_by_id id) ;;
  if idx <? 0 then printf ("Not found." ++ nl)
  else
    ot <- gets (fun w => txn_data (txns w) !! Z.to_nat idx) ;;
    match ot with
    | None => ret tt
    | Some t =>
        printf ("Date [" ++ t_date t ++ "]: ") ;;
        buf <- read_line 11 ;;
        when (negb (strlen buf =? 0))
          (if parse_date buf then update_txn idx (with_date (strncpy 11 buf))
           else printf ("Invalid date — kept." ++ nl)) ;;
        printf ("Type 0=Expense,1=Income [" ++ fmt_d (t_type t) ++ "]: ") ;;
        tp <- read_int ;;
        when ((tp =? 0) || (tp =? 1))
          (update_txn idx (with_type tp)) ;;
        printf ("Amount [" ++ fmt_2f (t_amount t) ++ "]: ") ;;
        a <- read_double ;;
        when (amount_ltb (Q2Qc 0) a) (update_txn idx (with_amount a)) ;;
        list_categories ;;
        printf ("Category id [" ++ fmt_d (t_category_id t) ++ "]: ") ;;
        cid <- read_int ;;
        ok <- gets (find_category_by_id cid) ;;
        when (negb (cid =? 0) && ok) (update_txn idx (with_category_id cid)) ;;
        printf ("Note [" ++ t_note t ++ "]: ") ;;
        notebuf <- read_line 256 ;;
        when (negb (strlen notebuf =? 0))
          (update_txn idx (with_note (strncpy 255 notebuf))) ;;
        printf ("Updated." ++ nl)
    end.

Definition remove_transaction : M unit :=
  list_transactions None None ;;
  printf "Enter transaction id to delete: " ;;
  id <- read_int ;;
  idx <- gets (find_txn_index_by_id id) ;;
  if idx <? 0 then printf ("Not found." ++ nl)
  else
    modify (fun w =>
      let s := txns w in
      set_txns w (mkTxnStore (swap_remove (Z.to_nat idx) (txn_data s))
                             (txn_cap s) (txn_next_id s))) ;;
    printf ("Deleted." ++ nl).

(** ** Budgets *)

Definition budget_key_eqb (cid year month : Z) (b : BudgetEntry) : bool :=
  (b_category_id b =? cid) && (b_year b =? year) && (b_month b =? month).

Definition with_budget_amount (a : Qc) (b : BudgetEntry) : BudgetEntry :=
  mkBudgetEntry (b_category_id b) (b_year b) (b_month b) a.

Definition set_budget : M unit :=
  list_categories ;;
  printf "Enter category id to set budget: " ;;
  cid <- read_int ;;
  ok <- gets (find_category_by_id cid) ;;
  if negb ok then printf ("Invalid category." ++ nl)
  else
    printf "Year (e.g., 2025): " ;;
    year <- read_int ;;
    printf "Month (1-12): " ;;
    month <- read_int ;;
    if (month <? 1) || (12 <? month) then printf ("Invalid month." ++ nl)
    else
      printf ("Budget amount for " ++ fmt_0d 4 year ++ "-" ++ fmt_0d 2 month ++ ": ") ;;
      amt <- read_double ;;
      if amount_ltb amt (Q2Qc 0) then printf ("Invalid amount." ++ nl)
      else
        i <- gets (fun w =>
          find_index (budget_key_eqb cid year month) (bud_data (budgets w)) 0) ;;
        if 0 <=? i then
          modify (fun w =>
            let s := budgets w in
            set_budgets w
              (mkBudgetStore (alter (with_budget_amount amt) (Z.to_nat i) (bud_data s))
                             (bud_cap s))) ;;
          printf ("Updated budget." ++ nl)
        else
          ensure_budget_capacity ;;
          push_budget (mkBudgetEntry cid year month amt) ;;
          printf ("Budget set." ++ nl).

(** [snprintf (buf, DATE_STRLEN, "%04d-%02d-01", year, month)] *)
Definition month_start (year month : Z) : string :=
  strncpy 10 (fmt_0d 4 year ++ "-" ++ fmt_0d 2 month ++ "-01").

Definition total_step (cat_id : Z) (smin smax : string)
    (total : double) (t : Transaction) : double :=
  if negb (t_category_id t =? cat_id) then total
  else if compare_dates (t_date t) smin <? 0 then total
  else if 0 <=? compare_dates (t_date t) smax then total
  else if t_type t =? TYPE_EXPENSE then add total (Num (t_amount t))
  else sub total (Num (t_amount t)).

Definition total_for_category_month (cat_id year month : Z) (w : World) : double :=
  let smin := month_start year month in
  let nmonth := if month =? 12 then 1 else month + 1 in
  let nyear := if month =? 12 then year + 1 else year in
  let smax := month_start nyear nmonth in
  fold_left (total_step cat_id smin smax) (txn_data (txns w)) (Num (Q2Qc 0)).

(** ** CSV export and import *)

Definition bytes_of_string (s : string) : list Z :=
  map code (list_ascii_of_string s).

Definition string_of_bytes (bs : list Z) : string :=
  string_of_list_ascii (map chr bs).

Definition csv_header : string := "id,date,type,amount,category,note" ++ nl.

Definition csv_line (w : World) (t : Transaction) : string :=
  fmt_d (t_id t) ++ "," ++ t_date t ++ "," ++ fmt_d (t_type t)
  ++ "," ++ fmt_2f (t_amount t) ++ "," ++ category_name (t_category_id t) w
  ++ "," ++ t_note t ++ nl.

(** Opening a file for writing is taken to succeed. *)
Definition export_csv (path : string) : M unit :=
  text <- gets (fun w =>
    csv_header ++ String.concat "" (map (csv_line w) (txn_data (txns w)))) ;;
  modify (fun w => set_files w (<[path := bytes_of_string text]> (files w))) ;;
  printf ("Exported to " ++ path ++ nl).

(** The id of the first category whose name is [category] up to case; -1
    when there is none. *)
Definition category_id_by_name (category : string) (w : World) : Z :=
  match List.find (fun c => strcasecmp (c_name c) category =? 0) (cat_data (cats w)) with
  | Some c => c_id c
  | None => -1
  end.

(** The body of the loop of [import_csv] for a line after the header.  The
    source copies the date, the name and the note into records that it has
    not initialised, with [strncpy] of 10, 63 and 255 characters: a copy
    that fills all of them writes no terminator, and the string of the
    field then runs on into bytes that the source has not set.  The
    records here hold the characters copied. *)
Definition import_line (line : string) (lineno : Z) : M unit :=
  match strtok "," line with
  | None => ret tt
  | Some (tok1, r1) =>
  let date := strncpy 10 tok1 in
  match strtok "," r1 with
  | None => ret tt
  | Some (tok2, r2) =>
  let type := atoi tok2 in
  match strtok "," r2 with
  | None => ret tt
  | Some (tok3, r3) =>
  let amount := atof tok3 in
  match strtok "," r3 with
  | None => ret tt
  | Some (tok4, r4) =>
  let category := strncpy 63 tok4 in
  let note := match strtok LF r4 with
              | Some (tok5, _) => strncpy 255 tok5
              | None => EmptyString
              end in
  let date := cut_eol date in
  if negb (parse_date date) then
    printf ("Skipping invalid date on line " ++ fmt_d lineno ++ nl)
  else
    found <- gets (category_id_by_name category) ;;
    cid <- (if found <? 0 then
              ensure_cat_capacity ;;
              id <- cat_fresh_id ;;
              let c := mkCategory id (strncpy 63 category) in
              push_cat c ;;
              printf ("Created category '" ++ c_name c ++ "' id=" ++ fmt_d (c_id c) ++ nl) ;;
              ret (c_id c)
            else ret found) ;;
    ensure_txn_capacity ;;
    id <- txn_fresh_id ;;
    push_txn (mkTransaction id (strncpy 10 date) amount cid
                (if type =? 1 then TYPE_INCOME else TYPE_EXPENSE)
                (strncpy 255 note))
  end end end end.

(** The loop [while (fgets (line, 1024, f))].  Every turn consumes at least
    one character, so the length of the input bounds the number of turns. *)
Fixpoint import_lines (turns : nat) (inp : string) (lineno : Z) : M unit :=
  match turns with
  | O => ret tt
  | S turns' =>
      match fgets 1024 inp with
      | None => ret tt
      | Some (line, rest) =>
          let lineno := lineno + 1 in
          (if lineno =? 1 then ret tt else import_line (c_str line) lineno) ;;
          import_lines turns' rest lineno
      end
  end.

Definition import_csv (path : string) : M unit :=
  f <- gets (fun w => files w !! path) ;;
  match f with
  | None => printf ("Open failed." ++ nl)
  | Some bytes =>
      let inp := string_of_bytes bytes in
      import_lines (String.length inp) inp 0 ;;
      printf ("Import complete." ++ nl)
  end.

(** ** Persistence *)

(** The object representation of a record type: its size and the bytes of a
    value, as the C implementation lays them out.  [of_bytes] reads a value
    back from [sizeof] bytes, and [valid] holds of the values that the
    representation can hold exactly. *)
Class Layout (A : Type) := {
  sizeof : nat;
  to_bytes : A -> list Z;
  of_bytes : list Z -> A;
  valid : A -> Prop;
  sizeof_pos : (0 < sizeof)%nat;
  to_bytes_length : forall a, length (to_bytes a) = sizeof;
  of_to_bytes : forall a, valid a -> of_bytes (to_bytes a) = a
}.

Definition TRAN_FILE : string := "./transactions.dat".
Definition CAT_FILE : string := "./categories.dat".
Definition BUD_FILE : string := "./budgets.dat".

Definition obfuscate_buffer (w : World) (buf : list Z) : list Z :=
  if negb (obfuscate_enabled w) || (obf_key w =? 0) then buf
  else map (fun b => Z.lxor b (obf_key w)) buf.

(** [memcpy] of [count] records out of a byte buffer. *)
Fixpoint records_of_bytes {A} `{Layout A} (count : nat) (buf : list Z) : list A :=
  match count with
  | O => []
  | S n => of_bytes (take sizeof buf) :: records_of_bytes n (drop sizeof buf)
  end.

Definition bytes_of_records {A} `{Layout A} (l : list A) : list Z :=
  concat (map to_bytes l).

(** The maximum of the ids after 0, as the loops of [load_all] compute it.
    The counter that [load_all] sets is the number after it, the [int] of
    the source as long as the maximum is below [INT_MAX]. *)
Definition max_id {A} (id : A -> Z) (l : list A) : Z :=
  fold_left (fun maxid x => if maxid <? id x then id x else maxid) l 0.

Section Persistence.
Context `{LC : Layout Category} `{LT : Layout Transaction} `{LB : Layout BudgetEntry}.

(** Opening a file for writing is taken to succeed; every call passes a
    store's [data] and [size]. *)
Definition save_binary_file {A} `{Layout A} (path : string) (buf : list A) : M unit :=
  modify (fun w =>
    set_files w (<[path := obfuscate_buffer w (bytes_of_records buf)]> (files w))).

(** The records copied to [buf]; their number is the count returned. *)
Definition load_binary_file {A} `{Layout A} (path : string) (max_count : nat)
    (w : World) : list A :=
  match files w !! path with
  | None => []
  | Some content =>
      if Z.of_nat (length content) <=? 0 then []
      else
        let tmp := obfuscate_buffer w content in
        let count := (length tmp / sizeof)%nat in
        let count := if (max_count <? count)%nat then max_count else count in
        records_of_bytes count tmp
  end.

Definition load_all : M unit :=
  catbuf <- gets (load_binary_file (A := Category) CAT_FILE 1024) ;;
  when (negb (length catbuf =? 0)%nat)
    (modify (fun w =>
       set_cats w (mkCatStore catbuf (Z.of_nat (length catbuf))
                              (max_id c_id catbuf + 1)))) ;;
  ft <- gets (fun w => files w !! TRAN_FILE) ;;
  match ft with
  | Some content =>
      when (0 <? Z.of_nat (length content))
        (modify (fun w =>
           let tmp := obfuscate_buffer w content in
           let countt := (length content / sizeof (A := Transaction))%nat in
           let data := records_of_bytes countt tmp in
           set_txns w (mkTxnStore data (Z.of_nat countt) (max_id t_id data + 1))))
  | None => ret tt
  end ;;
  bbuf <- gets (load_binary_file (A := BudgetEntry) BUD_FILE 1024) ;;
  when (negb (length bbuf =? 0)%nat)
    (modify (fun w =>
       set_budgets w (mkBudgetStore bbuf (Z.of_nat (length bbuf))))).

Definition save_all : M unit :=
  c <- gets (fun w => cat_data (cats w)) ;;
  when (negb (length c =? 0)%nat) (save_binary_file CAT_FILE c) ;;
  t <- gets (fun w => txn_data (txns w)) ;;
  when (negb (length t =? 0)%nat) (save_binary_file TRAN_FILE t) ;;
  b <- gets (fun w => bud_data (budgets w)) ;;
  when (negb (length b =? 0)%nat) (save_binary_file BUD_FILE b).

End Persistence.

(** ** The record layouts of the x86-64 System V ABI

    Little-endian [int] of four bytes, [double] as its IEEE 754 binary64
    pattern of eight, character arrays of their declared size, and the
    padding that aligns a [double] at a multiple of eight. *)

Module ABI.

Fixpoint le_bytes (n : nat) (z : Z) : list Z :=
  match n with
  | O => []
  | S n' => z mod 256 :: le_bytes n' (z / 256)
  end.

Fixpoint le_value (bs : list Z) : Z :=
  match bs with
  | [] => 0
  | b :: bs' => b + 256 * le_value bs'
  end.

Definition int_bytes (z : Z) : list Z := le_bytes 4 z.

Definition int_value (bs : list Z) : Z :=
  let u := le_value bs in
  if u <? 2 ^ 31 then u else u - 2 ^ 32.

Definition int32 (z : Z) : Prop := - 2 ^ 31 <= z < 2 ^ 31.

(** A character array of [n] bytes that holds [s] and terminators. *)
Definition char_array (n : nat) (s : string) : list Z :=
  take n (bytes_of_string s ++ replicate n 0).

Fixpoint cstring (bs : list Z) : string :=
  match bs with
  | [] => EmptyString
  | b :: bs' => if b =? 0 then EmptyString else String (chr b) (cstring bs')
  end.

(** [s] fits an array of [n] bytes with its terminator. *)
Definition fits (n : nat) (s : string) : Prop :=
  (String.length s < n)%nat /\
  Forall (fun c => c <> zero) (list_ascii_of_string s).

(** The binary64 pattern of an amount: sign, biased exponent and fraction,
    the significand cut to 53 bits. *)
Definition above_pow2 (n d e : Z) : bool :=
  if 0 <=? e then d * 2 ^ e <=? n else d <=? n * 2 ^ (- e).

Definition scaled_floor (n d e : Z) : Z :=
  if 0 <=? e then (n * 2 ^ e) / d else n / (d * 2 ^ (- e)).

Definition b64_bits (a : Qc) : Z :=
  let n := Z.abs (Qnum (this a)) in
  let d := Zpos (Qden (this a)) in
  let sign := if Qnum (this a) <? 0 then 2 ^ 63 else 0 in
  if n =? 0 then 0
  else
    let e0 := Z.log2 n - Z.log2 d in
    let e := if above_pow2 n d e0 then e0 else e0 - 1 in
    let biased := e + 1023 in
    if biased <=? 0 then sign + scaled_floor n d 1074
    else if 2047 <=? biased then sign + 2047 * 2 ^ 52
    else sign + biased * 2 ^ 52 + (scaled_floor n d (52 - e) - 2 ^ 52).

(** The value of a binary64 pattern; infinities and NaNs, which are not
    amounts, read as 0. *)
Definition b64_value (bits : Z) : Qc :=
  let frac := bits mod 2 ^ 52 in
  let biased := (bits / 2 ^ 52) mod 2048 in
  let neg := 0 <? (bits / 2 ^ 63) mod 2 in
  let m := if biased =? 0 then frac else 2 ^ 52 + frac in
  let e := if biased =? 0 then - 1074 else biased - 1075 in
  if biased =? 2047 then Q2Qc 0
  else
    let m := if neg then - m else m in
    if 0 <=? e then Q2Qc (Qmake (m * 2 ^ e) 1)
    else Q2Qc (Qmake m (Z.to_pos (2 ^ (- e)))).

Definition double_bytes (a : Qc) : list Z := le_bytes 8 (b64_bits a).
Definition double_value (bs : list Z) : Qc := b64_value (le_value bs).

(** The amounts that binary64 holds exactly: the value of their eight
    bytes is the amount itself. *)
Definition representable (a : Qc) : Prop := double_value (double_bytes a) = a.

Definition slice (off len : nat) (bs : list Z) : list Z :=
  take len (drop off bs).

(** [struct Category]: [id] at 0, [name] at 4; 68 bytes. *)
Definition category_bytes (c : Category) : list Z :=
  int_bytes (c_id c) ++ char_array 64 (c_name c).

Definition category_of_bytes (bs : list Z) : Category :=
  mkCategory (int_value (slice 0 4 bs)) (cstring (slice 4 64 bs)).

Definition category_valid (c : Category) : Prop :=
  int32 (c_id c) /\ fits 64 (c_name c).

(** [struct Transaction]: [id] at 0, [date] at 4, a byte of padding,
    [amount] at 16, [category_id] at 24, [type] at 28, [note] at 32;
    288 bytes. *)
Definition transaction_bytes (t : Transaction) : list Z :=
  int_bytes (t_id t) ++ char_array 11 (t_date t) ++ [0]
  ++ double_bytes (t_amount t) ++ int_bytes (t_category_id t)
  ++ int_bytes (t_type t) ++ char_array 256 (t_note t).

Definition transaction_of_bytes (bs : list Z) : Transaction :=
  mkTransaction (int_value (slice 0 4 bs)) (cstring (slice 4 11 bs))
    (double_value (slice 16 8 bs)) (int_value (slice 24 4 bs))
    (int_value (slice 28 4 bs)) (cstring (slice 32 256 bs)).

Definition transaction_valid (t : Transaction) : Prop :=
  int32 (t_id t) /\ fits 11 (t_date t) /\ representable (t_amount t) /\
  int32 (t_category_id t) /\ int32 (t_type t) /\ fits 256 (t_note t).

(** [struct BudgetEntry]: [category_id] at 0, [year] at 4, [month] at 8,
    four bytes of padding, [amount] at 16; 24 bytes. *)
Definition budget_bytes (b : BudgetEntry) : list Z :=
  int_bytes (b_category_id b) ++ int_bytes (b_year b) ++ int_bytes (b_month b)
  ++ [0; 0; 0; 0] ++ double_bytes (b_amount b).

Definition budget_of_bytes (bs : list Z) : BudgetEntry :=
  mkBudgetEntry (int_value (slice 0 4 bs)) (int_value (slice 4 4 bs))
    (int_value (slice 8 4 bs)) (double_value (slice 16 8 bs)).

Definition budget_valid (b : BudgetEntry) : Prop :=
  int32 (b_category_id b) /\ int32 (b_year b) /\ int32 (b_month b) /\
  representable (b_amount b).

End ABI.

(** ** The other operations of the program *)

(** [cats.data[idx].name] is assigned through [strncpy (name, buf, 63)]; the
    last byte of the array keeps its terminator. *)
Definition with_name (n : string) (c : Category) : Category :=
  mkCategory (c_id c) n.

Definition edit_category : M unit :=
  list_categories ;;
  printf "Enter category id to edit: " ;;
  id <- read_int ;;
  idx <- gets (find_category_index_by_id id) ;;
  if idx <? 0 then printf ("Not found." ++ nl)
  else
    oc <- gets (fun w => cat_data (cats w) !! Z.to_nat idx) ;;
    match oc with
    | None => ret tt
    | Some c =>
        printf ("New name (enter for keep '" ++ c_name c ++ "'): ") ;;
        buf <- read_line 64 ;;
        when (negb (strlen buf =? 0))
          (modify (fun w =>
             let s := cats w in
             set_cats w (mkCatStore
                           (alter (with_name (strncpy 63 buf)) (Z.to_nat idx) (cat_data s))
                           (cat_cap s) (cat_next_id s)))) ;;
        printf ("Updated." ++ nl)
    end.

Definition list_budgets : M unit :=
  bs <- gets (fun w => bud_data (budgets w)) ;;
  if Z.of_nat (length bs) =? 0 then printf ("No budgets." ++ nl)
  else
    for_each bs (fun b =>
      cname <- gets (category_name (b_category_id b)) ;;
      printf ("  " ++ fmt_0d 4 (b_year b) ++ "-" ++ fmt_0d 2 (b_month b) ++ "  "
              ++ cname ++ "  " ++ fmt_2f (b_amount b) ++ nl)).

(** ** Reports *)

(** [%-ws]: the string, then blanks up to the width. *)
Fixpoint blanks (n : nat) : string :=
  match n with
  | O => EmptyString
  | S n' => String " " (blanks n')
  end.

Definition fmt_ls (w : nat) (s : string) : string :=
  s ++ blanks (w - String.length s).

(** The loop of [monthly_summary]: the income and the expense of a month. *)
Definition summary_step (smin smax : string) (acc : double * double)
    (t : Transaction) : double * double :=
  let '(income, expense) := acc in
  if compare_dates (t_date t) smin <? 0 then acc
  else if 0 <=? compare_dates (t_date t) smax then acc
  else if t_type t =? TYPE_INCOME then (add income (Num (t_amount t)), expense)
  else (income, add expense (Num (t_amount t))).

Definition monthly_totals (year month : Z) (w : World) : double * double :=
  let smin := month_start year month in
  let nmonth := if month =? 12 then 1 else month + 1 in
  let nyear := if month =? 12 then year + 1 else year in
  let smax := month_start nyear nmonth in
  fold_left (summary_step smin smax) (txn_data (txns w))
    (Num (Q2Qc 0), Num (Q2Qc 0)).

Definition monthly_summary (year month : Z) : M unit :=
  totals <- gets (monthly_totals year month) ;;
  let '(income, expense) := totals in
  printf ("Monthly Summary for " ++ fmt_0d 4 year ++ "-" ++ fmt_0d 2 month ++ ":" ++ nl) ;;
  printf ("  Total Income:  " ++ fmt_2f_double income ++ nl) ;;
  printf ("  Total Expense: " ++ fmt_2f_double expense ++ nl) ;;
  printf ("  Net Savings:   " ++ fmt_2f_double (sub income expense) ++ nl).

Definition category_summary (year month : Z) : M unit :=
  printf ("Category Summary " ++ fmt_0d 4 year ++ "-" ++ fmt_0d 2 month ++ ":" ++ nl) ;;
  cs <- gets (fun w => cat_data (cats w)) ;;
  if Z.of_nat (length cs) =? 0 then printf (" (no categories)" ++ nl)
  else
    for_each cs (fun c =>
      total <- gets (total_for_category_month (c_id c) year month) ;;
      printf ("  " ++ fmt_ls 20 (c_name c) ++ " : " ++ fmt_2f_double total ++ nl)).

Definition budget_report (year month : Z) : M unit :=
  printf ("Budget Report " ++ fmt_0d 4 year ++ "-" ++ fmt_0d 2 month ++ ":" ++ nl) ;;
  bs <- gets (fun w => bud_data (budgets w)) ;;
  for_each bs (fun b =>
    when ((b_year b =? year) && (b_month b =? month))
      (let cid := b_category_id b in
       name <- gets (category_name cid) ;;
       used <- gets (total_for_category_month cid year month) ;;
       let bamt := b_amount b in
       printf ("  " ++ fmt_ls 16 name ++ " Budget: " ++ fmt_2f bamt
               ++ "  Used: " ++ fmt_2f_double used
               ++ "  Remaining: " ++ fmt_2f_double (sub (Num bamt) used) ++ nl))) ;;
  when (negb (existsb (fun b => (b_year b =? year) && (b_month b =? month)) bs))
    (printf ("  No budgets set for this month." ++ nl)).

(** ** Search *)

(** [strcasestr (hay, needle) != NULL]. *)
Fixpoint prefix_nocase (p s : string) : bool :=
  match p, s with
  | EmptyString, _ => true
  | String a p', String b s' =>
      Ascii.eqb (tolower a) (tolower b) && prefix_nocase p' s'
  | String _ _, EmptyString => false
  end.

Fixpoint strcasestr (hay needle : string) : bool :=
  prefix_nocase needle hay ||
  match hay with
  | String _ hay' => strcasestr hay' needle
  | EmptyString => false
  end.

(** The tests of the loop of [search_transactions]: [true] when the
    transaction is printed. *)
Definition search_match (sdate edate cname : string) (minamt maxamt : Qc)
    (text : string) (w : World) (t : Transaction) : bool :=
  if negb (strlen sdate =? 0) && (compare_dates (t_date t) sdate <? 0) then false
  else if negb (strlen edate =? 0) && (0 <? compare_dates (t_date t) edate) then false
  else if amount_ltb (Q2Qc 0) minamt && amount_ltb (t_amount t) minamt then false
  else if amount_ltb (Q2Qc 0) maxamt && amount_ltb maxamt (t_amount t) then false
  else
    let catn := category_name (t_category_id t) w in
    if negb (strlen cname =? 0) && negb (strcasestr catn cname) then false
    else if negb (strlen text =? 0) && negb (strcasestr (t_note t) text) then false
    else true.

Definition search_line (w : World) (t : Transaction) : string :=
  "  id=" ++ fmt_d (t_id t) ++ " " ++ t_date t ++ " " ++ type_tag (t_type t)
  ++ " " ++ fmt_2f (t_amount t) ++ " [" ++ category_name (t_category_id t) w
  ++ "] " ++ t_note t ++ nl.

Definition search_transactions : M unit :=
  printf ("Search: leave fields blank to ignore." ++ nl) ;;
  printf "Start date (YYYY-MM-DD): " ;;
  sdate <- read_line 11 ;;
  if negb (strlen sdate =? 0) && negb (parse_date sdate)
  then printf ("Invalid date." ++ nl)
  else
    printf "End date (YYYY-MM-DD): " ;;
    edate <- read_line 11 ;;
    if negb (strlen edate =? 0) && negb (parse_date edate)
    then printf ("Invalid date." ++ nl)
    else
      printf "Category name (partial): " ;;
      cname <- read_line 64 ;;
      printf "Min amount (0 to ignore): " ;;
      minamt <- read_double ;;
      printf "Max amount (0 to ignore): " ;;
      maxamt <- read_double ;;
      printf "Text in note (partial): " ;;
      text <- read_line 64 ;;
      printf ("Search results:" ++ nl) ;;
      ts <- gets (fun w => txn_data (txns w)) ;;
      for_each ts (fun t =>
        ok <- gets (fun w => search_match sdate edate cname minamt maxamt text w t) ;;
        if ok : bool then
          line <- gets (fun w => search_line w t) ;;
          printf line
        else ret tt).

(** ** Input helpers without a buffer *)

(** [while ((c = getchar ()) != '\n' && c != EOF) {}] *)
Fixpoint skip_line (inp : string) : string :=
  match inp with
  | String c r => if Ascii.eqb c LF then r else skip_line r
  | EmptyString => EmptyString
  end.

Definition clear_input : M unit :=
  modify (fun w => set_stdin w (skip_line (stdin w))).

Definition prompt_press_enter : M unit :=
  printf "Press Enter to continue..." ;;
  modify (fun w => set_stdin w (skip_line (stdin w))).

(** ** Menu *)

Definition set_obfuscation (w : World) (enabled : bool) (key : Z) : World :=
  mkWorld (txns w) (cats w) (budgets w) enabled key
          (stdin w) (stdout w) (localtime w) (files w).

(** [s[0]] of a character array that holds [s]. *)
Definition first_char (s : string) : ascii :=
  match s with
  | String c _ => c
  | EmptyString => zero
  end.

Definition toggle_obfuscation : M unit :=
  enabled <- gets obfuscate_enabled ;;
  if negb enabled then
    printf "Enable simple XOR obfuscation? (y/n): " ;;
    ans <- read_line 8 ;;
    if Ascii.eqb (first_char ans) "y" || Ascii.eqb (first_char ans) "Y" then
      printf "Enter single-character key (not secure): " ;;
      k <- read_line 8 ;;
      if strlen k =? 0 then printf ("No key — aborted." ++ nl)
      else
        modify (fun w => set_obfuscation w true (code (first_char k))) ;;
        printf ("Obfuscation enabled." ++ nl)
    else ret tt
  else
    modify (fun w => set_obfuscation w false 0) ;;
    printf ("Obfuscation disabled." ++ nl).

Definition menu_text (enabled : bool) : list string :=
  [nl ++ "=== Menu ===" ++ nl;
   "1) Add transaction" ++ nl;
   "2) List transactions" ++ nl;
   "3) Edit transaction" ++ nl;
   "4) Delete transaction" ++ nl;
   "5) Add category" ++ nl;
   "6) List/Edit/Delete categories" ++ nl;
   "7) Set/List budgets" ++ nl;
   "8) Reports (monthly/category/budget)" ++ nl;
   "9) Export CSV" ++ nl;
   "10) Import CSV" ++ nl;
   "11) Search transactions" ++ nl;
   "12) Toggle file obfuscation (current: " ++ (if enabled then "ON" else "OFF") ++ ")" ++ nl;
   "0) Save & Exit" ++ nl;
   "Choice: "].

Definition option_of_line (s : string) : option string :=
  if strlen s =? 0 then None else Some s.

Section Menu.
Context `{LC : Layout Category} `{LT : Layout Transaction} `{LB : Layout BudgetEntry}.

(** The action of a choice of the menu other than 0. *)
Definition menu_action (c : Z) : M unit :=
  if c =? 1 then add_transaction
  else if c =? 2 then
    printf "List all or range? (a/r) " ;;
    r <- read_line 8 ;;
    if Ascii.eqb (first_char r) "r" || Ascii.eqb (first_char r) "R" then
      printf "Start date: " ;;
      s <- read_line 11 ;;
      printf "End date: " ;;
      e <- read_line 11 ;;
      list_transactions (option_of_line s) (option_of_line e)
    else list_transactions None None
  else if c =? 3 then edit_transaction
  else if c =? 4 then remove_transaction
  else if c =? 5 then add_category
  else if c =? 6 then
    list_categories ;;
    printf "e=edit, d=delete, anything else to return: " ;;
    a <- read_line 8 ;;
    if Ascii.eqb (first_char a) "e" then edit_category
    else if Ascii.eqb (first_char a) "d" then remove_category
    else ret tt
  else if c =? 7 then
    printf "1=set budget 2=list budgets : " ;;
    b <- read_int ;;
    if b =? 1 then set_budget else list_budgets
  else if c =? 8 then
    printf "Year: " ;;
    y <- read_int ;;
    printf "Month: " ;;
    m <- read_int ;;
    monthly_summary y m ;;
    category_summary y m ;;
    budget_report y m
  else if c =? 9 then
    printf "Export path (e.g., out.csv): " ;;
    path <- read_line 256 ;;
    export_csv (if strlen path =? 0 then "export.csv" else path)
  else if c =? 10 then
    printf "CSV path to import: " ;;
    path <- read_line 256 ;;
    if strlen path =? 0 then printf ("Aborted." ++ nl)
    else import_csv path
  else if c =? 11 then search_transactions
  else if c =? 12 then toggle_obfuscation
  else printf ("Invalid." ++ nl).

(** The loop [for (;;)] of the menu.  A turn that does not leave reads a
    choice from a stream that is not at its end, so the length of the input
    bounds the number of turns. *)
Fixpoint interactive_menu_loop (turns : nat) : M unit :=
  match turns with
  | O => ret tt
  | S turns' =>
      enabled <- gets obfuscate_enabled ;;
      for_each (menu_text enabled) printf ;;
      c <- read_int ;;
      if c =? 0 then save_all
      else menu_action c ;; interactive_menu_loop turns'
  end.

Definition interactive_menu : M unit := fun w =>
  interactive_menu_loop (S (String.length (stdin w))) w.

Definition main : M unit :=
  printf ("Personal Finance Manager (C) — Advanced" ++ nl) ;;
  printf ("Note: This program stores data in current directory." ++ nl) ;;
  printf ("Optional file obfuscation (XOR) is available from menu." ++ nl ++ nl) ;;
  load_all ;;
  interactive_menu ;;
  save_all ;;
  printf ("Goodbye." ++ nl).

End Menu.

(** The world in which the program starts: the globals as their
    initialisers give them. *)
Definition initial_world (inp : string) (now : tm) (fs : gmap string (list Z))
    : World :=
  mkWorld init_txns init_cats init_budgets false 0 inp [] now fs.

(** ** Definitions for the statements *)

(** What [read_line], [read_int] and [read_double] take from an input
    stream, with the rest of the stream. *)
Definition input_line (sz : nat) (inp : string) : string * string :=
  match fgets sz inp with
  | None => (EmptyString, inp)
  | Some (buf, rest) => (rstrip_eol (c_str buf), rest)
  end.

Definition input_int (inp : string) : Z * string :=
  let '(buf, rest) := input_line 64 inp in
  (if strlen buf =? 0 then 0 else atoi buf, rest).

Definition input_double (inp : string) : Qc * string :=
  let '(buf, rest) := input_line 64 inp in
  (if strlen buf =? 0 then Q2Qc 0 else atof buf, rest).

(** The three stores of a world, and a world whose stores are those of the
    start of the program. *)
Definition stores (w : World) : TxnStore * CatStore * BudgetStore :=
  (txns w, cats w, budgets w).

Definition fresh (w : World) : World :=
  mkWorld init_txns init_cats init_budgets (obfuscate_enabled w) (obf_key w)
          (stdin w) (stdout w) (localtime w) (files w).

(** *** Definitions of the specification *)

(** Section 4.4, monthlyCategoryNet: the first day of a month as a date
    string, the month after a month, and the half-open interval between the
    two under the order of date strings. *)
Definition first_day (year month : Z) : string :=
  fmt_0d 4 year ++ "-" ++ fmt_0d 2 month ++ "-01".

Definition next_month (year month : Z) : Z * Z :=
  if month =? 12 then (year + 1, 1) else (year, month + 1).

Definition in_month (year month : Z) (d : string) : bool :=
  let '(ny, nm) := next_month year month in
  String.leb (first_day year month) d && String.ltb d (first_day ny nm).

Definition selected (c year month : Z) (t : Transaction) : bool :=
  (t_category_id t =? c) && in_month year month (t_date t).

Definition is_expense (t : Transaction) : bool := t_type t =? TYPE_EXPENSE.

Definition is_income (t : Transaction) : bool := t_type t =? TYPE_INCOME.

Definition sum_amounts (l : list Transaction) : Qc :=
  foldr (fun t acc => (t_amount t + acc)%Qc) (Q2Qc 0) l.

Definition monthlyCategoryNet (c year month : Z) (l : list Transaction) : Qc :=
  (sum_amounts (List.filter (fun t => selected c year month t && is_expense t) l)
   - sum_amounts (List.filter (fun t => selected c year month t && is_income t) l))%Qc.

(** The net of a list of transactions as a running [double]: from 0.0, in
    the order of the list, the amount of an Expense is added and the amount
    of any other transaction is subtracted. *)
Definition net_step (acc : double) (t : Transaction) : double :=
  if is_expense t then add acc (Num (t_amount t)) else sub acc (Num (t_amount t)).

Definition running_net (l : list Transaction) : double :=
  fold_left net_step l (Num (Q2Qc 0)).

(** The rational is a value of binary64. *)
Definition is_binary64 (q : Qc) : bool :=
  match nearest q with
  | Num r => Qeq_bool (this r) (this q)
  | _ => false
  end.

(** No step of the running net from [acc] on rounds: every partial sum is
    a value of binary64. *)
Definition signed_amount (t : Transaction) : Qc :=
  if is_expense t then t_amount t else (- t_amount t)%Qc.

Fixpoint exact_sums (acc : Qc) (l : list Transaction) : bool :=
  match l with
  | [] => true
  | t :: l' =>
      let s := (acc + signed_amount t)%Qc in
      is_binary64 s && exact_sums s l'
  end.

(** Every transaction is an Expense or an Income. *)
Definition two_types (l : list Transaction) : bool :=
  forallb (fun t => is_expense t || is_income t) l.

(** Section 3: the zero-padded form of a date, and the calendar order of
    the numbers in it. *)
Definition canonical_date (s : string) : bool :=
  match list_ascii_of_string s with
  | [y1; y2; y3; y4; h1; m1; m2; h2; d1; d2] =>
      isdigit y1 && isdigit y2 && isdigit y3 && isdigit y4
      && Ascii.eqb h1 "-" && isdigit m1 && isdigit m2
      && Ascii.eqb h2 "-" && isdigit d1 && isdigit d2
      && (1 <=? 10 * digit_val m1 + digit_val m2)
      && (10 * digit_val m1 + digit_val m2 <=? 12)
      && (1 <=? 10 * digit_val d1 + digit_val d2)
      && (10 * digit_val d1 + digit_val d2 <=? 31)
  | _ => false
  end.

Definition ymd_lt (a b : Z * Z * Z) : Prop :=
  let '(y1, m1, d1) := a in
  let '(y2, m2, d2) := b in
  y1 < y2 \/ (y1 = y2 /\ (m1 < m2 \/ (m1 = m2 /\ d1 < d2))).

(** Section 3: at most one budget entry for a category and a month. *)
Definition budget_key (b : BudgetEntry) : Z * Z * Z :=
  (b_category_id b, b_year b, b_month b).


(** Section 3: the ids of the categories are unique. *)
Definition unique_ids (l : list Category) : Prop :=
  NoDup (map c_id l).

(** *** Effects of the operations *)

(** The values that [set_budget] reads, in the order of its prompts. *)
Definition budget_inputs (inp : string) : Z * Z * Z * Qc * string :=
  let '(cid, r1) := input_int inp in
  let '(year, r2) := input_int r1 in
  let '(month, r3) := input_int r2 in
  let '(amt, r4) := input_double r3 in
  (cid, year, month, amt, r4).


(** The output of [list_categories]. *)
Definition categories_listing (cs : list Category) : list string :=
  ("Categories:" ++ nl) ::
  if Z.of_nat (length cs) =? 0 then [" (none)" ++ nl]
  else map (fun c => "  id=" ++ fmt_d (c_id c) ++ "  " ++ c_name c ++ nl) cs.

(** ** Sample stores *)

Definition sample_tm : tm := mkTm 124 2 15.

Definition Food : Category := mkCategory 1 "Food".
Definition Rent : Category := mkCategory 2 "Rent".

Definition lunch : Transaction :=
  mkTransaction 1 "2024-03-15" (Q2Qc (85 # 2)) 1 TYPE_EXPENSE "lunch".
Definition refund : Transaction :=
  mkTransaction 2 "2024-03-31" (Q2Qc (10 # 1)) 1 TYPE_INCOME "refund".
Definition april : Transaction :=
  mkTransaction 3 "2024-04-01" (Q2Qc (7 # 1)) 1 TYPE_EXPENSE "".

(** Three transactions of March 2024 whose sum needs more than the 53 bits
    of a [double]: an expense of 10^16, an expense of 1 and an income of
    10^16. *)
Definition large_expense : Transaction :=
  mkTransaction 1 "2024-03-01" (Q2Qc (10000000000000000 # 1)) 1 TYPE_EXPENSE "".
Definition unit_expense : Transaction :=
  mkTransaction 2 "2024-03-02" (Q2Qc (1 # 1)) 1 TYPE_EXPENSE "".
Definition large_income : Transaction :=
  mkTransaction 3 "2024-03-03" (Q2Qc (10000000000000000 # 1)) 1 TYPE_INCOME "".

(** A world with the given records, the counters past the greatest id, no
    obfuscation and no file. *)
Definition world_of (ts : list Transaction) (cs : list Category)
    (bs : list BudgetEntry) (inp : string) : World :=
  mkWorld (mkTxnStore ts (Z.of_nat (length ts)) (max_id t_id ts + 1))
          (mkCatStore cs (Z.of_nat (length cs)) (max_id c_id cs + 1))
          (mkBudgetStore bs (Z.of_nat (length bs)))
          false 0 inp [] sample_tm ∅.

Definition march_budget : BudgetEntry := mkBudgetEntry 1 2024 3 (Q2Qc (100 # 1)).

(** The input stream of a user who types the given lines. *)
Definition typed (ls : list string) : string :=
  String.concat "" (map (fun l => l ++ nl) ls).

(** The whole records of the file at [path], after the byte transform of
    the world. *)
Definition file_records {A} `{Layout A} (path : string) (w : World) : list A :=
  match files w !! path with
  | Some content =>
      records_of_bytes (length content / sizeof) (obfuscate_buffer w content)
  | None => []
  end.

(** The files after [save_all]: an empty store writes no file. *)
Definition saved_files `{LC : Layout Category} `{LT : Layout Transaction}
    `{LB : Layout BudgetEntry} (w : World) : gmap string (list Z) :=
  let f0 := files w in
  let f1 := if (length (cat_data (cats w)) =? 0)%nat then f0
            else <[CAT_FILE := obfuscate_buffer w (bytes_of_records (cat_data (cats w)))]> f0 in
  let f2 := if (length (txn_data (txns w)) =? 0)%nat then f1
            else <[TRAN_FILE := obfuscate_buffer w (bytes_of_records (txn_data (txns w)))]> f1 in
  if (length (bud_data (budgets w)) =? 0)%nat then f2
  else <[BUD_FILE := obfuscate_buffer w (bytes_of_records (bud_data (budgets w)))]> f2.

(** [n] categories with the ids 1 to [n]. *)
Definition numbered_categories (n : nat) : list Category :=
  map (fun i => mkCategory i "c") (seqZ 1 (Z.of_nat n)).

(** A world with one record in each store and the obfuscation on. *)
Definition obfuscated_world : World :=
  mkWorld (mkTxnStore [lunch] 16 2) (mkCatStore [Food] 8 2)
          (mkBudgetStore [march_budget] 8) true 90 "" [] sample_tm ∅.

(** The store of the CSV scenario of section 8. *)
Definition food_world (inp : string) : World :=
  mkWorld (mkTxnStore [lunch] 16 2) (mkCatStore [Food] 8 2) init_budgets
          false 0 inp [] sample_tm ∅.

(** A CSV file in the column order that [import_csv] reads. *)
Definition csv_file (rows : list string) : list Z :=
  bytes_of_string (typed ("date,type,amount,category,note" :: rows)).

(** ** Relations between the worlds before and after an operation *)

(** Every run of [m] relates the world it starts in to the world it
    leaves. *)
Definition respects {A} (R : World -> World -> Prop) (m : M A) : Prop :=
  forall w, R w (snd (m w)).

(** The operation has only consumed input. *)
Definition input_shrinks (w w' : World) : Prop :=
  (String.length (stdin w') <= String.length (stdin w))%nat.

(** ** Invariants of the stores *)

(** Every transaction refers to a category of the store. *)
Definition refs_ok (w : World) : Prop :=
  forall t, t ∈ txn_data (txns w) -> find_category_by_id (t_category_id t) w = true.



(** [INT_MAX]. *)
Definition INT_MAX : Z := 2147483647.

(** Every id of the list is below [INT_MAX]: the id after the greatest is
    a value of [int]. *)
Definition ids_fit {A} (id : A -> Z) (l : list A) : bool :=
  forallb (fun x => id x <? INT_MAX) l.



(** The arrays hold their elements. *)
Definition capacity_ok (w : World) : Prop :=
  txn_size (txns w) <= txn_cap (txns w) /\
  cat_size (cats w) <= cat_cap (cats w) /\
  bud_size (budgets w) <= bud_cap (budgets w).

(** The capacity after [ensure_*_capacity] with [init] as the first
    capacity. *)
Definition ensured (cap size init : Z) : Z :=
  if cap <? size + 1 then grow cap init else cap.

(** The category store after a category of the name [name] is pushed with
    the id of the counter. *)
Definition category_pushed (name : string) (c : CatStore) : CatStore :=
  mkCatStore (cat_data c ++ [mkCategory (cat_next_id c) name])
             (ensured (cat_cap c) (cat_size c) 8) (cat_next_id c + 1).

(** The category store after [add_category] has read [name]. *)
Definition category_added (name : string) (c : CatStore) : CatStore :=
  if strlen name =? 0 then c else category_pushed (strncpy 63 name) c.

(** The values that [edit_transaction] reads, in the order of its prompts. *)
Definition edit_inputs (inp : string) : Z * string * Z * Qc * Z * string * string :=
  let '(id, r0) := input_int inp in
  let '(date, r1) := input_line 11 r0 in
  let '(tp, r2) := input_int r1 in
  let '(a, r3) := input_double r2 in
  let '(cid, r4) := input_int r3 in
  let '(note, r5) := input_line 256 r4 in
  (id, date, tp, a, cid, note, r5).

(** The transaction after the assignments of [edit_transaction] for these
    values: each field is assigned when its test passes. *)
Definition edit_fields (w : World) (date : string) (tp : Z) (a : Qc) (cid : Z)
    (note : string) (t : Transaction) : Transaction :=
  let t := if parse_date date then with_date date t else t in
  let t := if (tp =? 0) || (tp =? 1)
           then with_type tp t else t in
  let t := if amount_ltb (Q2Qc 0) a then with_amount a t else t in
  let t := if negb (cid =? 0) && find_category_by_id cid w then with_category_id cid t else t in
  if negb (strlen note =? 0) then with_note (strncpy 255 note) t else t.

(** The budget store after a set that passes validation. *)
Definition budget_set (cid year month : Z) (amt : Qc) (b : BudgetStore)
    : BudgetStore :=
  let i := find_index (budget_key_eqb cid year month) (bud_data b) 0 in
  if 0 <=? i then
    mkBudgetStore (alter (with_budget_amount amt) (Z.to_nat i) (bud_data b)) (bud_cap b)
  else
    mkBudgetStore (bud_data b ++ [mkBudgetEntry cid year month amt])
                  (ensured (bud_cap b) (bud_size b) 8).

(** The operation has left [f] of the world as it was. *)
Definition unchanged {A} (f : World -> A) (w w' : World) : Prop := f w' = f w.

(** The operation has kept the invariant [Inv]. *)
Definition keeps (Inv : World -> Prop) (w w' : World) : Prop := Inv w -> Inv w'.

(** The categories of [c'] are those of [c], or those and more at the
    end. *)
Definition cats_extended (c c' : CatStore) : Prop :=
  exists k, cat_data c' = (cat_data c ++ k)%list.

(** The flag and the key of the obfuscation. *)
Definition obfuscation (w : World) : bool * Z := (obfuscate_enabled w, obf_key w).

(** The operation has only printed. *)
Definition only_prints (w w' : World) : Prop :=
  exists out, w' = set_stdout w (stdout w ++ out).

(** The operation has only read and printed. *)
Definition only_io (w w' : World) : Prop :=
  exists out r, w' = set_stdin (set_stdout w (stdout w ++ out)) r.

(** The string holds no newline. *)
Definition no_newline (s : string) : bool :=
  forallb (fun c => negb (Ascii.eqb c LF)) (list_ascii_of_string s).

(** The digits at the start of a string as a number, and the number that
    [strtol] finds in a string: white space, an optional sign, digits. *)
Fixpoint digits_value (s : string) (acc : Z) : Z :=
  match s with
  | String c s' => if isdigit c then digits_value s' (10 * acc + digit_val c) else acc
  | EmptyString => acc
  end.

Definition decimal_prefix (s : string) : Z :=
  match skip_space s with
  | String c s' =>
      if is_sign c then
        if starts_with_digit s' then
          if Ascii.eqb c "-" then - digits_value s' 0 else digits_value s' 0
        else 0
      else if isdigit c then digits_value (String c s') 0 else 0
  | EmptyString => 0
  end.

(** The string is made of line ends. *)
Definition all_eol (s : string) : bool :=
  forallb is_eol (list_ascii_of_string s).

(** The string holds no NUL byte. *)
Definition no_nul (s : string) : bool :=
  forallb (fun c => negb (Ascii.eqb c zero)) (list_ascii_of_string s).

(** The operation has only appended: transactions whose dates start with
    ten characters that [parse_date] accepts, and at most as many
    categories. *)
Definition imported (w w' : World) : Prop :=
  exists ts cs,
    txn_data (txns w') = (txn_data (txns w) ++ ts)%list /\
    cat_data (cats w') = (cat_data (cats w) ++ cs)%list /\
    budgets w' = budgets w /\
    Forall (fun t => parse_date (strncpy 10 (t_date t)) = true) ts /\
    (length cs <= length ts)%nat.

(** The test of the loop of [list_transactions]: the date is not before
    [start_date] and not after [end_date], where they are given. *)
Definition in_range (start_date end_date : option string) (t : Transaction) : bool :=
  negb (match start_date with
        | Some sd => compare_dates (t_date t) sd <? 0
        | None => false
        end)
  && negb (match end_date with
           | Some ed => 0 <? compare_dates (t_date t) ed
           | None => false
           end).

(** The line that [list_transactions] prints for a transaction. *)
Definition transaction_line (w : World) (t : Transaction) : string :=
  "  id=" ++ fmt_d (t_id t) ++ "  " ++ t_date t ++ "  "
  ++ type_tag (t_type t) ++ "  " ++ fmt_2f (t_amount t)
  ++ "  [" ++ category_name (t_category_id t) w ++ "]  " ++ t_note t ++ nl.

(** * Properties *)

(** ** The model of the C library on examples *)

Example parse_date_plain : parse_date "2024-03-15" = true.
Proof. reflexivity. Qed.
Example atof_decimal : atof " 42.50" = Q2Qc (85 # 2).
Proof. apply Qc_is_canon. reflexivity. Qed.
Example atof_exponent : atof "-1.5e2x" = Q2Qc (-150 # 1).
Proof. apply Qc_is_canon. reflexivity. Qed.
Example atof_leading_point : atof ".5" = Q2Qc (1 # 2).
Proof. apply Qc_is_canon. reflexivity. Qed.
Example atof_no_number : atof "abc" = Q2Qc 0.
Proof. apply Qc_is_canon. reflexivity. Qed.
Example atof_negative_exponent : atof "25e-1" = Q2Qc (5 # 2).
Proof. apply Qc_is_canon. reflexivity. Qed.
Example fmt_2f_lunch : fmt_2f (Q2Qc (85 # 2)) = "42.50". Proof. reflexivity. Qed.
Example fmt_2f_negative : fmt_2f (Q2Qc (-1 # 3)) = "-0.33". Proof. reflexivity. Qed.
Example fmt_0d_negative : fmt_0d 4 (-5) = "-005". Proof. reflexivity. Qed.
Example fmt_d_zero : fmt_d 0 = "0". Proof. reflexivity. Qed.
Example fmt_d_negative : fmt_d (-120) = "-120". Proof. reflexivity. Qed.
Example fmt_0d_wide : fmt_0d 4 12345 = "12345". Proof. reflexivity. Qed.
Example strtok_skips_delimiters : strtok "," ",,a,b" = Some ("a", "b"). Proof. reflexivity. Qed.
Example fgets_full_buffer : fgets 5 ("abcdefg" ++ nl ++ "x") = Some ("abcd", "efg" ++ nl ++ "x"). Proof. reflexivity. Qed.
Example fgets_line : fgets 5 ("ab" ++ nl ++ "x") = Some ("ab" ++ nl, "x"). Proof. reflexivity. Qed.

Example b64_bits_lunch : ABI.b64_bits (Q2Qc (85 # 2)) = 0x4045400000000000.
Proof. reflexivity. Qed.
Example b64_bits_minus_one : ABI.b64_bits (Q2Qc (-1 # 1)) = 0xBFF0000000000000.
Proof. reflexivity. Qed.
Example b64_bits_tenth : ABI.b64_bits (Q2Qc (1 # 10)) = 0x3FB9999999999999.
Proof. reflexivity. Qed.
Example b64_value_lunch : ABI.b64_value 0x4045400000000000 = Q2Qc (85 # 2).
Proof. apply Qc_is_canon. reflexivity. Qed.
Example b64_roundtrip_eighths : ABI.b64_value (ABI.b64_bits (Q2Qc (3 # 8))) = Q2Qc (3 # 8).
Proof. apply Qc_is_canon. reflexivity. Qed.
Example b64_bits_quarter : ABI.b64_bits (Q2Qc (1 # 4)) = 0x3FD0000000000000.
Proof. reflexivity. Qed.
Example int_roundtrip_minus_two : ABI.int_value (ABI.int_bytes (-2)) = -2.
Proof. reflexivity. Qed.
Example int_bytes_minus_two : ABI.int_bytes (-2) = [254;255;255;255].
Proof. reflexivity. Qed.
Example cstring_abc : ABI.cstring (ABI.char_array 8 "abc") = "abc".
Proof. reflexivity. Qed.

(** ** Strings and dates *)

Lemma strncpy_all (n : nat) (s : string) :
  (String.length s <= n)%nat -> strncpy n s = s.
Proof.
  revert n; induction s as [|c s IH]; intros [|n] H; simpl in *;
    try reflexivity; try lia.
  f_equal. apply IH. lia.
Qed.

Lemma length_app_string (a b : string) :
  String.length (a ++ b) = (String.length a + String.length b)%nat.
Proof. induction a as [|c a IH]; simpl; [reflexivity | now rewrite IH]. Qed.

(** The widths of [%04d] and [%02d] on the years and months of a date. *)
Lemma fmt_year_length (y : Z) :
  - 999 <= y <= 9999 -> String.length (fmt_0d 4 y) = 4%nat.
Proof.
  intros Hy.
  assert (H : forallb (fun y => Nat.eqb (String.length (fmt_0d 4 y)) 4)
                (seqZ (- 999) 10999) = true) by (vm_compute; reflexivity).
  rewrite forallb_forall in H.
  apply Nat.eqb_eq, H, list_elem_of_In, elem_of_seqZ. lia.
Qed.

Lemma fmt_month_length (m : Z) :
  0 <= m <= 99 -> String.length (fmt_0d 2 m) = 2%nat.
Proof.
  intros Hm.
  assert (H : forallb (fun m => Nat.eqb (String.length (fmt_0d 2 m)) 2)
                (seqZ 0 100) = true) by (vm_compute; reflexivity).
  rewrite forallb_forall in H.
  apply Nat.eqb_eq, H, list_elem_of_In, elem_of_seqZ. lia.
Qed.

Lemma first_day_length (y m : Z) :
  - 999 <= y <= 9999 -> 0 <= m <= 99 -> String.length (first_day y m) = 10%nat.
Proof.
  intros Hy Hm. unfold first_day.
  rewrite !length_app_string, fmt_year_length, fmt_month_length by lia.
  reflexivity.
Qed.

Lemma month_start_first_day (y m : Z) :
  - 999 <= y <= 9999 -> 0 <= m <= 99 -> month_start y m = first_day y m.
Proof.
  intros Hy Hm. unfold month_start. fold (first_day y m).
  apply strncpy_all. rewrite first_day_length by lia. lia.
Qed.

Lemma compare_dates_lt (a b : string) :
  (compare_dates a b <? 0) = negb (String.leb b a).
Proof.
  unfold compare_dates, strcmp, String.leb.
  rewrite (String.compare_antisym a b).
  destruct (String.compare b a); reflexivity.
Qed.

Lemma compare_dates_ge (a b : string) :
  (0 <=? compare_dates a b) = negb (String.ltb a b).
Proof.
  unfold compare_dates, strcmp, String.ltb.
  destruct (String.compare a b); reflexivity.
Qed.

(** In December 9999 the next year has five digits: the bound of the code
    is the truncated ["10000-01-0"], and no date from ["9999-12-01"] on is
    below it or below the full ["10000-01-01"]. *)
Lemma december_9999 (d : string) :
  String.leb "9999-12-01" d = true ->
  String.ltb d (first_day 10000 1) = false /\
  String.ltb d (month_start 10000 1) = false.
Proof.
  replace (first_day 10000 1) with "10000-01-01" by reflexivity.
  replace (month_start 10000 1) with "10000-01-0" by reflexivity.
  destruct d as [|ch d]; [discriminate|].
  unfold String.leb, String.ltb. cbn [String.compare].
  unfold Ascii.compare.
  change (N_of_ascii "9") with 57%N. change (N_of_ascii "1") with 49%N.
  destruct (N.compare_spec 57 (N_of_ascii ch)) as [E|E|E].
  - rewrite <- E. intros _. split; reflexivity.
  - intros _.
    assert (G : (N_of_ascii ch ?= 49)%N = Gt) by (apply N.compare_gt_iff; lia).
    rewrite G. split; reflexivity.
  - discriminate.
Qed.

Lemma in_month_code (y m : Z) (d : string) :
  1 <= m <= 12 -> - 999 <= y <= 9999 ->
  let nmonth := if m =? 12 then 1 else m + 1 in
  let nyear := if m =? 12 then y + 1 else y in
  String.leb (month_start y m) d && String.ltb d (month_start nyear nmonth)
  = in_month y m d.
Proof.
  intros Hm Hy nmonth nyear. unfold in_month, next_month.
  subst nmonth nyear.
  rewrite (month_start_first_day y m) by lia.
  destruct (Z.eqb_spec m 12) as [->|Hne].
  - destruct (Z.eq_dec y 9999) as [->|Hy'].
    + change (9999 + 1) with 10000.
      destruct (String.leb (first_day 9999 12) d) eqn:E; [|reflexivity].
      replace (first_day 9999 12) with "9999-12-01" in E by reflexivity.
      destruct (december_9999 d E) as [-> ->]. reflexivity.
    + rewrite month_start_first_day by lia. reflexivity.
  - rewrite month_start_first_day by lia. reflexivity.
Qed.

(** Under the order of date strings no date lies in December 9999: the
    first day of the next month has a year of five digits. *)
Lemma in_month_december_9999 (d : string) : in_month 9999 12 d = false.
Proof.
  unfold in_month, next_month. change (9999 + 1) with 10000.
  change (12 =? 12) with true. cbv iota.
  destruct (String.leb (first_day 9999 12) d) eqn:E; [|reflexivity].
  replace (first_day 9999 12) with "9999-12-01" in E by reflexivity.
  now destruct (december_9999 d E) as [-> _].
Qed.

(** ** The monthly net of a category *)

Lemma filter_andb {A} (p q : A -> bool) (l : list A) :
  List.filter (fun x => p x && q x) l = List.filter q (List.filter p l).
Proof.
  induction l as [|x l IH]; simpl; [reflexivity|].
  destruct (p x); simpl; [destruct (q x)|]; now rewrite IH.
Qed.

Lemma total_step_selected (c : Z) (smin smax : string) (total : double)
    (t : Transaction) :
  total_step c smin smax total t =
  if (t_category_id t =? c) && (String.leb smin (t_date t) && String.ltb (t_date t) smax)
  then net_step total t
  else total.
Proof.
  unfold total_step, net_step, is_expense.
  rewrite compare_dates_lt, compare_dates_ge.
  destruct (t_category_id t =? c); simpl; [|reflexivity].
  destruct (String.leb smin (t_date t)); simpl; [|reflexivity].
  destruct (String.ltb (t_date t) smax); reflexivity.
Qed.

Lemma fold_total_step (c : Z) (smin smax : string) (sel : Transaction -> bool)
    (l : list Transaction) (acc : double) :
  (forall t, sel t = (t_category_id t =? c)
                     && (String.leb smin (t_date t) && String.ltb (t_date t) smax)) ->
  fold_left (total_step c smin smax) l acc = fold_left net_step (List.filter sel l) acc.
Proof.
  intros Hsel. revert acc.
  induction l as [|t l IH]; intros acc; simpl; [reflexivity|].
  rewrite total_step_selected, <- Hsel.
  destruct (sel t); simpl; apply IH.
Qed.

Lemma total_running_net (w : World) (c y m : Z) :
  1 <= m <= 12 -> - 999 <= y <= 9999 ->
  total_for_category_month c y m w
  = running_net (List.filter (selected c y m) (txn_data (txns w))).
Proof.
  intros Hm Hy. unfold total_for_category_month, running_net.
  apply fold_total_step. intros t. unfold selected. now rewrite <- in_month_code.
Qed.

Lemma is_binary64_nearest (q : Qc) : is_binary64 q = true -> nearest q = Num q.
Proof.
  unfold is_binary64. destruct (nearest q) as [r| |]; try discriminate.
  intros H. f_equal. apply Qc_is_canon. now apply Qeq_bool_iff.
Qed.

Lemma net_step_exact (a : Qc) (t : Transaction) :
  is_binary64 (a + signed_amount t) = true ->
  net_step (Num a) t = Num (a + signed_amount t).
Proof.
  unfold net_step, signed_amount. destruct (is_expense t); intros H;
    unfold sub, opp, add; now apply is_binary64_nearest.
Qed.

Lemma fold_net_step_exact (l : list Transaction) (a : Qc) :
  exact_sums a l = true ->
  fold_left net_step l (Num a)
  = Num (fold_left (fun s t => (s + signed_amount t)%Qc) l a).
Proof.
  revert a. induction l as [|t l IH]; intros a H; [reflexivity|].
  cbn [exact_sums] in H. apply andb_prop in H as [H1 H2].
  cbn [fold_left]. rewrite net_step_exact by assumption. now apply IH.
Qed.

Lemma signed_sum (l : list Transaction) (a : Qc) :
  two_types l = true ->
  fold_left (fun s t => (s + signed_amount t)%Qc) l a
  = (a + sum_amounts (List.filter is_expense l)
     - sum_amounts (List.filter is_income l))%Qc.
Proof.
  revert a. induction l as [|t l IH]; intros a H; simpl; [ring|].
  simpl in H. apply andb_prop in H as [Ht Hl]. rewrite IH by assumption.
  unfold signed_amount, is_expense, is_income, TYPE_EXPENSE, TYPE_INCOME in *.
  destruct (Z.eqb_spec (t_type t) 0) as [E|E].
  - rewrite E. simpl. ring.
  - simpl in Ht. rewrite Ht. simpl. ring.
Qed.

(** C1, amended. For a month in 1..12 and a year from -999 to 9999 (the
    years whose first day of the month fills the ten characters of a
    date), the monthly net of a category is the running [double] sum over
    exactly the transactions of that category whose date [d] satisfies
    first-day-of-month <= d < first-day-of-next-month as strings, December
    being followed by January of the next year, taken in the order of the
    store from 0.0: the amount of an Expense is added, the amount of any
    other transaction is subtracted, and every step rounds to binary64.
    The other transactions contribute nothing: two stores with the same
    selected transactions have the same net.  When the selected
    transactions are Expenses and Incomes and no step rounds, the net is
    the sum of the amounts of the Expenses minus the sum of the amounts of
    the Incomes. *)
Theorem total_for_category_month_net (w : World) (c y m : Z) :
  1 <= m <= 12 -> - 999 <= y <= 9999 ->
  let sel := List.filter (selected c y m) (txn_data (txns w)) in
  total_for_category_month c y m w = running_net sel /\
  (forall w' : World,
     List.filter (selected c y m) (txn_data (txns w')) = sel ->
     total_for_category_month c y m w' = total_for_category_month c y m w) /\
  (two_types sel = true -> exact_sums (Q2Qc 0) sel = true ->
   total_for_category_month c y m w
   = Num (monthlyCategoryNet c y m (txn_data (txns w)))).
Proof.
  intros Hm Hy sel. split; [now apply total_running_net|]. split.
  - intros w' Hsame. rewrite !total_running_net by assumption. now rewrite Hsame.
  - intros Htypes Hexact. rewrite total_running_net by assumption.
    fold sel. unfold running_net. rewrite fold_net_step_exact by assumption.
    rewrite signed_sum by assumption. f_equal.
    unfold monthlyCategoryNet. rewrite !(filter_andb (selected c y m)).
    fold sel. ring.
Qed.

Lemma double_num_eq (x : double) (q : Qc) :
  match x with Num r => Qeq_bool (this r) (this q) | _ => false end = true ->
  x = Num q.
Proof.
  destruct x as [r| |]; try discriminate.
  intros H. f_equal. apply Qc_is_canon. now apply Qeq_bool_iff.
Qed.

(** March 2024 of category 1: lunch and a refund count, the first of April
    does not, and no step rounds. *)
Lemma total_for_category_month_net_witness :
  let w := world_of [lunch; refund; april] [Food] [] "" in
  total_for_category_month 1 2024 3 w = running_net [lunch; refund] /\
  total_for_category_month 1 2024 3 w
  = Num (monthlyCategoryNet 1 2024 3 (txn_data (txns w))).
Proof.
  intros w.
  assert (Hm : 1 <= 3 <= 12) by lia.
  assert (Hy : - 999 <= 2024 <= 9999) by lia.
  destruct (total_for_category_month_net w 1 2024 3 Hm Hy) as (H1 & _ & H3).
  split; [exact H1|].
  apply H3; vm_compute; reflexivity.
Defined.

(** C1, the counterexample. An expense of 10^16, an expense of 1 and an
    income of 10^16 in March 2024, all of category 1: the sum of the
    Expenses minus the sum of the Incomes is 1, and the monthly net of the
    code is 0, because 10^16 + 1 rounds to 10^16. *)
Lemma total_for_category_month_rounds :
  let w := world_of [large_expense; unit_expense; large_income] [Food] [] "" in
  total_for_category_month 1 2024 3 w = Num (Q2Qc 0) /\
  monthlyCategoryNet 1 2024 3 (txn_data (txns w)) = Q2Qc 1 /\
  total_for_category_month 1 2024 3 w
  <> Num (monthlyCategoryNet 1 2024 3 (txn_data (txns w))).
Proof.
  intros w.
  assert (H1 : total_for_category_month 1 2024 3 w = Num (Q2Qc 0))
    by (apply double_num_eq; vm_compute; reflexivity).
  assert (H2 : monthlyCategoryNet 1 2024 3 (txn_data (txns w)) = Q2Qc 1)
    by (apply Qc_is_canon; reflexivity).
  split; [exact H1|]. split; [exact H2|].
  rewrite H1, H2. intros E. injection E as E. discriminate E.
Qed.

Example total_march :
  total_for_category_month 1 2024 3 (world_of [lunch; refund; april] [Food] [] "")
  = Num (Q2Qc (65 # 2)).
Proof. apply double_num_eq. vm_compute. reflexivity. Qed.

Example total_december :
  total_for_category_month 1 2024 12
    (world_of [mkTransaction 1 "2024-12-31" (Q2Qc (5 # 1)) 1 TYPE_EXPENSE "";
               mkTransaction 2 "2025-01-01" (Q2Qc (3 # 1)) 1 TYPE_EXPENSE "";
               mkTransaction 3 "2024-12-01" (Q2Qc (1 # 1)) 1 TYPE_INCOME ""]
              [Food] [] "")
  = Num (Q2Qc (4 # 1)).
Proof. apply double_num_eq. vm_compute. reflexivity. Qed.

(** A transaction whose type is neither 0 nor 1, as a file can hold it: the
    monthly net subtracts its amount. *)
Example total_other_type :
  total_for_category_month 1 2024 3
    (world_of [mkTransaction 1 "2024-03-15" (Q2Qc (5 # 1)) 1 2 ""] [Food] [] "")
  = Num (Q2Qc (- 5 # 1)).
Proof. apply double_num_eq. vm_compute. reflexivity. Qed.

(** The bounds of a month of the year 10000 are cut to the ten characters
    of the buffer: a stored date that is the cut bound itself is counted,
    and is below the first day of the month. *)
Example total_year_10000 :
  let t := mkTransaction 1 "10000-03-0" (Q2Qc (5 # 1)) 1 TYPE_EXPENSE "" in
  month_start 10000 3 = "10000-03-0" /\ first_day 10000 3 = "10000-03-01" /\
  total_for_category_month 1 10000 3 (world_of [t] [Food] [] "") = Num (Q2Qc (5 # 1)) /\
  selected 1 10000 3 t = false.
Proof.
  intros t. split; [reflexivity|]. split; [reflexivity|].
  split; [apply double_num_eq; vm_compute; reflexivity|reflexivity].
Qed.

(** ** Running the state monad *)

Lemma bind_eq {A B} (m : M A) (k : A -> M B) (w w' : World) (a : A) :
  m w = (a, w') -> bind m k w = k a w'.
Proof. intros H. unfold bind. now rewrite H. Qed.

Lemma world_eta (w : World) :
  mkWorld (txns w) (cats w) (budgets w) (obfuscate_enabled w) (obf_key w)
          (stdin w) (stdout w) (localtime w) (files w) = w.
Proof. now destruct w. Qed.

Lemma for_each_printf {A} (f : A -> string) (l : list A) (w : World) :
  for_each l (fun x => printf (f x)) w
  = (tt, set_stdout w (stdout w ++ map f l)).
Proof.
  revert w. induction l as [|x l IH]; intros w; simpl.
  - unfold ret, set_stdout. now rewrite List.app_nil_r, world_eta.
  - unfold bind. simpl. rewrite IH. simpl.
    now rewrite <- List.app_assoc.
Qed.

Lemma list_categories_run (w : World) :
  list_categories w
  = (tt, set_stdout w (stdout w ++ categories_listing (cat_data (cats w)))).
Proof.
  unfold list_categories, categories_listing, bind, gets, printf, modify. simpl.
  destruct (Z.of_nat (length (cat_data (cats w))) =? 0).
  - simpl. now rewrite <- List.app_assoc.
  - rewrite (for_each_printf (fun c => "  id=" ++ fmt_d (c_id c) ++ "  " ++ c_name c ++ nl)).
    simpl. now rewrite <- List.app_assoc.
Qed.

Lemma read_line_run (sz : nat) (w : World) :
  read_line sz w
  = (fst (input_line sz (stdin w)), set_stdin w (snd (input_line sz (stdin w)))).
Proof.
  unfold read_line, input_line.
  destruct (fgets sz (stdin w)) as [[buf rest]|]; simpl; [reflexivity|].
  unfold set_stdin. now rewrite world_eta.
Qed.

Lemma read_int_run (w : World) :
  read_int w
  = (fst (input_int (stdin w)), set_stdin w (snd (input_int (stdin w)))).
Proof.
  unfold read_int, input_int, bind. rewrite read_line_run.
  destruct (input_line 64 (stdin w)); reflexivity.
Qed.

Lemma read_double_run (w : World) :
  read_double w
  = (fst (input_double (stdin w)), set_stdin w (snd (input_double (stdin w)))).
Proof.
  unfold read_double, input_double, bind. rewrite read_line_run.
  destruct (input_line 64 (stdin w)); reflexivity.
Qed.

Ltac wsimpl :=
  unfold set_txns, set_cats, set_budgets, set_stdin, set_stdout, set_files in *;
  repeat (progress (
    simpl (txns (mkWorld _ _ _ _ _ _ _ _ _)) in *;
    simpl (cats (mkWorld _ _ _ _ _ _ _ _ _)) in *;
    simpl (budgets (mkWorld _ _ _ _ _ _ _ _ _)) in *;
    simpl (obfuscate_enabled (mkWorld _ _ _ _ _ _ _ _ _)) in *;
    simpl (obf_key (mkWorld _ _ _ _ _ _ _ _ _)) in *;
    simpl (stdin (mkWorld _ _ _ _ _ _ _ _ _)) in *;
    simpl (stdout (mkWorld _ _ _ _ _ _ _ _ _)) in *;
    simpl (localtime (mkWorld _ _ _ _ _ _ _ _ _)) in *;
    simpl (files (mkWorld _ _ _ _ _ _ _ _ _)) in *;
    cbn beta iota zeta delta
      [fst snd negb andb orb cat_data cat_cap cat_next_id
       txn_data txn_cap txn_next_id bud_data bud_cap] in *)).

Ltac mrun :=
  unfold when, printf in *; unfold bind, gets, ret, modify in *; wsimpl.

(** ** Arrays *)

Lemma find_index_range {A} (p : A -> bool) (l : list A) (i : Z) :
  0 <= i ->
  find_index p l i = -1 \/ i <= find_index p l i < i + Z.of_nat (length l).
Proof.
  revert i. induction l as [|x l IH]; intros i Hi; simpl; [now left|].
  destruct (p x); [right; lia|].
  destruct (IH (i + 1)) as [->|H]; [lia|now left|right; lia].
Qed.

Lemma find_index_none {A} (p : A -> bool) (l : list A) (i : Z) :
  0 <= i -> (find_index p l i = -1 <-> existsb p l = false).
Proof.
  revert i. induction l as [|x l IH]; intros i Hi; simpl; [tauto|].
  destruct (p x); simpl.
  - split; [lia|discriminate].
  - apply IH. lia.
Qed.

Lemma find_index_lookup {A} (p : A -> bool) (l : list A) (i : Z) :
  0 <= i -> find_index p l i <> -1 ->
  exists x, l !! Z.to_nat (find_index p l i - i) = Some x /\ p x = true.
Proof.
  revert i. induction l as [|x l IH]; intros i Hi; simpl; [congruence|].
  destruct (p x) eqn:Hp.
  - intros _. exists x. now rewrite Z.sub_diag.
  - intros Hne. destruct (IH (i + 1)) as (y & Hy & Hpy); [lia|assumption|].
    exists y. split; [|assumption].
    destruct (find_index_range p l (i + 1)) as [E|E]; [lia|congruence|].
    replace (Z.to_nat (find_index p l (i + 1) - i))
      with (S (Z.to_nat (find_index p l (i + 1) - (i + 1)))) by lia.
    exact Hy.
Qed.

Lemma swap_remove_delete {A} (idx : nat) (l : list A) (x : A) :
  l !! idx = Some x -> swap_remove idx l ≡ₚ delete idx l.
Proof.
  intros Hx. unfold swap_remove.
  destruct l as [|a l0] using rev_ind; [discriminate|].
  clear IHl0. rename l0 into l.
  rewrite length_app; simpl.
  replace (length l + 1 - 1)%nat with (length l) by lia.
  rewrite lookup_app_r, Nat.sub_diag by lia. simpl.
  destruct (decide (idx = length l)) as [->|Hne].
  - rewrite list_insert_id by (rewrite lookup_app_r, Nat.sub_diag by lia; reflexivity).
    rewrite take_app_length.
    rewrite delete_take_drop, take_app_length.
    rewrite drop_ge by (rewrite length_app; simpl; lia).
    now rewrite List.app_nil_r.
  - assert (Hlt : (idx < length l)%nat).
    { apply lookup_lt_Some in Hx. rewrite length_app in Hx. simpl in Hx. lia. }
    rewrite insert_app_l by assumption.
    rewrite take_app_le by (rewrite length_insert; lia).
    rewrite take_ge by (rewrite length_insert; lia).
    rewrite !delete_take_drop.
    rewrite take_app_le by lia. rewrite drop_app_le by lia.
    rewrite insert_take_drop by assumption.
    apply Permutation_app_head.
    change (a :: drop (S idx) l) with ([a] ++ drop (S idx) l)%list.
    apply Permutation_app_comm.
Qed.

(** ** Category removal *)

Lemma existsb_category_id (id : Z) (l : list Category) :
  existsb (fun c => c_id c =? id) l = true <-> id ∈ map c_id l.
Proof.
  rewrite existsb_exists, list_elem_of_fmap. split.
  - intros (c & Hin & Hc). exists c. split; [lia|now apply list_elem_of_In].
  - intros (c & Hc & Hin). exists c. split; [now apply list_elem_of_In|lia].
Qed.

(** C6. For an existing category id, read from the input, in a store of
    categories with unique ids: when a transaction refers to the id, the
    removal reports that the category is used and leaves the three stores as
    they were; when no transaction refers to it, the removal succeeds, the
    other categories all remain, and a lookup of the id finds nothing. *)
Theorem remove_category_integrity (w : World) (id : Z) :
  fst (input_int (stdin w)) = id ->
  unique_ids (cat_data (cats w)) ->
  (exists c, c ∈ cat_data (cats w) /\ c_id c = id) ->
  let w' := exec remove_category w in
  ((exists t, t ∈ txn_data (txns w) /\ t_category_id t = id) ->
     stores w' = stores w /\
     exists out, stdout w' = (stdout w ++ out
       ++ [("Category used by transactions — cannot delete." ++ nl)%string])%list) /\
  ((forall t, t ∈ txn_data (txns w) -> t_category_id t <> id) ->
     find_category_by_id id w' = false /\
     find_category_index_by_id id w' = -1 /\
     (forall c, c ∈ cat_data (cats w') <-> c ∈ cat_data (cats w) /\ c_id c <> id) /\
     txns w' = txns w /\ budgets w' = budgets w /\
     exists out, stdout w' = (stdout w ++ out ++ [("Deleted." ++ nl)%string])%list).
Proof.
  intros Hid Huniq (c0 & Hc0 & Hc0id) w'.
  assert (Hex : existsb (fun c => c_id c =? id) (cat_data (cats w)) = true).
  { apply existsb_category_id, list_elem_of_fmap. eauto. }
  assert (Hidx : find_index (fun c => c_id c =? id) (cat_data (cats w)) 0 <> -1).
  { intros E. apply find_index_none in E; [congruence|lia]. }
  destruct (find_index_range (fun c => c_id c =? id) (cat_data (cats w)) 0) as [E|Hr];
    [lia|congruence|].
  destruct (find_index_lookup _ _ 0 ltac:(lia) Hidx) as (x & Hx & Hpx).
  rewrite Z.sub_0_r in Hx. apply Z.eqb_eq in Hpx.
  subst w'. unfold exec, remove_category. mrun.
  rewrite list_categories_run. wsimpl.
  rewrite read_int_run. wsimpl. rewrite Hid.
  unfold find_category_index_by_id, find_category_by_id. wsimpl.
  destruct (Z.ltb_spec (find_index (fun c => c_id c =? id) (cat_data (cats w)) 0) 0);
    [lia|].
  wsimpl. split.
  - intros (t & Ht & Htid).
    assert (Hused : existsb (fun t => t_category_id t =? id) (txn_data (txns w)) = true).
    { apply existsb_exists. exists t. split; [now apply list_elem_of_In|lia]. }
    rewrite Hused. wsimpl. unfold stores. wsimpl. split; [reflexivity|].
    exists (categories_listing (cat_data (cats w))
            ++ ["Enter category id to remove: "])%list.
    now rewrite <- !List.app_assoc.
  - intros Hfree.
    assert (Hused : existsb (fun t => t_category_id t =? id) (txn_data (txns w)) = false).
    { apply not_true_is_false. intros E. apply existsb_exists in E.
      destruct E as (t & Ht & Htid). apply (Hfree t); [now apply list_elem_of_In|lia]. }
    rewrite Hused. wsimpl.
    set (idx := Z.to_nat (find_index (fun c => c_id c =? id) (cat_data (cats w)) 0)) in *.
    pose proof (swap_remove_delete idx _ _ Hx) as Hperm.
    pose proof (delete_Permutation _ _ _ Hx) as Hdel.
    assert (Hnot : id ∉ map c_id (swap_remove idx (cat_data (cats w)))).
    { rewrite Hperm. unfold unique_ids in Huniq.
      rewrite Hdel in Huniq. simpl in Huniq. rewrite Hpx in Huniq.
      now inversion_clear Huniq. }
    assert (Hex' : existsb (fun c => c_id c =? id)
                     (swap_remove idx (cat_data (cats w))) = false).
    { apply not_true_is_false. now rewrite existsb_category_id. }
    split; [exact Hex'|]. split; [apply find_index_none; [lia|exact Hex']|].
    split.
    { intros c. rewrite Hperm. rewrite (Hdel) at 2. rewrite elem_of_cons.
      split.
      - intros Hc. split; [now right|].
        intros Hcid. apply Hnot. rewrite Hperm.
        apply list_elem_of_fmap. eauto.
      - intros [[->|Hc] Hcid]; [congruence|assumption]. }
    split; [reflexivity|]. split; [reflexivity|].
    exists (categories_listing (cat_data (cats w))
            ++ ["Enter category id to remove: "])%list.
    now rewrite <- !List.app_assoc.
Qed.

(** An unreferenced category among two is removed. *)
Lemma remove_category_integrity_witness :
  let w := world_of [lunch] [Food; Rent] [] ("2" ++ nl) in
  fst (input_int (stdin w)) = 2 /\
  unique_ids (cat_data (cats w)) /\
  (exists c, c ∈ cat_data (cats w) /\ c_id c = 2) /\
  find_category_by_id 2 (exec remove_category w) = false.
Proof.
  intros w.
  assert (H1 : fst (input_int (stdin w)) = 2) by reflexivity.
  assert (H2 : unique_ids (cat_data (cats w))).
  { unfold unique_ids. simpl. apply NoDup_cons_2;
      [intros Hin; apply list_elem_of_singleton in Hin; discriminate|].
    apply NoDup_singleton. }
  assert (H3 : exists c, c ∈ cat_data (cats w) /\ c_id c = 2).
  { exists Rent. split; [|reflexivity]. simpl. right. left. }
  split; [exact H1|]. split; [exact H2|]. split; [exact H3|].
  apply (remove_category_integrity w 2 H1 H2 H3).
  intros t Ht. simpl in Ht. apply list_elem_of_singleton in Ht. subst t.
  simpl. lia.
Defined.

(** ** Budgets *)

Lemma amount_ltb_leb (a b : Qc) : amount_ltb a b = negb (amount_leb b a).
Proof. reflexivity. Qed.

Ltac leaf :=
  wsimpl; rewrite <- ?List.app_assoc;
  eexists _, _, _; split; [reflexivity|try discriminate; try reflexivity].



Lemma with_budget_amount_key (a : Qc) (b : BudgetEntry) :
  budget_key (with_budget_amount a b) = budget_key b.
Proof. reflexivity. Qed.


Lemma alter_lookup_insert {A} (f : A -> A) (i : nat) (l : list A) (x : A) :
  l !! i = Some x -> alter f i l = <[i := f x]> l.
Proof.
  revert i. induction l as [|y l IH]; intros [|i] H; simpl in *;
    try discriminate.
  - now injection H as ->.
  - f_equal. now apply IH.
Qed.








Lemma amount_leb_le (a b : Qc) : amount_leb a b = true <-> (a <= b)%Qc.
Proof. unfold amount_leb, Qcle. apply Qle_bool_iff. Qed.



(** ** Persistence *)

Lemma obfuscate_buffer_involutive (w : World) (buf : list Z) :
  obfuscate_buffer w (obfuscate_buffer w buf) = buf.
Proof.
  unfold obfuscate_buffer.
  destruct (negb (obfuscate_enabled w) || (obf_key w =? 0)); [reflexivity|].
  rewrite map_map. rewrite <- (map_id buf) at 2.
  apply map_ext. intros b.
  now rewrite Z.lxor_assoc, Z.lxor_nilpotent, Z.lxor_0_r.
Qed.

Lemma obfuscate_buffer_length (w : World) (buf : list Z) :
  length (obfuscate_buffer w buf) = length buf.
Proof.
  unfold obfuscate_buffer.
  destruct (negb (obfuscate_enabled w) || (obf_key w =? 0));
    [reflexivity|apply length_map].
Qed.

Lemma obfuscate_buffer_flags (w w' : World) (buf : list Z) :
  obfuscate_enabled w' = obfuscate_enabled w -> obf_key w' = obf_key w ->
  obfuscate_buffer w' buf = obfuscate_buffer w buf.
Proof. unfold obfuscate_buffer. now intros -> ->. Qed.

Section Records.
Context {A : Type} `{LA : Layout A}.

Lemma bytes_of_records_length (l : list A) :
  length (bytes_of_records l) = (length l * sizeof)%nat.
Proof.
  unfold bytes_of_records. induction l as [|a l IH]; simpl; [reflexivity|].
  now rewrite length_app, to_bytes_length, IH.
Qed.

Lemma records_of_bytes_length (n : nat) (bs : list Z) :
  length (records_of_bytes (A := A) n bs) = n.
Proof. revert bs. induction n as [|n IH]; intros bs; simpl; [|rewrite IH]; reflexivity. Qed.

Lemma records_of_bytes_take (n k : nat) (bs : list Z) :
  records_of_bytes (A := A) (Nat.min n k) bs = take n (records_of_bytes k bs).
Proof.
  revert k bs. induction n as [|n IH]; intros [|k] bs; simpl; try reflexivity.
  now rewrite IH.
Qed.

(** Decoding the bytes of valid records gives the records back, whatever
    follows them in the buffer. *)
Lemma records_of_bytes_of_records (l : list A) (rest : list Z) :
  Forall valid l ->
  records_of_bytes (length l) (bytes_of_records l ++ rest) = l.
Proof.
  unfold bytes_of_records. induction 1 as [|a l Ha Hl IH]; simpl; [reflexivity|].
  rewrite <- List.app_assoc.
  rewrite take_app_length' by (symmetry; apply to_bytes_length).
  rewrite drop_app_length' by (symmetry; apply to_bytes_length).
  now rewrite (of_to_bytes a Ha), IH.
Qed.

Lemma records_roundtrip (w : World) (l : list A) :
  Forall valid l ->
  let content := obfuscate_buffer w (bytes_of_records l) in
  records_of_bytes (length content / sizeof) (obfuscate_buffer w content) = l.
Proof.
  intros Hl content. subst content.
  rewrite obfuscate_buffer_involutive, obfuscate_buffer_length,
    bytes_of_records_length.
  rewrite Nat.div_mul by (pose proof (sizeof_pos (A := A)); lia).
  rewrite <- (List.app_nil_r (bytes_of_records l)).
  now apply records_of_bytes_of_records.
Qed.

End Records.

Section LoadSave.
Context `{LC : Layout Category} `{LT : Layout Transaction} `{LB : Layout BudgetEntry}.

Lemma load_binary_file_records {A} `{LA : Layout A} (path : string)
    (max_count : nat) (w : World) :
  load_binary_file (A := A) path max_count w
  = take max_count (file_records path w).
Proof.
  unfold load_binary_file, file_records.
  destruct (files w !! path) as [content|]; [|now rewrite take_nil].
  destruct (Z.leb_spec (Z.of_nat (length content)) 0) as [H|H].
  - assert (E : length content = 0%nat) by lia. rewrite E.
    rewrite Nat.Div0.div_0_l. simpl. now rewrite take_nil.
  - rewrite obfuscate_buffer_length, <- records_of_bytes_take.
    destruct (Nat.ltb_spec max_count (length content / sizeof)).
    + now rewrite Nat.min_l by lia.
    + now rewrite Nat.min_r by lia.
Qed.

Ltac same_files w :=
  repeat match goal with
  | |- context [@file_records ?A ?L ?p (mkWorld ?a ?b ?c ?d ?e ?f ?g ?h ?i)] =>
      change (@file_records A L p (mkWorld a b c d e f g h i))
        with (@file_records A L p w)
  end.

(** The stores after [load_all]: a store whose file gives no record is
    left as it was. *)
Lemma load_all_run (w : World) :
  let cs := take 1024 (file_records (A := Category) CAT_FILE w) in
  let ts := file_records (A := Transaction) TRAN_FILE w in
  let bs := take 1024 (file_records (A := BudgetEntry) BUD_FILE w) in
  exec load_all w
  = mkWorld
      (match files w !! TRAN_FILE with
       | Some content =>
           if 0 <? Z.of_nat (length content)
           then mkTxnStore ts (Z.of_nat (length ts)) (max_id t_id ts + 1)
           else txns w
       | None => txns w
       end)
      (if (length cs =? 0)%nat then cats w
       else mkCatStore cs (Z.of_nat (length cs)) (max_id c_id cs + 1))
      (if (length bs =? 0)%nat then budgets w
       else mkBudgetStore bs (Z.of_nat (length bs)))
      (obfuscate_enabled w) (obf_key w) (stdin w) (stdout w)
      (localtime w) (files w).
Proof.
  intros cs ts bs. unfold exec, load_all. mrun.
  rewrite !load_binary_file_records. fold cs.
  assert (Hts : Z.of_nat (length ts)
                = match files w !! TRAN_FILE with
                  | Some content => Z.of_nat (length content / sizeof (A := Transaction))
                  | None => 0
                  end).
  { subst ts. unfold file_records. destruct (files w !! TRAN_FILE); [|reflexivity].
    now rewrite records_of_bytes_length. }
  unfold file_records in ts.
  destruct (length cs =? 0)%nat; wsimpl;
    (destruct (files w !! TRAN_FILE) as [content|] eqn:Ef; wsimpl;
     [destruct (0 <? Z.of_nat (length content)); wsimpl|]);
    rewrite ?load_binary_file_records; same_files w; fold bs;
    destruct (length bs =? 0)%nat; wsimpl;
    rewrite ?Hts, ?world_eta; reflexivity.
Qed.

(** The stores after [load_all] at the start of the program. *)
Lemma load_all_fresh_stores (w : World) :
  let w' := exec load_all (fresh w) in
  cat_data (cats w') = take 1024 (file_records CAT_FILE w) /\
  bud_data (budgets w') = take 1024 (file_records BUD_FILE w) /\
  txn_data (txns w') = file_records TRAN_FILE w /\
  stdout w' = stdout w.
Proof.
  intros w'. subst w'. rewrite load_all_run.
  change (file_records CAT_FILE (fresh w)) with (file_records (A := Category) CAT_FILE w).
  change (file_records BUD_FILE (fresh w)) with (file_records (A := BudgetEntry) BUD_FILE w).
  change (file_records TRAN_FILE (fresh w)) with (file_records (A := Transaction) TRAN_FILE w).
  change (files (fresh w)) with (files w).
  change (cats (fresh w)) with init_cats.
  change (txns (fresh w)) with init_txns.
  change (budgets (fresh w)) with init_budgets.
  wsimpl.
  set (cs := take 1024 (file_records (A := Category) CAT_FILE w)).
  set (bs := take 1024 (file_records (A := BudgetEntry) BUD_FILE w)).
  assert (Hcs : cat_data (if (length cs =? 0)%nat then init_cats
                          else mkCatStore cs (Z.of_nat (length cs)) (max_id c_id cs + 1))
                = cs).
  { destruct (Nat.eqb_spec (length cs) 0) as [E|E]; [|reflexivity].
    apply nil_length_inv in E. now rewrite E. }
  assert (Hbs : bud_data (if (length bs =? 0)%nat then init_budgets
                          else mkBudgetStore bs (Z.of_nat (length bs)))
                = bs).
  { destruct (Nat.eqb_spec (length bs) 0) as [E|E]; [|reflexivity].
    apply nil_length_inv in E. now rewrite E. }
  assert (Hts : txn_data
                  match files w !! TRAN_FILE with
                  | Some content =>
                      if 0 <? Z.of_nat (length content)
                      then mkTxnStore (file_records TRAN_FILE w)
                             (Z.of_nat (length (file_records (A := Transaction) TRAN_FILE w)))
                             (max_id t_id (file_records TRAN_FILE w) + 1)
                      else init_txns
                  | None => init_txns
                  end
                = file_records TRAN_FILE w).
  { unfold file_records. destruct (files w !! TRAN_FILE) as [content|]; [|reflexivity].
    destruct (Z.ltb_spec 0 (Z.of_nat (length content))); [reflexivity|].
    assert (E : length content = 0%nat) by lia.
    now rewrite E, Nat.Div0.div_0_l. }
  rewrite Hcs, Hbs, Hts. repeat split.
Qed.

(** C10. After [load_all] at the start of the program the category store
    and the budget store hold at most 1024 records: the first 1024 whole
    records of their files, the whole records after them being dropped
    without a message; the transaction store holds every whole record of
    its file, as many as the size of the file gives. *)
Theorem load_all_caps (w : World) :
  let w' := exec load_all (fresh w) in
  (length (cat_data (cats w')) <= 1024)%nat /\
  (length (bud_data (budgets w')) <= 1024)%nat /\
  cat_data (cats w') = take 1024 (file_records CAT_FILE w) /\
  bud_data (budgets w') = take 1024 (file_records BUD_FILE w) /\
  txn_data (txns w') = file_records TRAN_FILE w /\
  length (txn_data (txns w'))
    = match files w !! TRAN_FILE with
      | Some content => (length content / sizeof (A := Transaction))%nat
      | None => 0%nat
      end /\
  stdout w' = stdout w.
Proof.
  intros w'.
  destruct (load_all_fresh_stores w) as (Hc & Hb & Ht & Ho).
  fold w' in Hc, Hb, Ht, Ho.
  rewrite Hc, Hb, Ht, !length_take.
  split; [lia|]. split; [lia|].
  repeat (split; [reflexivity|]).
  split; [|exact Ho].
  unfold file_records. destruct (files w !! TRAN_FILE) as [content|];
    [apply records_of_bytes_length|reflexivity].
Qed.

Lemma save_all_run (w : World) :
  exec save_all w = set_files w (saved_files w).
Proof.
  unfold exec, save_all, saved_files, save_binary_file. mrun.
  destruct (length (cat_data (cats w)) =? 0)%nat; wsimpl;
    destruct (length (txn_data (txns w)) =? 0)%nat; wsimpl;
    destruct (length (bud_data (budgets w)) =? 0)%nat; wsimpl;
    rewrite ?world_eta; reflexivity.
Qed.

Lemma saved_file_lookup (w : World) :
  saved_files w !! CAT_FILE
    = (if (length (cat_data (cats w)) =? 0)%nat then files w !! CAT_FILE
       else Some (obfuscate_buffer w (bytes_of_records (cat_data (cats w))))) /\
  saved_files w !! TRAN_FILE
    = (if (length (txn_data (txns w)) =? 0)%nat then files w !! TRAN_FILE
       else Some (obfuscate_buffer w (bytes_of_records (txn_data (txns w))))) /\
  saved_files w !! BUD_FILE
    = (if (length (bud_data (budgets w)) =? 0)%nat then files w !! BUD_FILE
       else Some (obfuscate_buffer w (bytes_of_records (bud_data (budgets w))))).
Proof.
  unfold saved_files.
  destruct (length (cat_data (cats w)) =? 0)%nat;
    destruct (length (txn_data (txns w)) =? 0)%nat;
    destruct (length (bud_data (budgets w)) =? 0)%nat;
    repeat split;
    rewrite ?lookup_insert_eq;
    repeat (rewrite lookup_insert_ne by discriminate; rewrite ?lookup_insert_eq);
    reflexivity.
Qed.

(** The records read back from a file that holds the saved records of a
    store, or from no file when the store is empty. *)
Lemma file_records_saved {A} `{LA : Layout A} (path : string) (l : list A)
    (w w1 : World) :
  Forall valid l ->
  obfuscate_enabled w1 = obfuscate_enabled w -> obf_key w1 = obf_key w ->
  files w1 !! path
    = (if (length l =? 0)%nat then None
       else Some (obfuscate_buffer w (bytes_of_records l))) ->
  file_records path w1 = l.
Proof.
  intros Hl He Hk Hf. unfold file_records. rewrite Hf.
  destruct (Nat.eqb_spec (length l) 0) as [E|E].
  - apply nil_length_inv in E. now subst l.
  - rewrite (obfuscate_buffer_flags w w1) by assumption.
    now apply records_roundtrip.
Qed.

(** C2 (amended). For stores of valid records with at most 1024 categories
    and at most 1024 budgets, under any obfuscation setting kept from the
    save to the load, and when no file remains from earlier for a store
    that is empty, saving all stores and loading them at a start of the
    program gives every record back as it was. *)
Theorem save_load_roundtrip (w : World) :
  Forall valid (cat_data (cats w)) ->
  Forall valid (txn_data (txns w)) ->
  Forall valid (bud_data (budgets w)) ->
  (length (cat_data (cats w)) <= 1024)%nat ->
  (length (bud_data (budgets w)) <= 1024)%nat ->
  (cat_data (cats w) = [] -> files w !! CAT_FILE = None) ->
  (txn_data (txns w) = [] -> files w !! TRAN_FILE = None) ->
  (bud_data (budgets w) = [] -> files w !! BUD_FILE = None) ->
  let w' := exec load_all (fresh (exec save_all w)) in
  cat_data (cats w') = cat_data (cats w) /\
  txn_data (txns w') = txn_data (txns w) /\
  bud_data (budgets w') = bud_data (budgets w).
Proof.
  intros Vc Vt Vb Nc Nb Fc Ft Fb w'.
  destruct (load_all_fresh_stores (exec save_all w)) as (Hc & Hb & Ht & _).
  fold w' in Hc, Hb, Ht. rewrite Hc, Hb, Ht. clear Hc Hb Ht w'.
  rewrite save_all_run.
  destruct (saved_file_lookup w) as (Lc & Lt & Lb).
  rewrite (file_records_saved CAT_FILE (cat_data (cats w)) w);
    [|assumption|reflexivity|reflexivity|].
  2:{ wsimpl. rewrite Lc.
      destruct (Nat.eqb_spec (length (cat_data (cats w))) 0) as [E|E]; [|reflexivity].
      apply nil_length_inv in E. auto. }
  rewrite (file_records_saved TRAN_FILE (txn_data (txns w)) w);
    [|assumption|reflexivity|reflexivity|].
  2:{ wsimpl. rewrite Lt.
      destruct (Nat.eqb_spec (length (txn_data (txns w))) 0) as [E|E]; [|reflexivity].
      apply nil_length_inv in E. auto. }
  rewrite (file_records_saved BUD_FILE (bud_data (budgets w)) w);
    [|assumption|reflexivity|reflexivity|].
  2:{ wsimpl. rewrite Lb.
      destruct (Nat.eqb_spec (length (bud_data (budgets w))) 0) as [E|E]; [|reflexivity].
      apply nil_length_inv in E. auto. }
  rewrite !take_ge by lia. repeat split.
Qed.

End LoadSave.

(** ** The x86-64 layouts *)

Lemma le_bytes_length (n : nat) (z : Z) : length (ABI.le_bytes n z) = n.
Proof. revert z. induction n as [|n IH]; intros z; simpl; [|rewrite IH]; reflexivity. Qed.

Lemma le_value_le_bytes (n : nat) (z : Z) :
  ABI.le_value (ABI.le_bytes n z) = z mod 256 ^ Z.of_nat n.
Proof.
  revert z. induction n as [|n IH]; intros z.
  - simpl. now rewrite Z.mod_1_r.
  - cbn [ABI.le_bytes ABI.le_value]. rewrite IH.
    rewrite Nat2Z.inj_succ, Z.pow_succ_r by lia.
    rewrite Z.rem_mul_r by lia. reflexivity.
Qed.

Lemma int_roundtrip (z : Z) : ABI.int32 z -> ABI.int_value (ABI.int_bytes z) = z.
Proof.
  unfold ABI.int32, ABI.int_value, ABI.int_bytes. intros H.
  rewrite le_value_le_bytes.
  change (256 ^ Z.of_nat 4) with (2 ^ 32).
  destruct (Z.ltb_spec (z mod 2 ^ 32) (2 ^ 31)) as [L|L].
  - destruct (Z_lt_le_dec z 0) as [N|N].
    + rewrite <- (Z.mod_add z 1) in L by lia.
      rewrite Z.mod_small in L by lia. lia.
    + apply Z.mod_small. lia.
  - destruct (Z_lt_le_dec z 0) as [N|N].
    + rewrite <- (Z.mod_add z 1) by lia.
      rewrite Z.mod_small by lia. lia.
    + rewrite Z.mod_small in L by lia. lia.
Qed.

Lemma bytes_of_string_length (s : string) :
  length (bytes_of_string s) = String.length s.
Proof.
  unfold bytes_of_string. rewrite length_map.
  induction s as [|c s IH]; simpl; [reflexivity|now rewrite IH].
Qed.

Lemma char_array_length (n : nat) (s : string) :
  length (ABI.char_array n s) = n.
Proof.
  unfold ABI.char_array.
  rewrite length_take, length_app, length_replicate. lia.
Qed.

Lemma chr_code (c : ascii) : chr (code c) = c.
Proof. unfold chr, code. now rewrite N2Z.id, ascii_N_embedding. Qed.

Lemma code_zero (c : ascii) : code c = 0 -> c = zero.
Proof.
  intros H. rewrite <- (chr_code c), H. reflexivity.
Qed.

Lemma cstring_char_array (n : nat) (s : string) :
  ABI.fits n s -> ABI.cstring (ABI.char_array n s) = s.
Proof.
  unfold ABI.fits, ABI.char_array. intros [Hlen Hnz].
  rewrite take_app_ge by (rewrite bytes_of_string_length; lia).
  rewrite bytes_of_string_length, take_replicate.
  replace (Nat.min (n - String.length s) n) with (S (n - String.length s - 1)) by lia.
  clear Hlen. unfold bytes_of_string.
  generalize (n - String.length s - 1)%nat. intros k.
  induction s as [|c s IH]; simpl in *; [reflexivity|].
  inversion_clear Hnz as [|? ? Hc Hs].
  destruct (Z.eqb_spec (code c) 0) as [E|E]; [now apply code_zero in E|].
  rewrite chr_code. f_equal. now apply IH.
Qed.

Lemma slice_at (l a b c : list Z) (off len : nat) :
  l = (a ++ b ++ c)%list -> length a = off -> length b = len ->
  ABI.slice off len l = b.
Proof.
  intros -> <- <-. unfold ABI.slice.
  now rewrite drop_app_length, take_app_length.
Qed.

Lemma category_roundtrip (c : Category) :
  ABI.category_valid c -> ABI.category_of_bytes (ABI.category_bytes c) = c.
Proof.
  intros [Hid Hname]. destruct c as [id name]. simpl in *.
  unfold ABI.category_of_bytes, ABI.category_bytes. cbn [c_id c_name].
  rewrite (slice_at _ [] (ABI.int_bytes id) (ABI.char_array 64 name));
    [|reflexivity|reflexivity|apply le_bytes_length].
  rewrite (slice_at _ (ABI.int_bytes id) (ABI.char_array 64 name) []);
    [|now rewrite List.app_nil_r|apply le_bytes_length|apply char_array_length].
  now rewrite int_roundtrip, cstring_char_array.
Qed.

Lemma category_bytes_length (c : Category) :
  length (ABI.category_bytes c) = 68%nat.
Proof.
  unfold ABI.category_bytes, ABI.int_bytes.
  now rewrite length_app, le_bytes_length, char_array_length.
Qed.

Lemma transaction_bytes_length (t : Transaction) :
  length (ABI.transaction_bytes t) = 288%nat.
Proof.
  unfold ABI.transaction_bytes, ABI.int_bytes, ABI.double_bytes.
  now rewrite !length_app, !le_bytes_length, !char_array_length.
Qed.

Lemma budget_bytes_length (b : BudgetEntry) :
  length (ABI.budget_bytes b) = 24%nat.
Proof.
  unfold ABI.budget_bytes, ABI.int_bytes, ABI.double_bytes.
  now rewrite !length_app, !le_bytes_length.
Qed.

Lemma transaction_roundtrip (t : Transaction) :
  ABI.transaction_valid t -> ABI.transaction_of_bytes (ABI.transaction_bytes t) = t.
Proof.
  intros (Hid & Hdate & Hamt & Hcid & Htype & Hnote).
  destruct t as [id date amount cid type note]. simpl in *.
  unfold ABI.transaction_of_bytes, ABI.transaction_bytes.
  cbn [t_id t_date t_amount t_category_id t_type t_note].
  set (f1 := ABI.int_bytes id). set (f2 := ABI.char_array 11 date).
  set (f3 := ABI.double_bytes amount). set (f4 := ABI.int_bytes cid).
  set (f5 := ABI.int_bytes type).
  set (f6 := ABI.char_array 256 note).
  assert (L1 : length f1 = 4%nat) by apply le_bytes_length.
  assert (L2 : length f2 = 11%nat) by apply char_array_length.
  assert (L3 : length f3 = 8%nat) by apply le_bytes_length.
  assert (L4 : length f4 = 4%nat) by apply le_bytes_length.
  assert (L5 : length f5 = 4%nat) by apply le_bytes_length.
  assert (L6 : length f6 = 256%nat) by apply char_array_length.
  rewrite (slice_at _ [] f1 (f2 ++ [0] ++ f3 ++ f4 ++ f5 ++ f6) 0 4);
    [|reflexivity|reflexivity|assumption].
  rewrite (slice_at _ f1 f2 ([0] ++ f3 ++ f4 ++ f5 ++ f6) 4 11);
    [|reflexivity|assumption|assumption].
  rewrite (slice_at _ (f1 ++ f2 ++ [0]) f3 (f4 ++ f5 ++ f6) 16 8);
    [|now rewrite <- !List.app_assoc
     |rewrite !length_app, L1, L2; reflexivity|assumption].
  rewrite (slice_at _ (f1 ++ f2 ++ [0] ++ f3) f4 (f5 ++ f6) 24 4);
    [|now rewrite <- !List.app_assoc
     |rewrite !length_app, L1, L2, L3; reflexivity|assumption].
  rewrite (slice_at _ (f1 ++ f2 ++ [0] ++ f3 ++ f4) f5 f6 28 4);
    [|now rewrite <- !List.app_assoc
     |rewrite !length_app, L1, L2, L3, L4; reflexivity|assumption].
  rewrite (slice_at _ (f1 ++ f2 ++ [0] ++ f3 ++ f4 ++ f5) f6 [] 32 256);
    [|now rewrite <- !List.app_assoc, List.app_nil_r
     |rewrite !length_app, L1, L2, L3, L4, L5; reflexivity|assumption].
  subst f1 f2 f3 f4 f5 f6.
  rewrite !int_roundtrip, !cstring_char_array by assumption.
  f_equal. exact Hamt.
Qed.

Lemma budget_roundtrip (b : BudgetEntry) :
  ABI.budget_valid b -> ABI.budget_of_bytes (ABI.budget_bytes b) = b.
Proof.
  intros (Hc & Hy & Hm & Hamt).
  destruct b as [cid year month amount]. simpl in *.
  unfold ABI.budget_of_bytes, ABI.budget_bytes.
  cbn [b_category_id b_year b_month b_amount].
  set (f1 := ABI.int_bytes cid). set (f2 := ABI.int_bytes year).
  set (f3 := ABI.int_bytes month). set (f4 := ABI.double_bytes amount).
  assert (L1 : length f1 = 4%nat) by apply le_bytes_length.
  assert (L2 : length f2 = 4%nat) by apply le_bytes_length.
  assert (L3 : length f3 = 4%nat) by apply le_bytes_length.
  assert (L4 : length f4 = 8%nat) by apply le_bytes_length.
  rewrite (slice_at _ [] f1 (f2 ++ f3 ++ [0; 0; 0; 0] ++ f4) 0 4);
    [|reflexivity|reflexivity|assumption].
  rewrite (slice_at _ f1 f2 (f3 ++ [0; 0; 0; 0] ++ f4) 4 4);
    [|reflexivity|assumption|assumption].
  rewrite (slice_at _ (f1 ++ f2) f3 ([0; 0; 0; 0] ++ f4) 8 4);
    [|now rewrite <- !List.app_assoc
     |rewrite !length_app, L1, L2; reflexivity|assumption].
  rewrite (slice_at _ (f1 ++ f2 ++ f3 ++ [0; 0; 0; 0]) f4 [] 16 8);
    [|now rewrite <- !List.app_assoc, List.app_nil_r
     |rewrite !length_app, L1, L2, L3; reflexivity|assumption].
  subst f1 f2 f3 f4.
  rewrite !int_roundtrip by assumption.
  f_equal. exact Hamt.
Qed.

#[export] Instance category_layout : Layout Category := {|
  sizeof := 68;
  to_bytes := ABI.category_bytes;
  of_bytes := ABI.category_of_bytes;
  valid := ABI.category_valid;
  sizeof_pos := Nat.lt_0_succ 67;
  to_bytes_length := category_bytes_length;
  of_to_bytes := category_roundtrip
|}.

#[export] Instance transaction_layout : Layout Transaction := {|
  sizeof := 288;
  to_bytes := ABI.transaction_bytes;
  of_bytes := ABI.transaction_of_bytes;
  valid := ABI.transaction_valid;
  sizeof_pos := Nat.lt_0_succ 287;
  to_bytes_length := transaction_bytes_length;
  of_to_bytes := transaction_roundtrip
|}.

#[export] Instance budget_layout : Layout BudgetEntry := {|
  sizeof := 24;
  to_bytes := ABI.budget_bytes;
  of_bytes := ABI.budget_of_bytes;
  valid := ABI.budget_valid;
  sizeof_pos := Nat.lt_0_succ 23;
  to_bytes_length := budget_bytes_length;
  of_to_bytes := budget_roundtrip
|}.

(** ** Round trips through the files *)

Lemma fits_short (n : nat) (s : string) :
  (String.length s <? n)%nat
  && forallb (fun c => negb (Ascii.eqb c zero)) (list_ascii_of_string s) = true ->
  ABI.fits n s.
Proof.
  intros H. apply andb_prop in H as [H1 H2]. split.
  - now apply Nat.ltb_lt.
  - apply Forall_forall. intros c Hc. rewrite forallb_forall in H2.
    apply H2 in Hc.
    now apply negb_true_iff, Ascii.eqb_neq in Hc.
Qed.

Lemma numbered_categories_valid (n : nat) :
  Z.of_nat n < 2 ^ 31 -> Forall valid (numbered_categories n).
Proof.
  intros Hn. apply Forall_forall. intros c Hc.
  apply list_elem_of_In, list_elem_of_fmap in Hc as (i & -> & Hi).
  apply elem_of_seqZ in Hi. split.
  - unfold ABI.int32. simpl. lia.
  - apply fits_short. reflexivity.
Qed.

(** The store of 1025 categories of [numbered_categories] comes back from
    the files with 1024 categories. *)
Lemma save_load_drops_category :
  let w := world_of [] (numbered_categories 1025) [] "" in
  Forall valid (cat_data (cats w)) /\
  cat_data (cats (exec load_all (fresh (exec save_all w)))) <> cat_data (cats w).
Proof.
  intros w. split.
  - apply (numbered_categories_valid 1025). lia.
  - assert (L : Nat.eqb
                  (length (cat_data (cats (exec load_all (fresh (exec save_all w))))))
                  (length (cat_data (cats w))) = false)
      by (vm_compute; reflexivity).
    intros E. rewrite E, Nat.eqb_refl in L. discriminate L.
Qed.

(** A store that is empty leaves the file of an earlier save in place, and
    the next start loads it. *)
Lemma save_all_keeps_stale_file :
  let w0 := world_of [] [Food] [] "" in
  let w := set_cats (exec save_all w0) init_cats in
  cat_data (cats w) = [] /\
  cat_data (cats (exec load_all (fresh (exec save_all w)))) = [Food].
Proof. split; vm_compute; reflexivity. Qed.

(** One record in each store, saved and loaded under the key 90. *)
Lemma save_load_roundtrip_witness :
  let w := obfuscated_world in
  Forall valid (cat_data (cats w)) /\
  Forall valid (txn_data (txns w)) /\
  Forall valid (bud_data (budgets w)) /\
  (length (cat_data (cats w)) <= 1024)%nat /\
  (length (bud_data (budgets w)) <= 1024)%nat /\
  (cat_data (cats w) = [] -> files w !! CAT_FILE = None) /\
  (txn_data (txns w) = [] -> files w !! TRAN_FILE = None) /\
  (bud_data (budgets w) = [] -> files w !! BUD_FILE = None) /\
  let w' := exec load_all (fresh (exec save_all w)) in
  cat_data (cats w') = [Food] /\
  txn_data (txns w') = [lunch] /\
  bud_data (budgets w') = [march_budget].
Proof.
  intros w.
  assert (Vc : Forall valid (cat_data (cats w))).
  { constructor; [|constructor]. simpl.
    split; [unfold ABI.int32; simpl; lia|apply fits_short; reflexivity]. }
  assert (Vt : Forall valid (txn_data (txns w))).
  { constructor; [|constructor]. simpl.
    split; [unfold ABI.int32; simpl; lia|].
    split; [apply fits_short; reflexivity|].
    split; [apply Qc_is_canon; reflexivity|].
    split; [unfold ABI.int32; simpl; lia|].
    split; [now vm_compute|apply fits_short; reflexivity]. }
  assert (Vb : Forall valid (bud_data (budgets w))).
  { constructor; [|constructor]. simpl.
    repeat (split; [unfold ABI.int32; simpl; lia|]).
    apply Qc_is_canon. reflexivity. }
  assert (Nc : (length (cat_data (cats w)) <= 1024)%nat) by (simpl; lia).
  assert (Nb : (length (bud_data (budgets w)) <= 1024)%nat) by (simpl; lia).
  assert (Fc : cat_data (cats w) = [] -> files w !! CAT_FILE = None) by reflexivity.
  assert (Ft : txn_data (txns w) = [] -> files w !! TRAN_FILE = None) by reflexivity.
  assert (Fb : bud_data (budgets w) = [] -> files w !! BUD_FILE = None) by reflexivity.
  repeat (split; [assumption|]).
  exact (save_load_roundtrip w Vc Vt Vb Nc Nb Fc Ft Fb).
Defined.

(** ** The CSV transcoder *)

(** C3. The store of the scenario exports to the line
    [1,2024-03-15,0,42.50,Food,lunch] under the header; importing that file
    into empty stores takes the id column for the date, reports an invalid
    date on line 2 and creates no category and no transaction. *)
Theorem export_then_import_scenario :
  let w1 := exec (export_csv "out.csv") (food_world "") in
  string_of_bytes <$> files w1 !! "out.csv"
    = Some (csv_header ++ "1,2024-03-15,0,42.50,Food,lunch" ++ nl) /\
  let w2 := exec (import_csv "out.csv") (fresh w1) in
  cat_data (cats w2) = [] /\ txn_data (txns w2) = [] /\
  stdout w2 = (stdout w1 ++ [("Skipping invalid date on line 2" ++ nl)%string;
                              ("Import complete." ++ nl)%string])%list.
Proof. vm_compute. repeat split. Qed.

(** The same record in the five columns that the importer reads is
    imported as the scenario expects. *)
Lemma import_five_columns :
  let w := mkWorld init_txns init_cats init_budgets false 0 "" [] sample_tm
             {["in.csv" := csv_file ["2024-03-15,0,42.50,Food,lunch"]]} in
  let w' := exec (import_csv "in.csv") w in
  cat_data (cats w') = [Food] /\ txn_data (txns w') = [lunch].
Proof.
  split; [vm_compute; reflexivity|].
  unfold lunch. vm_compute.
  first [reflexivity | do 2 f_equal; apply Qc_is_canon; reflexivity].
Qed.

(** C8. A CSV line with the amount -5 is imported as a transaction whose
    amount is -5: the import path does not compare the amount with zero. *)
Theorem import_csv_negative_amount :
  let w := mkWorld init_txns (mkCatStore [Food] 8 2) init_budgets false 0 ""
             [] sample_tm
             {["in.csv" := csv_file ["2024-03-15,0,-5,Food,lunch"]]} in
  let w' := exec (import_csv "in.csv") w in
  txn_data (txns w')
    = [mkTransaction 1 "2024-03-15" (Q2Qc (-5 # 1)) 1 TYPE_EXPENSE "lunch"] /\
  Forall (fun t => amount_leb (t_amount t) (Q2Qc 0) = true) (txn_data (txns w')).
Proof.
  split; [vm_compute; reflexivity|].
  repeat constructor.
Qed.

(** ** Adding and editing transactions *)

Lemma ensure_txn_capacity_run (w : World) :
  exists cap,
    ensure_txn_capacity w
    = (tt, mkWorld (mkTxnStore (txn_data (txns w)) cap (txn_next_id (txns w)))
             (cats w) (budgets w) (obfuscate_enabled w) (obf_key w)
             (stdin w) (stdout w) (localtime w) (files w)).
Proof.
  unfold ensure_txn_capacity. mrun.
  destruct (txn_cap (txns w) <? txn_size (txns w) + 1); wsimpl.
  - eexists. reflexivity.
  - exists (txn_cap (txns w)). now destruct w as [[d c n] ? ? ? ? ? ? ? ?].
Qed.

Lemma add_category_run (w : World) :
  exists out c,
    add_category w
    = (tt, mkWorld (txns w) c (budgets w) (obfuscate_enabled w) (obf_key w)
             (snd (input_line 64 (stdin w))) (stdout w ++ out)
             (localtime w) (files w)).
Proof.
  unfold add_category, ensure_cat_capacity, cat_fresh_id, push_cat. mrun.
  rewrite read_line_run. wsimpl.
  destruct (strlen (fst (input_line 64 (stdin w))) =? 0); wsimpl.
  - rewrite <- ?List.app_assoc. eexists _, _. reflexivity.
  - destruct (cat_cap (cats w) <? cat_size (cats w) + 1); wsimpl;
      rewrite <- ?List.app_assoc; eexists _, _; reflexivity.
Qed.

Ltac same_store :=
  wsimpl; rewrite <- ?List.app_assoc;
  eexists _, _, _, _, _; split; [reflexivity|left; reflexivity].

(** What [add_transaction] does to the stores whatever it reads: the
    counter of the transactions advances, and the transactions are as they
    were or have one more, valid, transaction at the end. *)
Lemma add_transaction_run (w : World) :
  exists data cap c r out,
    exec add_transaction w
    = mkWorld (mkTxnStore data cap (txn_next_id (txns w) + 1)) c (budgets w)
              (obfuscate_enabled w) (obf_key w) r (stdout w ++ out)
              (localtime w) (files w)
    /\ (data = txn_data (txns w) \/
        exists t, data = (txn_data (txns w) ++ [t])%list
                  /\ t_id t = txn_next_id (txns w)
                  /\ amount_ltb (Q2Qc 0) (t_amount t) = true
                  /\ parse_date (t_date t) = true
                  /\ existsb (fun x => c_id x =? t_category_id t) (cat_data c) = true).
Proof.
  unfold exec, add_transaction, txn_fresh_id, push_txn. mrun.
  destruct (ensure_txn_capacity_run w) as [cap ->]. wsimpl.
  rewrite read_line_run. wsimpl.
  set (line := fst (input_line 11 (stdin w))).
  set (date := if strlen line =? 0 then default_date (localtime w) else line).
  destruct (parse_date date) eqn:Hdate; wsimpl; [|same_store].
  rewrite read_int_run. wsimpl.
  rewrite read_double_run. wsimpl.
  set (amount := fst (input_double _)).
  destruct (amount_leb amount (Q2Qc 0)) eqn:Hamt; wsimpl; [same_store|].
  rewrite list_categories_run. wsimpl.
  destruct (cat_size (cats w) =? 0); wsimpl.
  - match goal with |- context [add_category ?W] =>
      destruct (add_category_run W) as (oc & c & ->) end. wsimpl.
    destruct (cat_size c =? 0); wsimpl; [same_store|].
    rewrite read_int_run. wsimpl.
    unfold find_category_by_id at 1. wsimpl.
    match goal with |- context [existsb ?f (cat_data c)] =>
      destruct (existsb f (cat_data c)) eqn:Hcat end; wsimpl; [|same_store].
    rewrite read_line_run. wsimpl. rewrite <- ?List.app_assoc.
    eexists _, _, _, _, _. split; [reflexivity|right].
    eexists. split; [reflexivity|]. cbn [t_id t_amount t_date t_category_id].
    repeat split; try assumption.
    unfold amount_ltb. unfold amount_leb in Hamt. now rewrite Hamt.
  - rewrite read_int_run. wsimpl.
    unfold find_category_by_id at 1. wsimpl.
    match goal with |- context [existsb ?f (cat_data (cats w))] =>
      destruct (existsb f (cat_data (cats w))) eqn:Hcat end; wsimpl; [|same_store].
    rewrite read_line_run. wsimpl. rewrite <- ?List.app_assoc.
    eexists _, _, _, _, _. split; [reflexivity|right].
    eexists. split; [reflexivity|]. cbn [t_id t_amount t_date t_category_id].
    repeat split; try assumption.
    unfold amount_ltb. unfold amount_leb in Hamt. now rewrite Hamt.
Qed.

(** Every call of [add_transaction] takes an id, also when it adds nothing. *)
Lemma add_transaction_takes_id (w : World) :
  txn_next_id (txns (exec add_transaction w)) = txn_next_id (txns w) + 1.
Proof.
  destruct (add_transaction_run w) as (data & cap & c & r & out & -> & _).
  reflexivity.
Qed.

(** The interactive add leaves the transactions as they were or appends one
    transaction with a valid date, an amount above zero and a category of
    the store. *)
Lemma add_transaction_appends_valid (w : World) :
  let w' := exec add_transaction w in
  txn_data (txns w') = txn_data (txns w) \/
  exists t, txn_data (txns w') = (txn_data (txns w) ++ [t])%list
            /\ (0 < t_amount t)%Qc
            /\ parse_date (t_date t) = true
            /\ find_category_by_id (t_category_id t) w' = true.
Proof.
  intros w'. subst w'.
  destruct (add_transaction_run w) as (data & cap & c & r & out & -> & H).
  unfold find_category_by_id. wsimpl.
  destruct H as [->|(t & -> & _ & Ha & Hd & Hc)]; [now left|right].
  exists t. repeat split; try assumption.
  unfold amount_ltb in Ha. apply negb_true_iff in Ha.
  apply Qclt_alt. unfold Qccompare.
  destruct (Qle_bool (this (t_amount t)) (this (Q2Qc 0))) eqn:E; [discriminate|].
  destruct (Qcompare_spec (this (Q2Qc 0)) (this (t_amount t))) as [H|H|H];
    [| reflexivity |].
  - exfalso. apply not_true_iff_false in E. apply E, Qle_bool_iff.
    rewrite H. apply Qle_refl.
  - exfalso. apply not_true_iff_false in E. apply E, Qle_bool_iff.
    now apply Qlt_le_weak.
Qed.

(** C4. An add whose date is refused leaves the transactions as they were
    but has taken an id: the counter of the store went from 2 to 3.  An add
    into an empty category store that ends on an unknown category id has
    created the category typed at the prompt. *)
Theorem add_transaction_failed_validation :
  (let w := food_world (typed ["15/03/2024"]) in
   let w' := exec add_transaction w in
   txn_data (txns w') = txn_data (txns w) /\
   cats w' = cats w /\
   txn_next_id (txns w) = 2 /\ txn_next_id (txns w') = 3 /\
   stdout w' = ["Date (YYYY-MM-DD) [default 2024-03-15]: ";
                ("Invalid date format." ++ nl)%string]) /\
  (let w := world_of [] [] [] (typed [""; "0"; "5"; "Misc"; "99"]) in
   let w' := exec add_transaction w in
   txn_data (txns w') = [] /\
   cat_data (cats w) = [] /\ cat_data (cats w') = [mkCategory 1 "Misc"] /\
   cat_next_id (cats w) = 1 /\ cat_next_id (cats w') = 2 /\
   txn_next_id (txns w) = 1 /\ txn_next_id (txns w') = 2 /\
   List.last (stdout w') "" = ("Invalid category." ++ nl)%string).
Proof. vm_compute. repeat split. Qed.

(** C9. An edit of an Income transaction in which every field is left
    blank keeps the date, the amount, the category and the note, and turns
    the type into Expense: the blank line reads as 0. *)
Theorem edit_transaction_blank_type :
  let w := world_of [lunch; refund] [Food] [] (typed ["2"; ""; ""; ""; ""; ""]) in
  let w' := exec edit_transaction w in
  t_type refund = TYPE_INCOME /\
  txn_data (txns w') = [lunch; with_type TYPE_EXPENSE refund] /\
  List.last (stdout w') "" = ("Updated." ++ nl)%string.
Proof.
  split; [reflexivity|]. split; [|vm_compute; reflexivity].
  unfold lunch, refund, with_type. vm_compute.
  repeat f_equal; apply Qc_is_canon; reflexivity.
Qed.

Lemma for_each_prints {A} (body : A -> M unit) (l : list A) (w : World) :
  (forall x w0, exists out, body x w0 = (tt, set_stdout w0 (stdout w0 ++ out))) ->
  exists out, for_each l body w = (tt, set_stdout w (stdout w ++ out)).
Proof.
  intros Hbody. revert w. induction l as [|x l IH]; intros w; simpl.
  - exists []. unfold ret, set_stdout. now rewrite List.app_nil_r, world_eta.
  - unfold bind. destruct (Hbody x w) as [o1 ->].
    destruct (IH (set_stdout w (stdout w ++ o1))) as [o2 ->].
    exists (o1 ++ o2)%list. wsimpl. now rewrite <- List.app_assoc.
Qed.

Lemma list_transactions_run (sd ed : option string) (w : World) :
  exists out,
    list_transactions sd ed w = (tt, set_stdout w (stdout w ++ out)).
Proof.
  unfold list_transactions. mrun.
  destruct (Z.of_nat (length (txn_data (txns w))) =? 0); wsimpl.
  - rewrite <- ?List.app_assoc. eexists. reflexivity.
  - match goal with |- context [for_each ?l ?b ?W] =>
      destruct (for_each_prints b l W) as [o E] end.
    + intros t w0.
      destruct (match sd with Some s => _ | None => false end).
      { exists []. unfold set_stdout. now rewrite List.app_nil_r, world_eta. }
      destruct (match ed with Some s => _ | None => false end).
      { exists []. unfold set_stdout. now rewrite List.app_nil_r, world_eta. }
      eexists. reflexivity.
    + rewrite E. wsimpl. rewrite <- ?List.app_assoc. eexists. reflexivity.
Qed.

(** An edit in which the five fields are left blank: the date, the amount,
    the category and the note are kept, and the type is set to Expense. *)
Lemma edit_transaction_blank (w : World) (id : Z) (rest : string) (t : Transaction) :
  input_int (stdin w) = (id, nl ++ nl ++ nl ++ nl ++ nl ++ rest) ->
  0 <= find_txn_index_by_id id w ->
  txn_data (txns w) !! Z.to_nat (find_txn_index_by_id id w) = Some t ->
  txn_data (txns (exec edit_transaction w))
  = <[Z.to_nat (find_txn_index_by_id id w) := with_type TYPE_EXPENSE t]>
      (txn_data (txns w)).
Proof.
  intros Hin Hidx Ht. unfold exec, edit_transaction, update_txn. mrun.
  destruct (list_transactions_run None None w) as [o ->]. wsimpl.
  rewrite read_int_run. wsimpl. rewrite Hin. wsimpl.
  unfold find_txn_index_by_id in *. wsimpl.
  destruct (Z.ltb_spec (find_index (fun t => t_id t =? id) (txn_data (txns w)) 0) 0);
    [lia|]. wsimpl.
  rewrite Ht. wsimpl.
  rewrite read_line_run. wsimpl.
  change (input_line 11 (nl ++ nl ++ nl ++ nl ++ nl ++ rest))
    with (EmptyString, nl ++ nl ++ nl ++ nl ++ rest). wsimpl.
  change (strlen "" =? 0) with true. wsimpl.
  rewrite read_int_run. wsimpl.
  change (input_int (nl ++ nl ++ nl ++ nl ++ rest)) with (0, nl ++ nl ++ nl ++ rest).
  wsimpl. change (0 =? 0) with true. wsimpl.
  rewrite read_double_run. wsimpl.
  change (input_double (nl ++ nl ++ nl ++ rest)) with (Q2Qc 0, nl ++ nl ++ rest).
  wsimpl. change (amount_ltb (Q2Qc 0) (Q2Qc 0)) with false. wsimpl.
  rewrite list_categories_run. wsimpl.
  rewrite read_int_run. wsimpl.
  change (input_int (nl ++ nl ++ rest)) with (0, nl ++ rest).
  wsimpl. change (0 =? 0) with true. wsimpl.
  rewrite read_line_run. wsimpl.
  change (input_line 256 (nl ++ rest)) with (EmptyString, rest). wsimpl.
  change (strlen "" =? 0) with true. wsimpl.
  now apply alter_lookup_insert.
Qed.

(** ** The date validator *)

Lemma isdigit_range (c : ascii) : isdigit c = true -> 48 <= code c <= 57.
Proof. unfold isdigit. intros H. apply andb_prop in H as [H1 H2]. lia. Qed.

Lemma isdigit_not_space (c : ascii) : isdigit c = true -> isspace c = false.
Proof.
  intros H. apply isdigit_range in H. unfold isspace.
  destruct (Z.eqb_spec (code c) 32); [lia|].
  destruct (Z.leb_spec (code c) 13); [lia|]. now rewrite andb_false_r.
Qed.

Lemma isdigit_not_sign (c : ascii) : isdigit c = true -> is_sign c = false.
Proof.
  intros H. apply isdigit_range in H. unfold is_sign.
  destruct (Ascii.eqb_spec c "-") as [->|_];
    [change (code "-") with 45 in H; lia|].
  destruct (Ascii.eqb_spec c "+") as [->|_];
    [change (code "+") with 43 in H; lia|].
  reflexivity.
Qed.

Lemma scan_int_2_digits (a b : ascii) (r : string) :
  isdigit a = true -> isdigit b = true ->
  scan_int 2 (String a (String b r)) = Some (10 * digit_val a + digit_val b, r).
Proof.
  intros Ha Hb. unfold scan_int. cbn [skip_space].
  rewrite (isdigit_not_space a Ha), (isdigit_not_sign a Ha), Ha.
  cbn [scan_digits andb Z.ltb Z.of_nat Z.compare Pos.of_succ_nat Pos.succ].
  rewrite Ha, Hb. apply f_equal, (f_equal (fun z => (z, r))). lia.
Qed.

Lemma scan_int_4_digits (a b c d : ascii) (r : string) :
  isdigit a = true -> isdigit b = true -> isdigit c = true -> isdigit d = true ->
  scan_int 4 (String a (String b (String c (String d r))))
  = Some (1000 * digit_val a + 100 * digit_val b + 10 * digit_val c + digit_val d, r).
Proof.
  intros Ha Hb Hc Hd. unfold scan_int. cbn [skip_space].
  rewrite (isdigit_not_space a Ha), (isdigit_not_sign a Ha), Ha.
  cbn [scan_digits andb Z.ltb Z.of_nat Z.compare Pos.of_succ_nat Pos.succ].
  rewrite Ha, Hb, Hc, Hd. apply f_equal, (f_equal (fun z => (z, r))). lia.
Qed.

(** The digits and hyphens of a date in the zero-padded form. *)
Lemma canonical_date_inv (s : string) :
  canonical_date s = true ->
  exists y1 y2 y3 y4 m1 m2 d1 d2,
    s = String y1 (String y2 (String y3 (String y4 (String "-"
          (String m1 (String m2 (String "-" (String d1 (String d2 "")))))))))
    /\ isdigit y1 = true /\ isdigit y2 = true /\ isdigit y3 = true
    /\ isdigit y4 = true /\ isdigit m1 = true /\ isdigit m2 = true
    /\ isdigit d1 = true /\ isdigit d2 = true
    /\ 1 <= 10 * digit_val m1 + digit_val m2 <= 12
    /\ 1 <= 10 * digit_val d1 + digit_val d2 <= 31.
Proof.
  unfold canonical_date.
  destruct s as [|y1 [|y2 [|y3 [|y4 [|h1 [|m1 [|m2 [|h2 [|d1 [|d2 [|x s]]]]]]]]]]];
    cbn [list_ascii_of_string]; try discriminate.
  intros H.
  repeat (apply andb_prop in H; destruct H as [H ?]).
  repeat match goal with
         | E : Ascii.eqb _ _ = true |- _ => apply Ascii.eqb_eq in E; subst
         end.
  repeat match goal with
         | E : (_ <=? _) = true |- _ => apply Z.leb_le in E
         end.
  exists y1, y2, y3, y4, m1, m2, d1, d2.
  repeat split; try assumption; try lia.
  unfold isdigit. rewrite andb_true_iff, !Z.leb_le. lia.
Qed.

Lemma sscanf_date_canonical (y1 y2 y3 y4 m1 m2 d1 d2 : ascii) :
  isdigit y1 = true -> isdigit y2 = true -> isdigit y3 = true ->
  isdigit y4 = true -> isdigit m1 = true -> isdigit m2 = true ->
  isdigit d1 = true -> isdigit d2 = true ->
  sscanf_date (String y1 (String y2 (String y3 (String y4 (String "-"
                 (String m1 (String m2 (String "-" (String d1 (String d2 ""))))))))))
  = Some (1000 * digit_val y1 + 100 * digit_val y2 + 10 * digit_val y3 + digit_val y4,
          10 * digit_val m1 + digit_val m2,
          10 * digit_val d1 + digit_val d2).
Proof.
  intros. unfold sscanf_date.
  rewrite scan_int_4_digits by assumption. cbn [mbind option_bind scan_lit Ascii.eqb Bool.eqb].
  rewrite scan_int_2_digits by assumption. cbn [mbind option_bind scan_lit Ascii.eqb Bool.eqb].
  rewrite scan_int_2_digits by assumption. reflexivity.
Qed.

(** Every date in the zero-padded form is accepted. *)
Lemma parse_date_canonical (s : string) :
  canonical_date s = true -> parse_date s = true.
Proof.
  intros H. apply canonical_date_inv in H.
  destruct H as (y1 & y2 & y3 & y4 & m1 & m2 & d1 & d2 & -> & H).
  destruct H as (? & ? & ? & ? & ? & ? & ? & ? & Hm & Hd).
  unfold parse_date. change (strlen _ =? 10) with true. cbn [negb].
  rewrite sscanf_date_canonical by assumption.
  destruct (Z.ltb_spec (10 * digit_val m1 + digit_val m2) 1); [lia|].
  destruct (Z.ltb_spec 12 (10 * digit_val m1 + digit_val m2)); [lia|].
  destruct (Z.ltb_spec (10 * digit_val d1 + digit_val d2) 1); [lia|].
  destruct (Z.ltb_spec 31 (10 * digit_val d1 + digit_val d2)); [lia|].
  reflexivity.
Qed.

(** On dates in the zero-padded form the order of the strings is the order
    of the calendar. *)
Lemma canonical_date_order (a b : string) (va vb : Z * Z * Z) :
  canonical_date a = true -> canonical_date b = true ->
  sscanf_date a = Some va -> sscanf_date b = Some vb ->
  (compare_dates a b < 0 <-> ymd_lt va vb).
Proof.
  intros Ha Hb Sa Sb.
  apply canonical_date_inv in Ha, Hb.
  destruct Ha as (a1 & a2 & a3 & a4 & a5 & a6 & a7 & a8 & -> & Ha).
  destruct Hb as (b1 & b2 & b3 & b4 & b5 & b6 & b7 & b8 & -> & Hb).
  destruct Ha as (A1 & A2 & A3 & A4 & A5 & A6 & A7 & A8 & _ & _).
  destruct Hb as (B1 & B2 & B3 & B4 & B5 & B6 & B7 & B8 & _ & _).
  rewrite sscanf_date_canonical in Sa, Sb by assumption.
  injection Sa as <-. injection Sb as <-.
  apply isdigit_range in A1, A2, A3, A4, A5, A6, A7, A8,
                         B1, B2, B3, B4, B5, B6, B7, B8.
  unfold compare_dates, strcmp, ymd_lt, digit_val, code in *.
  cbn [String.compare]. unfold Ascii.compare.
  change (N_of_ascii "-") with 45%N. rewrite N.compare_refl.
  repeat match goal with
         | |- context [N.compare (N_of_ascii ?x) (N_of_ascii ?y)] =>
             destruct (N.compare_spec (N_of_ascii x) (N_of_ascii y))
         end; lia.
Qed.

(** C5. [parse_date] accepts strings of ten characters that are not in the
    zero-padded form: a month or a day of one digit followed by anything, a
    blank or a sign in place of a digit.  Among accepted strings the order
    of the strings is then not the order of the calendar: the first of
    February 2024 written with a blank sorts before the 15th of January. *)
Theorem parse_date_accepts_unpadded :
  (canonical_date "2024-1-5ab" = false /\ parse_date "2024-1-5ab" = true) /\
  (canonical_date "2024-01- 1" = false /\ parse_date "2024-01- 1" = true) /\
  (canonical_date "+123-01-01" = false /\ parse_date "+123-01-01" = true) /\
  (parse_date "2024- 2-01" = true /\ parse_date "2024-01-15" = true /\
   sscanf_date "2024- 2-01" = Some (2024, 2, 1) /\
   sscanf_date "2024-01-15" = Some (2024, 1, 15) /\
   ymd_lt (2024, 1, 15) (2024, 2, 1) /\
   compare_dates "2024- 2-01" "2024-01-15" < 0).
Proof.
  repeat split; try reflexivity. unfold ymd_lt. lia.
Qed.

(** ** The loop of the import *)

Lemma fgets_chars_rest (n : nat) (inp : string) :
  (String.length (snd (fgets_chars n inp)) <= String.length inp)%nat.
Proof.
  revert inp. induction n as [|n IH]; intros inp; [destruct inp; simpl; lia|].
  destruct inp as [|c r]; [simpl; lia|]. cbn [fgets_chars].
  destruct (Ascii.eqb c LF); [simpl; lia|].
  specialize (IH r). destruct (fgets_chars n r) as [l r']. simpl in *. lia.
Qed.

Lemma fgets_chars_consumes (n : nat) (inp line rest : string) :
  fgets_chars (S n) inp = (line, rest) -> inp <> EmptyString ->
  (String.length rest < String.length inp)%nat.
Proof.
  intros H Hne. destruct inp as [|c r]; [congruence|].
  cbn [fgets_chars] in H.
  assert (E : rest = if Ascii.eqb c LF then r else snd (fgets_chars n r)).
  { destruct (Ascii.eqb c LF); [congruence|].
    destruct (fgets_chars n r); simpl; congruence. }
  subst rest. pose proof (fgets_chars_rest n r).
  destruct (Ascii.eqb c LF); simpl; lia.
Qed.

(** The number of turns given to [import_lines] is enough: with any number
    of turns from the length of the input on, the loop runs until [fgets]
    finds the end of the input, and more turns change nothing. *)
Lemma import_lines_turns (n m : nat) (inp : string) (lineno : Z) (w : World) :
  (String.length inp <= n)%nat -> (String.length inp <= m)%nat ->
  import_lines n inp lineno w = import_lines m inp lineno w.
Proof.
  revert m inp lineno w.
  induction n as [|n IH]; intros m inp lineno w Hn Hm.
  - destruct inp; [|simpl in Hn; lia]. destruct m; reflexivity.
  - destruct m as [|m].
    + destruct inp; [|simpl in Hm; lia]. reflexivity.
    + cbn [import_lines]. unfold fgets.
      destruct inp as [|c r]; [reflexivity|].
      destruct (fgets_chars (1024 - 1) (String c r)) as [line rest] eqn:E.
      apply fgets_chars_consumes in E; [|discriminate].
      unfold bind. destruct (if lineno + 1 =? 1 then _ else _) as [[] w1].
      apply IH; simpl in *; lia.
Qed.

(** ** The ids of the categories *)

(** The ids of a category store are unique as long as they are below the
    counter, and [add_category] keeps both: the uniqueness that the
    removal of a category relies on holds of every store that additions have
    built from the empty one. *)
Lemma add_category_unique_ids (w : World) :
  unique_ids (cat_data (cats w)) ->
  Forall (fun c => c_id c < cat_next_id (cats w)) (cat_data (cats w)) ->
  let w' := exec add_category w in
  unique_ids (cat_data (cats w')) /\
  Forall (fun c => c_id c < cat_next_id (cats w')) (cat_data (cats w')).
Proof.
  intros Hu Hb w'. subst w'.
  unfold exec, add_category, ensure_cat_capacity, cat_fresh_id, push_cat. mrun.
  rewrite read_line_run. wsimpl.
  destruct (strlen (fst (input_line 64 (stdin w))) =? 0); wsimpl; [now split|].
  assert (G : unique_ids (cat_data (cats w) ++ [mkCategory (cat_next_id (cats w))
                 (strncpy 63 (fst (input_line 64 (stdin w))))]) /\
              Forall (fun c => c_id c < cat_next_id (cats w) + 1)
                (cat_data (cats w) ++ [mkCategory (cat_next_id (cats w))
                   (strncpy 63 (fst (input_line 64 (stdin w))))])).
  { split.
    - unfold unique_ids in *. rewrite map_app. apply list.NoDup_app.
      split; [assumption|]. split; [|apply NoDup_singleton].
      intros i Hi Hi'. apply list_elem_of_singleton in Hi'. simpl in Hi'. subst i.
      apply list_elem_of_fmap in Hi as (c & Hc & Hin).
      rewrite Forall_forall in Hb. apply list_elem_of_In, Hb in Hin. lia.
    - apply Forall_app. split.
      + eapply Forall_impl; [|exact Hb]. intros c Hc. simpl in Hc. lia.
      + constructor; [simpl; lia|constructor]. }
  destruct (cat_cap (cats w) <? cat_size (cats w) + 1); wsimpl; exact G.
Qed.

(** * Further properties of the program *)

(** ** Relations that every step of an operation respects *)


Section Respects.
Variable R : World -> World -> Prop.
Hypothesis R_refl : forall w, R w w.
Hypothesis R_trans : forall w1 w2 w3, R w1 w2 -> R w2 w3 -> R w1 w3.

Lemma respects_ret {A} (a : A) : respects R (ret a).
Proof. intros w. apply R_refl. Qed.

Lemma respects_gets {A} (f : World -> A) : respects R (gets f).
Proof. intros w. apply R_refl. Qed.

Lemma respects_bind {A B} (m : M A) (k : A -> M B) :
  respects R m -> (forall a, respects R (k a)) -> respects R (bind m k).
Proof.
  intros Hm Hk w. unfold bind. specialize (Hm w).
  destruct (m w) as [a w1]. simpl in *.
  eapply R_trans; [exact Hm|apply Hk].
Qed.

Lemma respects_modify (f : World -> World) :
  (forall w, R w (f w)) -> respects R (modify f).
Proof. intros H w. apply H. Qed.

Lemma respects_for_each {A} (l : list A) (body : A -> M unit) :
  (forall x, respects R (body x)) -> respects R (for_each l body).
Proof.
  intros H. induction l as [|x l IH]; simpl.
  - apply respects_ret.
  - apply respects_bind; [apply H|intros _; exact IH].
Qed.

End Respects.

(** The steps of a proof that an operation respects a relation: the
    control structure is taken apart, [leaf] closes the primitive steps. *)
Ltac respects_steps Hrefl Htrans leaf :=
  repeat lazymatch goal with
    | |- respects _ (ret _) => apply (respects_ret _ Hrefl)
    | |- respects _ (gets _) => apply (respects_gets _ Hrefl)
    | |- respects _ (bind _ _) => apply (respects_bind _ Htrans); [|intros ?]
    | |- respects _ (for_each _ _) =>
        apply (respects_for_each _ Hrefl Htrans); intros ?
    | |- respects _ (when _ _) => unfold when
    | |- respects _ (printf _) => unfold printf
    | |- respects _ (if ?b then _ else _) => destruct b
    | |- respects _ (match ?o with Some _ => _ | None => _ end) => destruct o
    | |- respects _ (let '(_, _) := ?p in _) => destruct p
    | |- respects _ (modify _) => apply respects_modify; intros ?; leaf
    | |- _ => leaf
    end.

(** *** The input is only consumed *)


Lemma input_shrinks_refl (w : World) : input_shrinks w w.
Proof. unfold input_shrinks. lia. Qed.

Lemma input_shrinks_trans (w1 w2 w3 : World) :
  input_shrinks w1 w2 -> input_shrinks w2 w3 -> input_shrinks w1 w3.
Proof. unfold input_shrinks. lia. Qed.

Lemma input_line_rest (sz : nat) (inp : string) :
  (String.length (snd (input_line sz inp)) <= String.length inp)%nat.
Proof.
  unfold input_line, fgets. destruct inp as [|c r]; [simpl; lia|].
  pose proof (fgets_chars_rest (sz - 1) (String c r)).
  destruct (fgets_chars (sz - 1) (String c r)). simpl in *. lia.
Qed.

Lemma read_line_input (sz : nat) : respects input_shrinks (read_line sz).
Proof.
  intros w. rewrite read_line_run. unfold input_shrinks. wsimpl.
  apply input_line_rest.
Qed.

Lemma read_int_input : respects input_shrinks read_int.
Proof.
  unfold read_int.
  apply (respects_bind _ input_shrinks_trans); [apply read_line_input|].
  intros a. apply (respects_ret _ input_shrinks_refl).
Qed.

Lemma read_double_input : respects input_shrinks read_double.
Proof.
  unfold read_double.
  apply (respects_bind _ input_shrinks_trans); [apply read_line_input|].
  intros a. apply (respects_ret _ input_shrinks_refl).
Qed.

Ltac split_ifs :=
  repeat match goal with
         | |- context [if ?b then _ else _] => destruct b
         end.

Ltac input_leaf :=
  first [ apply read_line_input | apply read_int_input | apply read_double_input
        | solve [unfold respects, input_shrinks; intros; wsimpl; simpl;
                 split_ifs; wsimpl; simpl; lia] ].

Ltac input_steps := respects_steps input_shrinks_refl input_shrinks_trans input_leaf.

Lemma list_categories_input : respects input_shrinks list_categories.
Proof. unfold list_categories. input_steps. Qed.

Lemma add_category_input : respects input_shrinks add_category.
Proof.
  unfold add_category, ensure_cat_capacity, cat_fresh_id, push_cat. input_steps.
Qed.

Ltac input_ops :=
  first [ input_leaf | apply list_categories_input | apply add_category_input ].

Ltac input_steps' := respects_steps input_shrinks_refl input_shrinks_trans input_ops.

Lemma list_transactions_input (sd ed : option string) :
  respects input_shrinks (list_transactions sd ed).
Proof. unfold list_transactions. input_steps'. Qed.

Lemma edit_category_input : respects input_shrinks edit_category.
Proof. unfold edit_category. input_steps'. Qed.

Lemma remove_category_input : respects input_shrinks remove_category.
Proof. unfold remove_category. input_steps'. Qed.

Lemma add_transaction_input : respects input_shrinks add_transaction.
Proof.
  unfold add_transaction, ensure_txn_capacity, txn_fresh_id, push_txn.
  input_steps'.
Qed.

Lemma edit_transaction_input : respects input_shrinks edit_transaction.
Proof.
  unfold edit_transaction, update_txn.
  respects_steps input_shrinks_refl input_shrinks_trans
    ltac:(first [input_ops | apply list_transactions_input]).
Qed.

Lemma remove_transaction_input : respects input_shrinks remove_transaction.
Proof.
  unfold remove_transaction.
  respects_steps input_shrinks_refl input_shrinks_trans
    ltac:(first [input_ops | apply list_transactions_input]).
Qed.

Lemma set_budget_input : respects input_shrinks set_budget.
Proof.
  unfold set_budget, ensure_budget_capacity, push_budget. input_steps'.
Qed.

Lemma list_budgets_input : respects input_shrinks list_budgets.
Proof. unfold list_budgets. input_steps'. Qed.

Lemma monthly_summary_input (y m : Z) : respects input_shrinks (monthly_summary y m).
Proof. unfold monthly_summary. input_steps'. Qed.

Lemma category_summary_input (y m : Z) : respects input_shrinks (category_summary y m).
Proof. unfold category_summary. input_steps'. Qed.

Lemma budget_report_input (y m : Z) : respects input_shrinks (budget_report y m).
Proof. unfold budget_report. input_steps'. Qed.

Lemma export_csv_input (path : string) : respects input_shrinks (export_csv path).
Proof. unfold export_csv. input_steps'. Qed.

Lemma search_transactions_input : respects input_shrinks search_transactions.
Proof. unfold search_transactions. input_steps'. Qed.

Lemma toggle_obfuscation_input : respects input_shrinks toggle_obfuscation.
Proof. unfold toggle_obfuscation. input_steps'. Qed.

Lemma import_line_input (line : string) (lineno : Z) :
  respects input_shrinks (import_line line lineno).
Proof.
  unfold import_line, ensure_cat_capacity, cat_fresh_id, push_cat,
    ensure_txn_capacity, txn_fresh_id, push_txn.
  input_steps'.
Qed.

Lemma import_lines_input (turns : nat) (inp : string) (lineno : Z) :
  respects input_shrinks (import_lines turns inp lineno).
Proof.
  revert inp lineno. induction turns as [|n IH]; intros inp lineno; simpl.
  - apply (respects_ret _ input_shrinks_refl).
  - destruct (fgets 1024 inp) as [[line rest]|];
      [|apply (respects_ret _ input_shrinks_refl)].
    apply (respects_bind _ input_shrinks_trans); [|intros _; apply IH].
    destruct (lineno + 1 =? 1);
      [apply (respects_ret _ input_shrinks_refl)|apply import_line_input].
Qed.

Lemma import_csv_input (path : string) : respects input_shrinks (import_csv path).
Proof.
  unfold import_csv.
  respects_steps input_shrinks_refl input_shrinks_trans
    ltac:(first [input_ops | apply import_lines_input]).
Qed.

Section MenuInput.
Context `{LC : Layout Category} `{LT : Layout Transaction} `{LB : Layout BudgetEntry}.

Lemma save_all_input : respects input_shrinks save_all.
Proof. unfold save_all, save_binary_file. input_steps'. Qed.

Lemma menu_action_input (c : Z) : respects input_shrinks (menu_action c).
Proof.
  unfold menu_action.
  respects_steps input_shrinks_refl input_shrinks_trans
    ltac:(first [ input_ops
                | apply list_transactions_input | apply edit_category_input
                | apply remove_category_input | apply add_transaction_input
                | apply edit_transaction_input | apply remove_transaction_input
                | apply set_budget_input | apply list_budgets_input
                | apply monthly_summary_input | apply category_summary_input
                | apply budget_report_input | apply export_csv_input
                | apply search_transactions_input | apply toggle_obfuscation_input
                | apply import_csv_input ]).
Qed.

End MenuInput.

(** ** The menu *)

Lemma read_int_end_of_input (w : World) :
  stdin w = EmptyString -> read_int w = (0, w).
Proof.
  intros E. rewrite read_int_run, E. simpl. rewrite <- E.
  unfold set_stdin. now rewrite world_eta.
Qed.

Lemma read_int_consumes (w : World) :
  stdin w <> EmptyString ->
  (String.length (stdin (snd (read_int w))) < String.length (stdin w))%nat.
Proof.
  intros Hne. rewrite read_int_run. wsimpl.
  unfold input_int, input_line, fgets.
  destruct (stdin w) as [|c r] eqn:E; [congruence|].
  destruct (fgets_chars (64 - 1) (String c r)) as [buf rest] eqn:F.
  apply fgets_chars_consumes in F; [|discriminate]. simpl in *. lia.
Qed.

Section MenuEnds.
Context `{LC : Layout Category} `{LT : Layout Transaction} `{LB : Layout BudgetEntry}.

Lemma interactive_menu_loop_turn (n : nat) (w : World) :
  interactive_menu_loop (S n) w
  = let w1 := set_stdout w (stdout w ++ menu_text (obfuscate_enabled w)) in
    let '(c, w2) := read_int w1 in
    if c =? 0 then save_all w2
    else let '(_, w3) := menu_action c w2 in interactive_menu_loop n w3.
Proof.
  cbn [interactive_menu_loop]. unfold bind, gets. cbn beta iota.
  change (for_each (menu_text (obfuscate_enabled w)) printf w)
    with (for_each (menu_text (obfuscate_enabled w)) (fun x => printf x) w).
  rewrite (for_each_printf (fun x => x)), map_id. cbn beta iota zeta.
  destruct (read_int _) as [c w2]. now destruct (c =? 0).
Qed.

Lemma interactive_menu_loop_more (n m : nat) (w : World) :
  (String.length (stdin w) < n)%nat -> (String.length (stdin w) < m)%nat ->
  interactive_menu_loop n w = interactive_menu_loop m w.
Proof.
  revert m w. induction n as [|n IH]; intros m w Hn Hm; [lia|].
  destruct m as [|m]; [lia|].
  rewrite !interactive_menu_loop_turn. cbn zeta.
  set (w1 := set_stdout w _).
  assert (E1 : stdin w1 = stdin w) by reflexivity.
  destruct (stdin w) as [|ch r] eqn:Ein.
  - rewrite (read_int_end_of_input w1) by congruence. reflexivity.
  - pose proof (read_int_consumes w1) as Hc. rewrite E1 in Hc.
    destruct (read_int w1) as [c w2]. simpl in Hc.
    specialize (Hc ltac:(discriminate)).
    destruct (c =? 0); [reflexivity|].
    pose proof (menu_action_input c w2) as Ha. unfold input_shrinks in Ha.
    destruct (menu_action c w2) as [[] w3]. simpl in Ha.
    apply IH; simpl in *; lia.
Qed.

End MenuEnds.

(** ** What the operations do to the stores *)

Lemma add_category_stores (w : World) :
  let name := fst (input_line 64 (stdin w)) in
  stores (exec add_category w)
  = if strlen name =? 0 then stores w
    else (txns w,
          mkCatStore (cat_data (cats w)
                      ++ [mkCategory (cat_next_id (cats w)) (strncpy 63 name)])
                     (ensured (cat_cap (cats w)) (cat_size (cats w)) 8)
                     (cat_next_id (cats w) + 1),
          budgets w).
Proof.
  intros name. subst name.
  unfold exec, add_category, ensure_cat_capacity, cat_fresh_id, push_cat, ensured. mrun.
  rewrite read_line_run. wsimpl.
  destruct (strlen (fst (input_line 64 (stdin w))) =? 0); wsimpl; [reflexivity|].
  destruct (cat_cap (cats w) <? cat_size (cats w) + 1); reflexivity.
Qed.

Lemma edit_category_stores (w : World) :
  let '(id, r) := input_int (stdin w) in
  let idx := find_category_index_by_id id w in
  let name := fst (input_line 64 r) in
  stores (exec edit_category w)
  = if (idx <? 0) || (strlen name =? 0) then stores w
    else (txns w,
          mkCatStore (alter (with_name (strncpy 63 name)) (Z.to_nat idx) (cat_data (cats w)))
                     (cat_cap (cats w)) (cat_next_id (cats w)),
          budgets w).
Proof.
  unfold exec, edit_category. mrun.
  rewrite list_categories_run. wsimpl.
  rewrite read_int_run. wsimpl.
  destruct (input_int (stdin w)) as [id r]. wsimpl.
  unfold find_category_index_by_id at 1 2. wsimpl.
  fold (find_category_index_by_id id w).
  destruct (Z.ltb_spec (find_category_index_by_id id w) 0) as [|Hidx]; wsimpl;
    [reflexivity|].
  destruct (find_index_lookup (fun c => c_id c =? id) (cat_data (cats w)) 0)
    as (c & Hc & _); [lia|unfold find_category_index_by_id in Hidx; lia|].
  rewrite Z.sub_0_r in Hc. fold (find_category_index_by_id id w) in Hc.
  rewrite Hc. wsimpl.
  rewrite read_line_run. wsimpl.
  destruct (strlen (fst (input_line 64 r)) =? 0); reflexivity.
Qed.

Lemma remove_category_stores (w : World) :
  let id := fst (input_int (stdin w)) in
  let idx := find_category_index_by_id id w in
  stores (exec remove_category w)
  = if (idx <? 0) || existsb (fun t => t_category_id t =? id) (txn_data (txns w))
    then stores w
    else (txns w,
          mkCatStore (swap_remove (Z.to_nat idx) (cat_data (cats w)))
                     (cat_cap (cats w)) (cat_next_id (cats w)),
          budgets w).
Proof.
  unfold exec, remove_category. mrun.
  rewrite list_categories_run. wsimpl.
  rewrite read_int_run. wsimpl.
  unfold find_category_index_by_id at 1 2. wsimpl.
  fold (find_category_index_by_id (fst (input_int (stdin w))) w).
  destruct (find_category_index_by_id _ w <? 0); wsimpl; [reflexivity|].
  destruct (existsb _ (txn_data (txns w))); reflexivity.
Qed.

Lemma remove_transaction_stores (w : World) :
  let id := fst (input_int (stdin w)) in
  let idx := find_txn_index_by_id id w in
  stores (exec remove_transaction w)
  = if idx <? 0 then stores w
    else (mkTxnStore (swap_remove (Z.to_nat idx) (txn_data (txns w)))
                     (txn_cap (txns w)) (txn_next_id (txns w)),
          cats w, budgets w).
Proof.
  unfold exec, remove_transaction. mrun.
  destruct (list_transactions_run None None w) as [o ->]. wsimpl.
  rewrite read_int_run. wsimpl.
  unfold find_txn_index_by_id at 1 2. wsimpl.
  fold (find_txn_index_by_id (fst (input_int (stdin w))) w).
  destruct (find_txn_index_by_id _ w <? 0); reflexivity.
Qed.
Lemma add_category_world (w : World) :
  exists out,
    add_category w
    = (tt, mkWorld (txns w) (category_added (fst (input_line 64 (stdin w))) (cats w))
             (budgets w) (obfuscate_enabled w) (obf_key w)
             (snd (input_line 64 (stdin w))) (stdout w ++ out)
             (localtime w) (files w)).
Proof.
  unfold add_category, ensure_cat_capacity, cat_fresh_id, push_cat,
    category_added, category_pushed, ensured. mrun.
  rewrite read_line_run. wsimpl.
  destruct (strlen (fst (input_line 64 (stdin w))) =? 0); wsimpl.
  - rewrite <- ?List.app_assoc. eexists. now destruct (cats w).
  - destruct (cat_cap (cats w) <? cat_size (cats w) + 1); wsimpl;
      rewrite <- ?List.app_assoc; eexists; reflexivity.
Qed.

Lemma ensure_txn_capacity_world (w : World) :
  ensure_txn_capacity w
  = (tt, mkWorld (mkTxnStore (txn_data (txns w))
                    (ensured (txn_cap (txns w)) (txn_size (txns w)) 16)
                    (txn_next_id (txns w)))
           (cats w) (budgets w) (obfuscate_enabled w) (obf_key w)
           (stdin w) (stdout w) (localtime w) (files w)).
Proof.
  unfold ensure_txn_capacity, ensured. mrun.
  destruct (txn_cap (txns w) <? txn_size (txns w) + 1); wsimpl; [reflexivity|].
  now destruct w as [[d c n] ? ? ? ? ? ? ? ?].
Qed.

Lemma ensure_cat_capacity_world (w : World) :
  ensure_cat_capacity w
  = (tt, mkWorld (txns w)
           (mkCatStore (cat_data (cats w))
              (ensured (cat_cap (cats w)) (cat_size (cats w)) 8)
              (cat_next_id (cats w)))
           (budgets w) (obfuscate_enabled w) (obf_key w)
           (stdin w) (stdout w) (localtime w) (files w)).
Proof.
  unfold ensure_cat_capacity, ensured. mrun.
  destruct (cat_cap (cats w) <? cat_size (cats w) + 1); wsimpl; [reflexivity|].
  now destruct w as [? [d c n] ? ? ? ? ? ? ?].
Qed.

Lemma ensure_budget_capacity_world (w : World) :
  ensure_budget_capacity w
  = (tt, mkWorld (txns w) (cats w)
           (mkBudgetStore (bud_data (budgets w))
              (ensured (bud_cap (budgets w)) (bud_size (budgets w)) 8))
           (obfuscate_enabled w) (obf_key w)
           (stdin w) (stdout w) (localtime w) (files w)).
Proof.
  unfold ensure_budget_capacity, ensured. mrun.
  destruct (bud_cap (budgets w) <? bud_size (budgets w) + 1); wsimpl; [reflexivity|].
  now destruct w as [? ? [d c] ? ? ? ? ? ?].
Qed.

Ltac same_data Hc :=
  wsimpl; rewrite <- ?List.app_assoc;
  eexists _, _, _, _; split; [reflexivity|split; [exact Hc|left; reflexivity]].

(** What [add_transaction] does whatever it reads: the counter of the
    transactions advances, the categories are as they were or have the
    category that the nested [add_category] created, and the transactions are
    as they were or have one more, valid, transaction at the end. *)
Lemma add_transaction_world (w : World) :
  exists data c r out,
    exec add_transaction w
    = mkWorld (mkTxnStore data (ensured (txn_cap (txns w)) (txn_size (txns w)) 16)
                 (txn_next_id (txns w) + 1)) c (budgets w)
              (obfuscate_enabled w) (obf_key w) r (stdout w ++ out)
              (localtime w) (files w)
    /\ (c = cats w \/ exists name, c = category_added name (cats w))
    /\ (data = txn_data (txns w) \/
        exists t, data = (txn_data (txns w) ++ [t])%list
                  /\ t_id t = txn_next_id (txns w)
                  /\ amount_ltb (Q2Qc 0) (t_amount t) = true
                  /\ parse_date (t_date t) = true
                  /\ existsb (fun x => c_id x =? t_category_id t) (cat_data c) = true).
Proof.
  unfold exec, add_transaction, txn_fresh_id, push_txn. mrun.
  rewrite ensure_txn_capacity_world. wsimpl.
  rewrite read_line_run. wsimpl.
  set (line := fst (input_line 11 (stdin w))).
  set (date := if strlen line =? 0 then default_date (localtime w) else line).
  assert (H0 : cats w = cats w \/ exists name, cats w = category_added name (cats w))
    by now left.
  destruct (parse_date date) eqn:Hdate; wsimpl; [|same_data H0].
  rewrite read_int_run. wsimpl.
  rewrite read_double_run. wsimpl.
  set (amount := fst (input_double _)).
  destruct (amount_leb amount (Q2Qc 0)) eqn:Hamt; wsimpl; [same_data H0|].
  rewrite list_categories_run. wsimpl.
  destruct (cat_size (cats w) =? 0); wsimpl.
  - match goal with |- context [add_category ?W] =>
      destruct (add_category_world W) as (oc & ->) end. wsimpl.
    set (c := category_added _ _).
    assert (Hc : c = cats w \/ exists name, c = category_added name (cats w))
      by (right; eexists; reflexivity).
    clearbody c.
    destruct (cat_size c =? 0); wsimpl; [same_data Hc|].
    rewrite read_int_run. wsimpl.
    unfold find_category_by_id at 1. wsimpl.
    match goal with |- context [existsb ?f (cat_data c)] =>
      destruct (existsb f (cat_data c)) eqn:Hcat end; wsimpl; [|same_data Hc].
    rewrite read_line_run. wsimpl. rewrite <- ?List.app_assoc.
    eexists _, _, _, _. split; [reflexivity|split; [exact Hc|right]].
    eexists. split; [reflexivity|]. cbn [t_id t_amount t_date t_category_id].
    repeat split; try assumption.
    unfold amount_ltb. unfold amount_leb in Hamt. now rewrite Hamt.
  - rewrite read_int_run. wsimpl.
    unfold find_category_by_id at 1. wsimpl.
    match goal with |- context [existsb ?f (cat_data (cats w))] =>
      destruct (existsb f (cat_data (cats w))) eqn:Hcat end; wsimpl; [|same_data H0].
    rewrite read_line_run. wsimpl. rewrite <- ?List.app_assoc.
    eexists _, _, _, _. split; [reflexivity|split; [exact H0|right]].
    eexists. split; [reflexivity|]. cbn [t_id t_amount t_date t_category_id].
    repeat split; try assumption.
    unfold amount_ltb. unfold amount_leb in Hamt. now rewrite Hamt.
Qed.
Lemma when_update_txn (b : bool) (idx : Z) (f : Transaction -> Transaction) (w : World) :
  when b (update_txn idx f) w
  = (tt, mkWorld (mkTxnStore (alter (if b then f else id) (Z.to_nat idx) (txn_data (txns w)))
                    (txn_cap (txns w)) (txn_next_id (txns w)))
           (cats w) (budgets w) (obfuscate_enabled w) (obf_key w)
           (stdin w) (stdout w) (localtime w) (files w)).
Proof.
  destruct b; [reflexivity|]. unfold when, ret.
  rewrite list_alter_id by reflexivity.
  now destruct w as [[d c n] ? ? ? ? ? ? ? ?].
Qed.

Lemma edit_date_step (buf : string) (idx : Z) (w : World) :
  exists out,
    when (negb (strlen buf =? 0))
      (if parse_date buf then update_txn idx (with_date (strncpy 11 buf))
       else printf ("Invalid date — kept." ++ nl)) w
    = (tt, mkWorld (mkTxnStore
                      (alter (if parse_date buf then with_date buf else id)
                             (Z.to_nat idx) (txn_data (txns w)))
                      (txn_cap (txns w)) (txn_next_id (txns w)))
             (cats w) (budgets w) (obfuscate_enabled w) (obf_key w)
             (stdin w) (stdout w ++ out) (localtime w) (files w)).
Proof.
  destruct (parse_date buf) eqn:Hp.
  - assert (Hlen : strlen buf = 10).
    { unfold parse_date in Hp. destruct (strlen buf =? 10) eqn:E; [lia|discriminate]. }
    rewrite Hlen. exists []. rewrite List.app_nil_r. simpl negb. unfold when.
    rewrite strncpy_all; [reflexivity|].
    unfold strlen in Hlen. lia.
  - rewrite list_alter_id by reflexivity.
    destruct (strlen buf =? 0); unfold when, ret, printf, modify; simpl negb; cbv iota.
    + exists []. rewrite List.app_nil_r. now destruct w as [[d c n] ? ? ? ? ? ? ? ?].
    + eexists. wsimpl. now destruct (txns w).
Qed.

Ltac at_world f w :=
  repeat match goal with
  | |- context [f ?W] =>
      lazymatch W with
      | w => fail
      | _ => change (f W) with (f w)
      end
  end.

Lemma edit_transaction_world (w : World) :
  let '(id, date, tp, a, cid, note, r) := edit_inputs (stdin w) in
  let idx := find_txn_index_by_id id w in
  exists r' out,
    exec edit_transaction w
    = mkWorld (mkTxnStore
                 (if idx <? 0 then txn_data (txns w)
                  else alter (edit_fields w date tp a cid note) (Z.to_nat idx)
                         (txn_data (txns w)))
                 (txn_cap (txns w)) (txn_next_id (txns w)))
              (cats w) (budgets w) (obfuscate_enabled w) (obf_key w)
              r' (stdout w ++ out) (localtime w) (files w).
Proof.
  unfold edit_inputs, exec, edit_transaction.
  unfold bind at 1. destruct (list_transactions_run None None w) as [o ->].
  unfold bind at 1. unfold printf at 1, modify at 1.
  unfold bind at 1. rewrite read_int_run. wsimpl.
  destruct (input_int (stdin w)) as [id r0]. wsimpl.
  unfold bind at 1, gets at 1. at_world (find_txn_index_by_id id) w.
  destruct (input_line 11 r0) as [date r1] eqn:E1.
  destruct (input_int r1) as [tp r2] eqn:E2.
  destruct (input_double r2) as [a r3] eqn:E3.
  destruct (input_int r3) as [cid r4] eqn:E4.
  destruct (input_line 256 r4) as [note r5] eqn:E5.
  destruct (Z.ltb_spec (find_txn_index_by_id id w) 0) as [|Hidx].
  { unfold printf, modify. wsimpl. rewrite <- ?List.app_assoc.
    eexists _, _. now destruct (txns w). }
  destruct (find_index_lookup (fun t => t_id t =? id) (txn_data (txns w)) 0)
    as (t & Ht & _); [lia|unfold find_txn_index_by_id in Hidx; lia|].
  rewrite Z.sub_0_r in Ht. fold (find_txn_index_by_id id w) in Ht.
  unfold bind at 1, gets at 1. wsimpl. rewrite Ht.
  unfold bind at 1. unfold printf at 1, modify at 1. wsimpl.
  unfold bind at 1. rewrite read_line_run. wsimpl. rewrite E1. wsimpl.
  unfold bind at 1.
  match goal with |- context [when _ (if parse_date date then _ else _) ?W] =>
    destruct (edit_date_step date (find_txn_index_by_id id w) W) as [o1 ->] end.
  wsimpl.
  unfold bind at 1. unfold printf at 1, modify at 1. wsimpl.
  unfold bind at 1. rewrite read_int_run. wsimpl. rewrite E2. wsimpl.
  unfold bind at 1. rewrite when_update_txn. wsimpl.
  unfold bind at 1. unfold printf at 1, modify at 1. wsimpl.
  unfold bind at 1. rewrite read_double_run. wsimpl. rewrite E3. wsimpl.
  unfold bind at 1. rewrite when_update_txn. wsimpl.
  unfold bind at 1. rewrite list_categories_run. wsimpl.
  unfold bind at 1. unfold printf at 1, modify at 1. wsimpl.
  unfold bind at 1. rewrite read_int_run. wsimpl. rewrite E4. wsimpl.
  unfold bind at 1, gets at 1. at_world (find_category_by_id cid) w.
  unfold bind at 1. rewrite when_update_txn. wsimpl.
  unfold bind at 1. unfold printf at 1, modify at 1. wsimpl.
  unfold bind at 1. rewrite read_line_run. wsimpl. rewrite E5. wsimpl.
  unfold bind at 1. rewrite when_update_txn. wsimpl.
  unfold printf, modify. wsimpl. rewrite <- ?List.app_assoc.
  eexists _, _. f_equal. f_equal.
  rewrite !list_alter_alter_eq. apply list_alter_ext; [|reflexivity].
  intros t0 _. unfold edit_fields, compose.
  destruct (parse_date date), ((tp =? 0) || (tp =? 1)), (amount_ltb (Q2Qc 0) a),
    (negb (cid =? 0) && find_category_by_id cid w), (negb (strlen note =? 0));
    reflexivity.
Qed.
Lemma category_id_by_name_found (name : string) (w : World) :
  0 <= category_id_by_name name w ->
  existsb (fun c => c_id c =? category_id_by_name name w) (cat_data (cats w)) = true.
Proof.
  unfold category_id_by_name.
  destruct (List.find _ (cat_data (cats w))) as [c|] eqn:E; [|lia].
  intros _. apply find_some in E as [Hin _].
  apply existsb_exists. exists c. split; [assumption|lia].
Qed.

Lemma existsb_app_r_last (id : Z) (l : list Category) (name : string) :
  existsb (fun c => c_id c =? id) (l ++ [mkCategory id name]) = true.
Proof. rewrite existsb_app. simpl. rewrite Z.eqb_refl. now rewrite orb_true_r. Qed.

(** What a line of the file does: nothing, or one transaction more with
    the id of the counter and a category of the store, which is created
    with the id of the counter when no category has the name. *)
Lemma import_line_world (line : string) (lineno : Z) (w : World) :
  exists T C out,
    import_line line lineno w
    = (tt, mkWorld T C (budgets w) (obfuscate_enabled w) (obf_key w)
             (stdin w) (stdout w ++ out) (localtime w) (files w))
    /\ (C = cats w \/ exists name, C = category_pushed name (cats w))
    /\ ((T = txns w /\ C = cats w) \/
        exists t, T = mkTxnStore (txn_data (txns w) ++ [t])
                        (ensured (txn_cap (txns w)) (txn_size (txns w)) 16)
                        (txn_next_id (txns w) + 1)
                  /\ t_id t = txn_next_id (txns w)
                  /\ parse_date (t_date t) = true
                  /\ existsb (fun x => c_id x =? t_category_id t) (cat_data C) = true).
Proof.
  assert (Hsame : exists T C out,
    (tt, w) = (tt, mkWorld T C (budgets w) (obfuscate_enabled w) (obf_key w)
             (stdin w) (stdout w ++ out) (localtime w) (files w))
    /\ (C = cats w \/ exists name, C = category_pushed name (cats w))
    /\ ((T = txns w /\ C = cats w) \/
        exists t, T = mkTxnStore (txn_data (txns w) ++ [t])
                        (ensured (txn_cap (txns w)) (txn_size (txns w)) 16)
                        (txn_next_id (txns w) + 1)
                  /\ t_id t = txn_next_id (txns w)
                  /\ parse_date (t_date t) = true
                  /\ existsb (fun x => c_id x =? t_category_id t) (cat_data C) = true)).
  { exists (txns w), (cats w), []. rewrite List.app_nil_r, world_eta. auto. }
  unfold import_line.
  destruct (strtok "," line) as [[tok1 r1]|]; [|exact Hsame].
  destruct (strtok "," r1) as [[tok2 r2]|]; [|exact Hsame].
  destruct (strtok "," r2) as [[tok3 r3]|]; [|exact Hsame].
  destruct (strtok "," r3) as [[tok4 r4]|]; [|exact Hsame].
  clear Hsame.
  set (note := match strtok LF r4 with Some (tok5, _) => strncpy 255 tok5 | None => "" end).
  set (date := cut_eol (strncpy 10 tok1)).
  destruct (parse_date date) eqn:Hdate; cbn [negb].
  2:{ unfold printf, modify. wsimpl. eexists _, _, _. split; [reflexivity|auto]. }
  assert (Hd : strncpy 10 date = date).
  { apply strncpy_all. unfold parse_date in Hdate.
    destruct (strlen date =? 10) eqn:E; [|discriminate]. unfold strlen in E. lia. }
  unfold bind at 1, gets at 1.
  destruct (Z.ltb_spec (category_id_by_name (strncpy 63 tok4) w) 0) as [Hneg|Hpos].
  - unfold bind at 1 2. rewrite ensure_cat_capacity_world.
    unfold bind at 1, cat_fresh_id at 1. wsimpl.
    unfold bind at 1, push_cat at 1, modify at 1. wsimpl.
    unfold bind at 1, printf at 1, modify at 1. wsimpl.
    unfold ret at 1. cbn [c_id].
    unfold bind at 1. rewrite ensure_txn_capacity_world. wsimpl.
    unfold bind at 1, txn_fresh_id at 1. wsimpl.
    unfold push_txn, modify. wsimpl.
    eexists _, _, _. split; [reflexivity|].
    split; [right; eexists; reflexivity|right].
    eexists. split; [reflexivity|]. cbn [t_id t_date t_category_id cat_data].
    rewrite Hd. repeat split; [assumption|apply existsb_app_r_last].
  - unfold bind at 1, ret at 1.
    unfold bind at 1. rewrite ensure_txn_capacity_world. wsimpl.
    unfold bind at 1, txn_fresh_id at 1. wsimpl.
    unfold push_txn, modify. wsimpl.
    exists (mkTxnStore (txn_data (txns w) ++
              [mkTransaction (txn_next_id (txns w)) (strncpy 10 date) (atof tok3)
                 (category_id_by_name (strncpy 63 tok4) w)
                 (if atoi tok2 =? 1 then TYPE_INCOME else TYPE_EXPENSE)
                 (strncpy 255 note)])
              (ensured (txn_cap (txns w)) (txn_size (txns w)) 16)
              (txn_next_id (txns w) + 1)), (cats w), [].
    rewrite List.app_nil_r. split; [reflexivity|]. split; [now left|right].
    eexists. split; [reflexivity|]. cbn [t_id t_date t_category_id].
    rewrite Hd. repeat split; [assumption|].
    now apply category_id_by_name_found.
Qed.
Ltac leaf_same :=
  wsimpl; rewrite <- ?List.app_assoc;
  eexists _, _; split; [reflexivity|try discriminate; try reflexivity].

Lemma set_budget_world (w : World) :
  let '(cid, year, month, amt, r) := budget_inputs (stdin w) in
  let ok := find_category_by_id cid w && (1 <=? month) && (month <=? 12)
            && amount_leb (Q2Qc 0) amt in
  exists out r',
    exec set_budget w
    = mkWorld (txns w) (cats w)
        (if ok then budget_set cid year month amt (budgets w) else budgets w)
        (obfuscate_enabled w) (obf_key w) r' (stdout w ++ out)
        (localtime w) (files w)
    /\ (ok = true -> r' = r).
Proof.
  unfold budget_inputs, exec, set_budget. mrun.
  rewrite list_categories_run. wsimpl.
  rewrite read_int_run. wsimpl.
  destruct (input_int (stdin w)) as [cid r1]. wsimpl.
  unfold find_category_by_id at 1. wsimpl. fold (find_category_by_id cid w).
  destruct (input_int r1) as [year r2] eqn:E1.
  destruct (input_int r2) as [month r3] eqn:E2.
  destruct (input_double r3) as [amt r4] eqn:E3.
  destruct (find_category_by_id cid w); wsimpl.
  2:{ leaf_same. }
  rewrite read_int_run. wsimpl. rewrite E1. wsimpl.
  rewrite read_int_run. wsimpl. rewrite E2. wsimpl.
  destruct (Z.ltb_spec month 1); wsimpl.
  { destruct (Z.leb_spec 1 month); [lia|]. leaf_same. }
  destruct (Z.leb_spec 1 month); [|lia].
  destruct (Z.ltb_spec 12 month); wsimpl.
  { destruct (Z.leb_spec month 12); [lia|]. leaf_same. }
  destruct (Z.leb_spec month 12); [|lia].
  rewrite read_double_run. wsimpl. rewrite E3. wsimpl.
  rewrite amount_ltb_leb.
  destruct (amount_leb (Q2Qc 0) amt); wsimpl.
  2:{ leaf_same. }
  unfold budget_set.
  destruct (0 <=? find_index (budget_key_eqb cid year month) (bud_data (budgets w)) 0);
    wsimpl.
  { leaf_same. }
  rewrite ensure_budget_capacity_world. unfold push_budget. mrun.
  leaf_same.
Qed.
(** ** Referential integrity *)

Lemma keeps_refl (Inv : World -> Prop) (w : World) : keeps Inv w w.
Proof. unfold keeps. auto. Qed.

Lemma keeps_trans (Inv : World -> Prop) (w1 w2 w3 : World) :
  keeps Inv w1 w2 -> keeps Inv w2 w3 -> keeps Inv w1 w3.
Proof. unfold keeps. auto. Qed.

Lemma category_pushed_data (name : string) (c : CatStore) :
  cat_data (category_pushed name c) = (cat_data c ++ [mkCategory (cat_next_id c) name])%list.
Proof. reflexivity. Qed.

Lemma category_added_data (name : string) (c : CatStore) :
  cat_data (category_added name c) = cat_data c \/
  exists n, cat_data (category_added name c)
            = (cat_data c ++ [mkCategory (cat_next_id c) n])%list.
Proof.
  unfold category_added. destruct (strlen name =? 0); [now left|right].
  eexists. reflexivity.
Qed.

Lemma existsb_mono {A} (p : A -> bool) (l k : list A) :
  existsb p l = true -> existsb p (l ++ k) = true.
Proof. intros H. rewrite existsb_app, H. reflexivity. Qed.

Lemma refs_ok_extended (w w' : World) :
  refs_ok w -> txn_data (txns w') = txn_data (txns w) ->
  cats_extended (cats w) (cats w') -> refs_ok w'.
Proof.
  unfold refs_ok, find_category_by_id. intros H Ht [k Hk] t Hin.
  rewrite Hk. apply existsb_mono, H. now rewrite <- Ht.
Qed.

Lemma refs_ok_pushed (w w' : World) (t : Transaction) :
  refs_ok w -> txn_data (txns w') = (txn_data (txns w) ++ [t])%list ->
  cats_extended (cats w) (cats w') ->
  existsb (fun x => c_id x =? t_category_id t) (cat_data (cats w')) = true ->
  refs_ok w'.
Proof.
  unfold refs_ok, find_category_by_id. intros H Ht [k Hk] Hc t0 Hin.
  rewrite Ht in Hin. apply elem_of_app in Hin as [Hin|Hin].
  - rewrite Hk. apply existsb_mono, H, Hin.
  - apply list_elem_of_singleton in Hin. now subst t0.
Qed.

Lemma cats_extended_cases (c c' : CatStore) :
  (c' = c \/ exists name, c' = category_added name c) -> cats_extended c c'.
Proof.
  unfold cats_extended.
  intros [->|[name ->]]; [exists []; now rewrite List.app_nil_r|].
  destruct (category_added_data name c) as [->|[n ->]];
    [exists []; now rewrite List.app_nil_r|eexists; reflexivity].
Qed.

Lemma cats_extended_pushed (c c' : CatStore) :
  (c' = c \/ exists name, c' = category_pushed name c) -> cats_extended c c'.
Proof.
  intros [->|[name ->]]; [exists []; now rewrite List.app_nil_r|].
  eexists. reflexivity.
Qed.

Lemma add_transaction_refs (w : World) : refs_ok w -> refs_ok (exec add_transaction w).
Proof.
  intros H.
  destruct (add_transaction_world w) as (data & c & r & out & -> & Hc & Hd).
  destruct Hd as [->|(t & -> & _ & _ & _ & Hcat)].
  - eapply refs_ok_extended; [exact H|reflexivity|now apply cats_extended_cases].
  - eapply refs_ok_pushed; [exact H|reflexivity|now apply cats_extended_cases|exact Hcat].
Qed.

Lemma add_category_refs (w : World) : refs_ok w -> refs_ok (exec add_category w).
Proof.
  intros H. unfold exec. destruct (add_category_world w) as (out & ->).
  eapply refs_ok_extended; [exact H|reflexivity|].
  apply cats_extended_cases. right. eexists. reflexivity.
Qed.

Lemma import_line_refs (line : string) (lineno : Z) (w : World) :
  refs_ok w -> refs_ok (exec (import_line line lineno) w).
Proof.
  intros H. unfold exec.
  destruct (import_line_world line lineno w) as (T & C & out & -> & Hc & Hd).
  destruct Hd as [[-> ->]|(t & -> & _ & _ & Hcat)].
  - exact H.
  - eapply refs_ok_pushed; [exact H|reflexivity|now apply cats_extended_pushed|exact Hcat].
Qed.
(** ** What an operation leaves as it was *)

Lemma unchanged_refl {A} (f : World -> A) (w : World) : unchanged f w w.
Proof. reflexivity. Qed.

Lemma unchanged_trans {A} (f : World -> A) (w1 w2 w3 : World) :
  unchanged f w1 w2 -> unchanged f w2 w3 -> unchanged f w1 w3.
Proof. unfold unchanged. congruence. Qed.

Lemma read_line_unchanged {A} (f : World -> A) (sz : nat) :
  (forall w s, f (set_stdin w s) = f w) -> respects (unchanged f) (read_line sz).
Proof. intros H w. rewrite read_line_run. apply H. Qed.

Lemma read_int_unchanged {A} (f : World -> A) :
  (forall w s, f (set_stdin w s) = f w) -> respects (unchanged f) read_int.
Proof. intros H w. rewrite read_int_run. apply H. Qed.

Lemma read_double_unchanged {A} (f : World -> A) :
  (forall w s, f (set_stdin w s) = f w) -> respects (unchanged f) read_double.
Proof. intros H w. rewrite read_double_run. apply H. Qed.

Ltac unchanged_leaf :=
  first [ apply read_line_unchanged; reflexivity
        | apply read_int_unchanged; reflexivity
        | apply read_double_unchanged; reflexivity
        | solve [unfold respects, unchanged; intros; wsimpl; split_ifs; reflexivity]
        | solve [unfold unchanged; intros; wsimpl; split_ifs; reflexivity] ].

Ltac unchanged_steps :=
  match goal with
  | |- respects (unchanged ?f) _ =>
      respects_steps (unchanged_refl f) (unchanged_trans f) unchanged_leaf
  end.

Lemma list_categories_reads : respects (unchanged (fun w => (stores w, files w, obfuscation w, stdin w))) list_categories.
Proof. unfold list_categories. unchanged_steps. Qed.
(** *** The parts of the world that the operations do not assign *)

Section Unassigned.
Context {A : Type} (f : World -> A).
Hypothesis f_stdin : forall w x, f (set_stdin w x) = f w.
Hypothesis f_stdout : forall w x, f (set_stdout w x) = f w.
Hypothesis f_txns : forall w x, f (set_txns w x) = f w.
Hypothesis f_cats : forall w x, f (set_cats w x) = f w.
Hypothesis f_budgets : forall w x, f (set_budgets w x) = f w.

Ltac unassigned_leaf :=
  first [ apply read_line_unchanged; exact f_stdin
        | apply read_int_unchanged; exact f_stdin
        | apply read_double_unchanged; exact f_stdin
        | solve [unfold respects, unchanged; intros; cbn [snd fst];
                 split_ifs; rewrite ?f_stdin, ?f_stdout, ?f_txns, ?f_cats, ?f_budgets;
                 reflexivity]
        | solve [unfold unchanged; intros; cbn [snd fst];
                 split_ifs; rewrite ?f_stdin, ?f_stdout, ?f_txns, ?f_cats, ?f_budgets;
                 reflexivity] ].

Ltac unassigned_steps leaf :=
  respects_steps (unchanged_refl f) (unchanged_trans f)
    ltac:(first [unassigned_leaf | leaf]).

Lemma import_lines_unassigned (turns : nat) (inp : string) (lineno : Z) :
  respects (unchanged f) (import_lines turns inp lineno).
Proof.
  revert inp lineno. induction turns as [|n IH]; intros inp lineno; simpl.
  - apply (respects_ret _ (unchanged_refl f)).
  - destruct (fgets 1024 inp) as [[line rest]|];
      [|apply (respects_ret _ (unchanged_refl f))].
    apply (respects_bind _ (unchanged_trans f)); [|intros _; apply IH].
    destruct (lineno + 1 =? 1); [apply (respects_ret _ (unchanged_refl f))|].
    unfold import_line, ensure_cat_capacity, cat_fresh_id, push_cat,
      ensure_txn_capacity, txn_fresh_id, push_txn.
    unassigned_steps fail.
Qed.

Section MenuUnassigned.
Context `{LC : Layout Category} `{LT : Layout Transaction} `{LB : Layout BudgetEntry}.

Lemma menu_action_unassigned (c : Z) :
  (c = 9 -> forall w x, f (set_files w x) = f w) ->
  (c = 12 -> forall w e k, f (set_obfuscation w e k) = f w) ->
  respects (unchanged f) (menu_action c).
Proof.
  intros Hfiles Hkey. unfold menu_action.
  repeat match goal with
         | |- respects _ (if c =? ?n then _ else _) => destruct (Z.eqb_spec c n)
         end.
  all: unfold add_transaction, edit_transaction, remove_transaction,
         edit_category, remove_category, set_budget, list_budgets,
         monthly_summary, category_summary, budget_report, export_csv, import_csv,
         search_transactions, toggle_obfuscation, update_txn, list_transactions,
         add_category, list_categories,
         ensure_cat_capacity, cat_fresh_id, push_cat,
         ensure_txn_capacity, txn_fresh_id, push_txn,
         ensure_budget_capacity, push_budget.
  all: unassigned_steps
         ltac:(first [ apply import_lines_unassigned
                     | solve [unfold respects, unchanged; intros; cbn [snd fst];
                              rewrite ?f_stdout, ?Hfiles, ?Hkey by assumption;
                              reflexivity]
                     | solve [unfold unchanged; intros; cbn [snd fst];
                              rewrite ?f_stdout, ?Hfiles, ?Hkey by assumption;
                              reflexivity] ]).
Qed.

End MenuUnassigned.
End Unassigned.
(** *** Elements of an array after [swap_remove] *)

Lemma swap_remove_elem_of {A} (idx : nat) (l : list A) (c x : A) :
  l !! idx = Some c -> x ∈ swap_remove idx l -> x ∈ l.
Proof.
  intros Hc Hx. rewrite (swap_remove_delete idx l c Hc) in Hx.
  rewrite delete_take_drop in Hx.
  rewrite <- (take_drop_middle l idx c Hc).
  apply elem_of_app in Hx as [Hx|Hx]; apply elem_of_app; [now left|right].
  now apply list_elem_of_further.
Qed.

Lemma swap_remove_keeps {A} (idx : nat) (l : list A) (c x : A) :
  l !! idx = Some c -> x ∈ l -> x <> c -> x ∈ swap_remove idx l.
Proof.
  intros Hc Hx Hne. rewrite (swap_remove_delete idx l c Hc).
  rewrite delete_take_drop.
  rewrite <- (take_drop_middle l idx c Hc) in Hx.
  apply elem_of_app in Hx as [Hx|Hx]; apply elem_of_app; [now left|right].
  apply elem_of_cons in Hx as [Hx|Hx]; [congruence|assumption].
Qed.

Lemma swap_remove_length {A} (idx : nat) (l : list A) (c : A) :
  l !! idx = Some c -> S (length (swap_remove idx l)) = length l.
Proof.
  intros Hc. rewrite (Permutation_length (swap_remove_delete idx l c Hc)).
  rewrite length_delete by eauto.
  apply lookup_lt_Some in Hc. lia.
Qed.

Lemma stores_eq (w w' : World) :
  stores w' = stores w ->
  txns w' = txns w /\ cats w' = cats w /\ budgets w' = budgets w.
Proof. unfold stores. intros H. now inversion H. Qed.

Lemma stores_eq3 (w' : World) (T : TxnStore) (C : CatStore) (B : BudgetStore) :
  stores w' = (T, C, B) -> txns w' = T /\ cats w' = C /\ budgets w' = B.
Proof. unfold stores. intros H. now inversion H. Qed.

(** The entry that a lookup by id finds. *)
Lemma find_category_index_found (id : Z) (w : World) :
  0 <= find_category_index_by_id id w ->
  exists c, cat_data (cats w) !! Z.to_nat (find_category_index_by_id id w) = Some c
            /\ c_id c = id.
Proof.
  intros H. unfold find_category_index_by_id in *.
  destruct (find_index_lookup (fun c => c_id c =? id) (cat_data (cats w)) 0)
    as (c & Hc & Hp); [lia|lia|].
  rewrite Z.sub_0_r in Hc. exists c. split; [assumption|lia].
Qed.

Lemma find_txn_index_found (id : Z) (w : World) :
  0 <= find_txn_index_by_id id w ->
  exists t, txn_data (txns w) !! Z.to_nat (find_txn_index_by_id id w) = Some t
            /\ t_id t = id.
Proof.
  intros H. unfold find_txn_index_by_id in *.
  destruct (find_index_lookup (fun t => t_id t =? id) (txn_data (txns w)) 0)
    as (t & Ht & Hp); [lia|lia|].
  rewrite Z.sub_0_r in Ht. exists t. split; [assumption|lia].
Qed.

Lemma refs_ok_stores (w w' : World) : stores w' = stores w -> refs_ok w -> refs_ok w'.
Proof.
  intros H Hr. apply stores_eq in H as (Ht & Hc & _).
  unfold refs_ok, find_category_by_id in *. rewrite Ht, Hc. exact Hr.
Qed.

Lemma remove_category_refs (w : World) : refs_ok w -> refs_ok (exec remove_category w).
Proof.
  intros H. pose proof (remove_category_stores w) as E. cbv zeta in E.
  set (id := fst (input_int (stdin w))) in *.
  destruct (Z.ltb_spec (find_category_index_by_id id w) 0) as [|Hidx];
    [now apply (refs_ok_stores w)|].
  destruct (existsb _ (txn_data (txns w))) eqn:Hused;
    [now apply (refs_ok_stores w)|].
  simpl in E. apply stores_eq3 in E as (Ht & Hc & _).
  destruct (find_category_index_found id w Hidx) as (c & Hlook & Hcid).
  unfold refs_ok, find_category_by_id in *. rewrite Ht, Hc. cbn [cat_data].
  intros t Hin. specialize (H t Hin).
  apply existsb_exists in H as (x & Hx & Hxid).
  apply existsb_exists. exists x. split; [|assumption].
  apply list_elem_of_In. eapply swap_remove_keeps; [exact Hlook|now apply list_elem_of_In|].
  intros ->. 
  assert (Hn : existsb (fun t => t_category_id t =? id) (txn_data (txns w)) = true).
  { apply existsb_exists. exists t. split; [now apply list_elem_of_In|lia]. }
  congruence.
Qed.

Lemma remove_transaction_refs (w : World) :
  refs_ok w -> refs_ok (exec remove_transaction w).
Proof.
  intros H. pose proof (remove_transaction_stores w) as E. cbv zeta in E.
  set (id := fst (input_int (stdin w))) in *.
  destruct (Z.ltb_spec (find_txn_index_by_id id w) 0) as [|Hidx];
    [now apply (refs_ok_stores w)|].
  apply stores_eq3 in E as (Ht & Hc & _).
  destruct (find_txn_index_found id w Hidx) as (t0 & Hlook & _).
  unfold refs_ok, find_category_by_id in *. rewrite Ht, Hc. cbn [txn_data].
  intros t Hin. apply H. eapply swap_remove_elem_of; eassumption.
Qed.

Lemma existsb_alter_name (id : Z) (f : string) (i : nat) (l : list Category) :
  existsb (fun c => c_id c =? id) (alter (with_name f) i l)
  = existsb (fun c => c_id c =? id) l.
Proof.
  revert i. induction l as [|c l IH]; intros [|i]; try reflexivity.
  change (alter (with_name f) (S i) (c :: l)) with (c :: alter (with_name f) i l).
  simpl. now rewrite IH.
Qed.

Lemma edit_category_refs (w : World) : refs_ok w -> refs_ok (exec edit_category w).
Proof.
  intros H. pose proof (edit_category_stores w) as E.
  destruct (input_int (stdin w)) as [id r]. cbv zeta in E.
  destruct (_ || _); [now apply (refs_ok_stores w)|].
  apply stores_eq3 in E as (Ht & Hc & _).
  unfold refs_ok, find_category_by_id in *. rewrite Ht, Hc. cbn [cat_data].
  intros t Hin. rewrite existsb_alter_name. now apply H.
Qed.

Lemma set_budget_stores (w : World) :
  txns (exec set_budget w) = txns w /\ cats (exec set_budget w) = cats w.
Proof.
  pose proof (set_budget_world w) as E.
  destruct (budget_inputs (stdin w)) as [[[[cid year] month] amt] r].
  destruct E as (out & r' & -> & _). now split.
Qed.

Lemma set_budget_refs (w : World) : refs_ok w -> refs_ok (exec set_budget w).
Proof.
  intros H. destruct (set_budget_stores w) as [Ht Hc].
  unfold refs_ok, find_category_by_id in *. rewrite Ht, Hc. exact H.
Qed.

Lemma edit_transaction_refs (w : World) :
  refs_ok w -> refs_ok (exec edit_transaction w).
Proof.
  intros H. pose proof (edit_transaction_world w) as E.
  destruct (edit_inputs (stdin w)) as [[[[[[id date] tp] a] cid] note] r].
  destruct E as (r' & out & ->).
  unfold refs_ok, find_category_by_id in *. wsimpl.
  destruct (find_txn_index_by_id id w <? 0); [exact H|].
  intros t Hin. apply list_elem_of_lookup in Hin as [i Hi].
  destruct (decide (i = Z.to_nat (find_txn_index_by_id id w))) as [->|Hne].
  - rewrite list_lookup_alter_eq in Hi.
    apply fmap_Some in Hi as (t0 & E0 & ->).
    assert (H0 : existsb (fun c => c_id c =? t_category_id t0) (cat_data (cats w)) = true)
      by (apply H; eapply list_elem_of_lookup_2; exact E0).
    unfold edit_fields.
    destruct (negb (cid =? 0) && find_category_by_id cid w) eqn:Hcid.
    + apply andb_true_iff in Hcid as [_ Hcid]. unfold find_category_by_id in Hcid.
      destruct (negb (strlen note =? 0)); exact Hcid.
    + destruct (parse_date date), ((tp =? 0) || (tp =? 1)), (amount_ltb (Q2Qc 0) a),
        (negb (strlen note =? 0)); exact H0.
  - rewrite list_lookup_alter_ne in Hi by congruence.
    apply H. eapply list_elem_of_lookup_2; exact Hi.
Qed.
(** ** Invariants of the stores under the menu *)

Section IoOnly.
Context `{LC : Layout Category} `{LT : Layout Transaction} `{LB : Layout BudgetEntry}.

Lemma save_all_stores : respects (unchanged stores) save_all.
Proof. unfold save_all, save_binary_file. unchanged_steps. Qed.

End IoOnly.

Lemma list_categories_stores : respects (unchanged stores) list_categories.
Proof. unfold list_categories. unchanged_steps. Qed.

Lemma list_transactions_stores (sd ed : option string) :
  respects (unchanged stores) (list_transactions sd ed).
Proof. unfold list_transactions. unchanged_steps. Qed.

Lemma list_budgets_stores : respects (unchanged stores) list_budgets.
Proof. unfold list_budgets. unchanged_steps. Qed.

Lemma monthly_summary_stores (y m : Z) : respects (unchanged stores) (monthly_summary y m).
Proof. unfold monthly_summary. unchanged_steps. Qed.

Lemma category_summary_stores (y m : Z) : respects (unchanged stores) (category_summary y m).
Proof. unfold category_summary. unchanged_steps. Qed.

Lemma budget_report_stores (y m : Z) : respects (unchanged stores) (budget_report y m).
Proof. unfold budget_report. unchanged_steps. Qed.

Lemma export_csv_stores (path : string) : respects (unchanged stores) (export_csv path).
Proof. unfold export_csv. unchanged_steps. Qed.

Lemma search_transactions_stores : respects (unchanged stores) search_transactions.
Proof. unfold search_transactions. unchanged_steps. Qed.

Lemma toggle_obfuscation_stores : respects (unchanged stores) toggle_obfuscation.
Proof. unfold toggle_obfuscation. unchanged_steps. Qed.

Ltac stores_ops :=
  lazymatch goal with
  | |- respects _ list_categories => apply list_categories_stores
  | |- respects _ (list_transactions _ _) => apply list_transactions_stores
  | |- respects _ list_budgets => apply list_budgets_stores
  | |- respects _ (monthly_summary _ _) => apply monthly_summary_stores
  | |- respects _ (category_summary _ _) => apply category_summary_stores
  | |- respects _ (budget_report _ _) => apply budget_report_stores
  | |- respects _ (export_csv _) => apply export_csv_stores
  | |- respects _ search_transactions => apply search_transactions_stores
  | |- respects _ toggle_obfuscation => apply toggle_obfuscation_stores
  | |- respects _ save_all => apply save_all_stores
  | |- respects _ (read_line _) => apply read_line_unchanged; reflexivity
  | |- respects _ read_int => apply read_int_unchanged; reflexivity
  | |- respects _ read_double => apply read_double_unchanged; reflexivity
  end.

Section Invariant.
Variable Inv : World -> Prop.
Hypothesis Inv_stores : forall w w', stores w' = stores w -> Inv w -> Inv w'.
Hypothesis Inv_add_transaction : forall w, Inv w -> Inv (exec add_transaction w).
Hypothesis Inv_edit_transaction : forall w, Inv w -> Inv (exec edit_transaction w).
Hypothesis Inv_remove_transaction : forall w, Inv w -> Inv (exec remove_transaction w).
Hypothesis Inv_add_category : forall w, Inv w -> Inv (exec add_category w).
Hypothesis Inv_edit_category : forall w, Inv w -> Inv (exec edit_category w).
Hypothesis Inv_remove_category : forall w, Inv w -> Inv (exec remove_category w).
Hypothesis Inv_set_budget : forall w, Inv w -> Inv (exec set_budget w).
Hypothesis Inv_import_line :
  forall line lineno w, Inv w -> Inv (exec (import_line line lineno) w).

Lemma keeps_unchanged {A} (m : M A) :
  respects (unchanged stores) m -> respects (keeps Inv) m.
Proof. intros H w HInv. eapply Inv_stores; [apply H|exact HInv]. Qed.

Ltac keeps_leaf :=
  lazymatch goal with
  | |- respects _ add_transaction => exact Inv_add_transaction
  | |- respects _ edit_transaction => exact Inv_edit_transaction
  | |- respects _ remove_transaction => exact Inv_remove_transaction
  | |- respects _ add_category => exact Inv_add_category
  | |- respects _ edit_category => exact Inv_edit_category
  | |- respects _ remove_category => exact Inv_remove_category
  | |- respects _ set_budget => exact Inv_set_budget
  | |- respects _ (import_line _ _) => exact (Inv_import_line _ _)
  | |- keeps _ _ _ => intros HInv; eapply Inv_stores; [|exact HInv]; reflexivity
  | |- respects _ _ => apply keeps_unchanged; stores_ops
  end.

Ltac keeps_steps leaf :=
  respects_steps (keeps_refl Inv) (keeps_trans Inv) ltac:(first [keeps_leaf | leaf]).

Lemma import_lines_keeps (turns : nat) (inp : string) (lineno : Z) :
  respects (keeps Inv) (import_lines turns inp lineno).
Proof.
  revert inp lineno. induction turns as [|n IH]; intros inp lineno; simpl.
  - apply (respects_ret _ (keeps_refl Inv)).
  - destruct (fgets 1024 inp) as [[line rest]|];
      [|apply (respects_ret _ (keeps_refl Inv))].
    apply (respects_bind _ (keeps_trans Inv)); [|intros _; apply IH].
    destruct (lineno + 1 =? 1); [apply (respects_ret _ (keeps_refl Inv))|].
    exact (Inv_import_line _ _).
Qed.

Lemma import_csv_keeps (path : string) : respects (keeps Inv) (import_csv path).
Proof. unfold import_csv. keeps_steps ltac:(apply import_lines_keeps). Qed.

Section MenuInvariant.
Context `{LC : Layout Category} `{LT : Layout Transaction} `{LB : Layout BudgetEntry}.

Lemma menu_action_keeps (c : Z) : respects (keeps Inv) (menu_action c).
Proof. unfold menu_action. keeps_steps ltac:(apply import_csv_keeps). Qed.

Lemma interactive_menu_loop_keeps (turns : nat) :
  respects (keeps Inv) (interactive_menu_loop turns).
Proof.
  induction turns as [|n IH]; cbn [interactive_menu_loop].
  - apply (respects_ret _ (keeps_refl Inv)).
  - keeps_steps ltac:(first [apply menu_action_keeps | exact IH]).
Qed.

End MenuInvariant.
End Invariant.
(** ** The ids of the stores *)







Lemma edit_fields_id (w : World) (date : string) (tp : Z) (a : Qc) (cid : Z)
    (note : string) (t : Transaction) :
  t_id (edit_fields w date tp a cid note t) = t_id t.
Proof.
  unfold edit_fields.
  destruct (parse_date date), ((tp =? 0) || (tp =? 1)), (amount_ltb (Q2Qc 0) a),
    (negb (cid =? 0) && find_category_by_id cid w), (negb (strlen note =? 0));
    reflexivity.
Qed.








(** ** The counters of the ids only grow *)











(** ** The capacities of the arrays *)

Lemma ensured_fits (cap size init : Z) :
  0 <= size <= cap -> 1 <= init -> size + 1 <= ensured cap size init.
Proof.
  intros H Hi. unfold ensured, grow.
  destruct (Z.ltb_spec cap (size + 1)); [|lia].
  destruct (Z.eqb_spec cap 0); lia.
Qed.

Lemma ensured_grows (cap size init : Z) :
  0 <= size <= cap -> 1 <= init -> cap <= ensured cap size init.
Proof.
  intros H Hi. unfold ensured, grow.
  destruct (Z.ltb_spec cap (size + 1)); [|lia].
  destruct (Z.eqb_spec cap 0); lia.
Qed.

Lemma capacity_ok_stores (w w' : World) :
  stores w' = stores w -> capacity_ok w -> capacity_ok w'.
Proof.
  intros H Hr. apply stores_eq in H as (Ht & Hc & Hb).
  unfold capacity_ok in *. now rewrite Ht, Hc, Hb.
Qed.

Lemma category_added_fits (name : string) (c : CatStore) :
  cat_size c <= cat_cap c ->
  cat_size (category_added name c) <= cat_cap (category_added name c).
Proof.
  intros H. unfold category_added. destruct (strlen name =? 0); [assumption|].
  unfold category_pushed, cat_size in *. cbn [cat_data cat_cap].
  rewrite length_app. simpl.
  pose proof (ensured_fits (cat_cap c) (Z.of_nat (length (cat_data c))) 8). lia.
Qed.

Lemma add_category_capacity (w : World) :
  capacity_ok w -> capacity_ok (exec add_category w).
Proof.
  intros (Ht & Hc & Hb). unfold exec. destruct (add_category_world w) as (out & ->).
  unfold capacity_ok. wsimpl. repeat split; [assumption| |assumption].
  now apply category_added_fits.
Qed.

Lemma edit_category_capacity (w : World) :
  capacity_ok w -> capacity_ok (exec edit_category w).
Proof.
  intros H. pose proof (edit_category_stores w) as E.
  destruct (input_int (stdin w)) as [id r]. cbv zeta in E.
  destruct (_ || _); [now apply (capacity_ok_stores w)|].
  apply stores_eq3 in E as (Ht & Hc & Hb). destruct H as (H1 & H2 & H3).
  unfold capacity_ok. rewrite Ht, Hc, Hb. repeat split; [assumption| |assumption].
  unfold cat_size in *. cbn [cat_data cat_cap]. now rewrite length_alter.
Qed.

Lemma remove_category_capacity (w : World) :
  capacity_ok w -> capacity_ok (exec remove_category w).
Proof.
  intros H. pose proof (remove_category_stores w) as E. cbv zeta in E.
  set (id := fst (input_int (stdin w))) in *.
  destruct (Z.ltb_spec (find_category_index_by_id id w) 0) as [|Hidx];
    [now apply (capacity_ok_stores w)|].
  destruct (existsb _ (txn_data (txns w))); [now apply (capacity_ok_stores w)|].
  simpl in E. apply stores_eq3 in E as (Ht & Hc & Hb).
  destruct (find_category_index_found id w Hidx) as (c & Hlook & _).
  destruct H as (H1 & H2 & H3).
  unfold capacity_ok. rewrite Ht, Hc, Hb. repeat split; [assumption| |assumption].
  unfold cat_size in *. cbn [cat_data cat_cap].
  pose proof (swap_remove_length _ _ _ Hlook). lia.
Qed.

Lemma remove_transaction_capacity (w : World) :
  capacity_ok w -> capacity_ok (exec remove_transaction w).
Proof.
  intros H. pose proof (remove_transaction_stores w) as E. cbv zeta in E.
  set (id := fst (input_int (stdin w))) in *.
  destruct (Z.ltb_spec (find_txn_index_by_id id w) 0) as [|Hidx];
    [now apply (capacity_ok_stores w)|].
  apply stores_eq3 in E as (Ht & Hc & Hb).
  destruct (find_txn_index_found id w Hidx) as (t0 & Hlook & _).
  destruct H as (H1 & H2 & H3).
  unfold capacity_ok. rewrite Ht, Hc, Hb. repeat split; [|assumption|assumption].
  unfold txn_size in *. cbn [txn_data txn_cap].
  pose proof (swap_remove_length _ _ _ Hlook). lia.
Qed.

Lemma budget_set_fits (cid year month : Z) (amt : Qc) (b : BudgetStore) :
  bud_size b <= bud_cap b ->
  bud_size (budget_set cid year month amt b) <= bud_cap (budget_set cid year month amt b).
Proof.
  intros H. unfold budget_set.
  destruct (0 <=? find_index _ (bud_data b) 0); unfold bud_size in *;
    cbn [bud_data bud_cap].
  - now rewrite length_alter.
  - rewrite length_app. simpl.
    pose proof (ensured_fits (bud_cap b) (Z.of_nat (length (bud_data b))) 8). lia.
Qed.

Lemma set_budget_capacity (w : World) :
  capacity_ok w -> capacity_ok (exec set_budget w).
Proof.
  intros (H1 & H2 & H3). pose proof (set_budget_world w) as E.
  destruct (budget_inputs (stdin w)) as [[[[cid year] month] amt] r].
  destruct E as (out & r' & -> & _).
  unfold capacity_ok. wsimpl. repeat split; [assumption|assumption|].
  destruct (_ && _); [now apply budget_set_fits|assumption].
Qed.

Lemma edit_transaction_capacity (w : World) :
  capacity_ok w -> capacity_ok (exec edit_transaction w).
Proof.
  intros (H1 & H2 & H3). pose proof (edit_transaction_world w) as E.
  destruct (edit_inputs (stdin w)) as [[[[[[id date] tp] a] cid] note] r].
  destruct E as (r' & out & ->).
  unfold capacity_ok. wsimpl. repeat split; [|assumption|assumption].
  unfold txn_size in *. cbn [txn_data txn_cap].
  destruct (find_txn_index_by_id id w <? 0); [assumption|now rewrite length_alter].
Qed.

Lemma add_transaction_capacity (w : World) :
  capacity_ok w -> capacity_ok (exec add_transaction w).
Proof.
  intros (H1 & H2 & H3).
  destruct (add_transaction_world w) as (data & c & r & out & -> & Hc & Hd).
  unfold capacity_ok. wsimpl. repeat split; [| |assumption].
  - unfold txn_size in *. cbn [txn_data txn_cap].
    pose proof (ensured_fits (txn_cap (txns w)) (Z.of_nat (length (txn_data (txns w)))) 16).
    destruct Hd as [->|(t & -> & _)]; [lia|].
    rewrite length_app. simpl. lia.
  - destruct Hc as [->|[name ->]]; [assumption|now apply category_added_fits].
Qed.

Lemma import_line_capacity (line : string) (lineno : Z) (w : World) :
  capacity_ok w -> capacity_ok (exec (import_line line lineno) w).
Proof.
  intros (H1 & H2 & H3). unfold exec.
  destruct (import_line_world line lineno w) as (T & C & out & -> & Hc & Hd).
  unfold capacity_ok. wsimpl. repeat split; [| |assumption].
  - destruct Hd as [[-> _]|(t & -> & _)]; [assumption|].
    unfold txn_size in *. cbn [txn_data txn_cap]. rewrite length_app. simpl.
    pose proof (ensured_fits (txn_cap (txns w)) (Z.of_nat (length (txn_data (txns w)))) 16).
    lia.
  - destruct Hc as [->|[name ->]]; [assumption|].
    unfold category_pushed, cat_size in *. cbn [cat_data cat_cap].
    rewrite length_app. simpl.
    pose proof (ensured_fits (cat_cap (cats w)) (Z.of_nat (length (cat_data (cats w)))) 8).
    lia.
Qed.
(** ** Operations that only print *)

Lemma only_prints_refl (w : World) : only_prints w w.
Proof.
  exists []. unfold set_stdout. now rewrite List.app_nil_r, world_eta.
Qed.

Lemma only_prints_trans (w1 w2 w3 : World) :
  only_prints w1 w2 -> only_prints w2 w3 -> only_prints w1 w3.
Proof.
  intros [o1 ->] [o2 ->]. exists (o1 ++ o2)%list. wsimpl.
  now rewrite List.app_assoc.
Qed.

Ltac prints_leaf :=
  cbv beta;
  lazymatch goal with
  | |- only_prints _ (set_stdout _ (stdout _ ++ ?o)) => exists o; reflexivity
  end.

Ltac prints_steps := respects_steps only_prints_refl only_prints_trans prints_leaf.

Lemma list_categories_prints : respects only_prints list_categories.
Proof. unfold list_categories. prints_steps. Qed.

Lemma list_transactions_prints (sd ed : option string) :
  respects only_prints (list_transactions sd ed).
Proof. unfold list_transactions. prints_steps. Qed.

Lemma list_budgets_prints : respects only_prints list_budgets.
Proof. unfold list_budgets. prints_steps. Qed.

Lemma monthly_summary_prints (y m : Z) : respects only_prints (monthly_summary y m).
Proof. unfold monthly_summary. prints_steps. Qed.

Lemma category_summary_prints (y m : Z) : respects only_prints (category_summary y m).
Proof. unfold category_summary. prints_steps. Qed.

Lemma budget_report_prints (y m : Z) : respects only_prints (budget_report y m).
Proof. unfold budget_report. prints_steps. Qed.
Lemma only_io_refl (w : World) : only_io w w.
Proof.
  exists [], (stdin w). unfold set_stdin, set_stdout. wsimpl.
  now rewrite List.app_nil_r, world_eta.
Qed.

Lemma only_io_trans (w1 w2 w3 : World) :
  only_io w1 w2 -> only_io w2 w3 -> only_io w1 w3.
Proof.
  intros (o1 & r1 & ->) (o2 & r2 & ->). exists (o1 ++ o2)%list, r2. wsimpl.
  now rewrite List.app_assoc.
Qed.

Lemma only_io_input (w : World) (r : string) : only_io w (set_stdin w r).
Proof.
  exists [], r. unfold set_stdin, set_stdout. wsimpl. now rewrite List.app_nil_r.
Qed.

Ltac io_leaf :=
  cbv beta;
  lazymatch goal with
  | |- only_io _ (set_stdout _ (stdout _ ++ ?o)) =>
      exists o; eexists; unfold set_stdin, set_stdout; wsimpl; reflexivity
  | |- respects _ (read_line _) => intros ?; rewrite read_line_run; apply only_io_input
  | |- respects _ read_int => intros ?; rewrite read_int_run; apply only_io_input
  | |- respects _ read_double => intros ?; rewrite read_double_run; apply only_io_input
  end.

Lemma search_transactions_io : respects only_io search_transactions.
Proof.
  unfold search_transactions.
  respects_steps only_io_refl only_io_trans io_leaf.
Qed.
(** ** Lines of the input *)

Lemma fgets_chars_line (n : nat) (l rest : string) :
  no_newline l = true -> (String.length l < n)%nat ->
  fgets_chars n (l ++ nl ++ rest) = (l ++ nl, rest).
Proof.
  revert n. induction l as [|c l IH]; intros n Hl Hn.
  - destruct n; [simpl in Hn; lia|]. reflexivity.
  - destruct n; [simpl in Hn; lia|].
    unfold no_newline in Hl. simpl in Hl. apply andb_true_iff in Hl as [Hc Hl].
    apply negb_true_iff in Hc.
    change ((String c l ++ nl ++ rest)%string) with (String c (l ++ nl ++ rest)).
    cbn [fgets_chars]. rewrite Hc, IH; [reflexivity|exact Hl|simpl in Hn; lia].
Qed.

Lemma fgets_chars_full (l rest : string) :
  no_newline l = true ->
  fgets_chars (String.length l) (l ++ rest) = (l, rest).
Proof.
  induction l as [|c l IH]; intros Hl.
  - simpl. now destruct rest.
  - unfold no_newline in Hl. simpl in Hl. apply andb_true_iff in Hl as [Hc Hl].
    apply negb_true_iff in Hc.
    change ((String c l ++ rest)%string) with (String c (l ++ rest)).
    cbn [fgets_chars String.length]. rewrite Hc, IH; [reflexivity|exact Hl].
Qed.

Lemma rstrip_eol_nl (l : string) : rstrip_eol (l ++ nl) = rstrip_eol l.
Proof.
  induction l as [|c l IH]; [reflexivity|].
  change ((String c l ++ nl)%string) with (String c (l ++ nl)).
  cbn [rstrip_eol]. now rewrite IH.
Qed.

Lemma rstrip_eol_length (s : string) :
  (String.length (rstrip_eol s) <= String.length s)%nat.
Proof.
  induction s as [|c s IH]; [simpl; lia|]. cbn [rstrip_eol].
  destruct (rstrip_eol s) as [|c' r].
  - destruct (is_eol c); simpl; lia.
  - simpl in *. lia.
Qed.

Lemma fgets_chars_length (n : nat) (inp : string) :
  (String.length (fst (fgets_chars n inp)) <= n)%nat.
Proof.
  revert inp. induction n as [|n IH]; intros inp; [destruct inp; simpl; lia|].
  destruct inp as [|c r]; [simpl; lia|]. cbn [fgets_chars].
  destruct (Ascii.eqb c LF); [simpl; lia|].
  specialize (IH r). destruct (fgets_chars n r). simpl in *. lia.
Qed.

Lemma no_newline_app (a b : string) :
  no_newline (a ++ b) = no_newline a && no_newline b.
Proof.
  unfold no_newline. induction a as [|c a IH]; [reflexivity|].
  simpl. rewrite IH. now rewrite andb_assoc.
Qed.

Lemma c_str_app (l r : string) :
  c_str (l ++ r) = if no_nul l then (l ++ c_str r)%string else c_str l.
Proof.
  induction l as [|c l IH]; [reflexivity|].
  change ((String c l ++ r)%string) with (String c (l ++ r)).
  unfold no_nul. cbn [c_str list_ascii_of_string forallb].
  destruct (Ascii.eqb c zero); [reflexivity|]. cbn [negb andb]. fold (no_nul l).
  rewrite IH. now destruct (no_nul l).
Qed.

Lemma c_str_no_nul (s : string) : no_nul s = true -> c_str s = s.
Proof.
  induction s as [|c s IH]; [reflexivity|].
  unfold no_nul in *. simpl. intros H. apply andb_true_iff in H as [Hc Hs].
  apply negb_true_iff in Hc. now rewrite Hc, IH.
Qed.

Lemma c_str_length (s : string) : (String.length (c_str s) <= String.length s)%nat.
Proof.
  induction s as [|c s IH]; [simpl; lia|]. cbn [c_str].
  destruct (Ascii.eqb c zero); simpl; lia.
Qed.

Lemma c_str_no_newline (s : string) :
  no_newline s = true -> no_newline (c_str s) = true.
Proof.
  induction s as [|c s IH]; [reflexivity|].
  unfold no_newline in *. simpl. intros H. apply andb_true_iff in H as [Hc Hs].
  destruct (Ascii.eqb c zero); [reflexivity|]. simpl. now rewrite Hc, IH.
Qed.

Lemma c_str_line (l : string) :
  c_str (l ++ nl) = (if no_nul l then l ++ nl else c_str l)%string.
Proof. now rewrite c_str_app. Qed.

Lemma fgets_chars_shape (n : nat) (inp : string) :
  exists l, no_newline l = true /\
            (fst (fgets_chars n inp) = l \/ fst (fgets_chars n inp) = (l ++ nl)%string).
Proof.
  revert inp. induction n as [|n IH]; intros inp.
  - exists EmptyString. split; [reflexivity|left; now destruct inp].
  - destruct inp as [|c r]; [exists EmptyString; split; [reflexivity|now left]|].
    cbn [fgets_chars]. destruct (Ascii.eqb c LF) eqn:Hc.
    + exists EmptyString. split; [reflexivity|right].
      apply Ascii.eqb_eq in Hc. now subst c.
    + destruct (IH r) as (l & Hl & Hs). destruct (fgets_chars n r) as [b r'].
      simpl in *. exists (String c l). split.
      * unfold no_newline in *. simpl. now rewrite Hc, Hl.
      * destruct Hs as [->| ->]; [now left|now right].
Qed.

Lemma rstrip_eol_no_newline (l : string) :
  no_newline l = true -> no_newline (rstrip_eol l) = true.
Proof.
  induction l as [|c l IH]; [reflexivity|].
  unfold no_newline in *. simpl. intros H. apply andb_true_iff in H as [Hc Hl].
  specialize (IH Hl). destruct (rstrip_eol l) as [|c' r].
  - destruct (is_eol c); [reflexivity|]. simpl. now rewrite Hc.
  - simpl in *. now rewrite Hc, IH.
Qed.

Lemma input_line_no_newline (sz : nat) (inp : string) :
  no_newline (fst (input_line sz inp)) = true.
Proof.
  unfold input_line, fgets. destruct inp as [|c r]; [reflexivity|].
  destruct (fgets_chars_shape (sz - 1) (String c r)) as (l & Hl & Hs).
  destruct (fgets_chars (sz - 1) (String c r)) as [b r']. simpl in *.
  destruct Hs as [->| ->].
  - now apply rstrip_eol_no_newline, c_str_no_newline.
  - rewrite c_str_line. destruct (no_nul l).
    + rewrite rstrip_eol_nl. now apply rstrip_eol_no_newline.
    + now apply rstrip_eol_no_newline, c_str_no_newline.
Qed.

Lemma input_line_length (sz : nat) (inp : string) :
  (String.length (fst (input_line sz inp)) <= sz - 1)%nat.
Proof.
  unfold input_line, fgets. destruct inp as [|c r]; [simpl; lia|].
  pose proof (fgets_chars_length (sz - 1) (String c r)).
  destruct (fgets_chars (sz - 1) (String c r)) as [b r']. simpl in *.
  pose proof (rstrip_eol_length (c_str b)). pose proof (c_str_length b). lia.
Qed.

Lemma input_line_buffer (sz : nat) (l rest : string) :
  no_newline l = true -> (String.length l + 2 <= sz)%nat ->
  input_line sz (l ++ nl ++ rest) = (rstrip_eol (c_str (l ++ nl)), rest).
Proof.
  intros Hl Hsz. unfold input_line, fgets.
  destruct (l ++ nl ++ rest)%string eqn:E; [destruct l; discriminate|].
  now rewrite <- E, fgets_chars_line by (assumption || lia).
Qed.

Lemma rstrip_eol_c_str_line (l : string) :
  rstrip_eol (c_str (l ++ nl)) = rstrip_eol (c_str l).
Proof.
  rewrite c_str_line. destruct (no_nul l) eqn:Hz; [|reflexivity].
  now rewrite rstrip_eol_nl, c_str_no_nul.
Qed.

Lemma input_line_cut (sz : nat) (l rest : string) :
  no_newline l = true -> (String.length l + 2 <= sz)%nat ->
  input_line sz (l ++ nl ++ rest) = (rstrip_eol (c_str l), rest).
Proof.
  intros Hl Hsz. rewrite input_line_buffer by assumption.
  now rewrite rstrip_eol_c_str_line.
Qed.

Lemma input_line_line (sz : nat) (l rest : string) :
  no_newline l = true -> no_nul l = true -> (String.length l + 2 <= sz)%nat ->
  input_line sz (l ++ nl ++ rest) = (rstrip_eol l, rest).
Proof.
  intros Hl Hz Hsz. rewrite input_line_cut by assumption.
  now rewrite c_str_no_nul.
Qed.

Lemma input_line_full_cut (sz : nat) (a rest : string) :
  no_newline a = true -> a <> EmptyString -> String.length a = (sz - 1)%nat ->
  input_line sz (a ++ rest) = (rstrip_eol (c_str a), rest).
Proof.
  intros Ha Hne Hsz. unfold input_line, fgets. rewrite <- Hsz.
  destruct (a ++ rest)%string eqn:E; [destruct a; [congruence|discriminate]|].
  now rewrite <- E, fgets_chars_full by assumption.
Qed.

Lemma input_line_full (sz : nat) (a rest : string) :
  no_newline a = true -> no_nul a = true -> a <> EmptyString ->
  String.length a = (sz - 1)%nat ->
  input_line sz (a ++ rest) = (rstrip_eol a, rest).
Proof.
  intros Ha Hz Hne Hsz. unfold input_line, fgets. rewrite <- Hsz.
  destruct (a ++ rest)%string eqn:E; [destruct a; [congruence|discriminate]|].
  rewrite <- E, fgets_chars_full by assumption. now rewrite c_str_no_nul.
Qed.
(** ** A date typed in full *)

Lemma isdigit_not_eol (c : ascii) : isdigit c = true -> is_eol c = false.
Proof.
  intros H. apply isdigit_range in H. unfold is_eol.
  destruct (Ascii.eqb_spec c LF) as [->|_]; [change (code LF) with 10 in H; lia|].
  destruct (Ascii.eqb_spec c CR) as [->|_]; [change (code CR) with 13 in H; lia|].
  reflexivity.
Qed.

Lemma isdigit_not_nul (c : ascii) : isdigit c = true -> Ascii.eqb c zero = false.
Proof.
  intros H. apply isdigit_range in H.
  destruct (Ascii.eqb_spec c zero) as [->|_]; [change (code zero) with 0 in H; lia|].
  reflexivity.
Qed.

Lemma canonical_date_no_nul (d : string) : canonical_date d = true -> no_nul d = true.
Proof.
  intros H. apply canonical_date_inv in H.
  destruct H as (y1 & y2 & y3 & y4 & m1 & m2 & d1 & d2 & -> & H).
  destruct H as (H1 & H2 & H3 & H4 & H5 & H6 & H7 & H8 & _).
  apply isdigit_not_nul in H1, H2, H3, H4, H5, H6, H7, H8.
  unfold no_nul. simpl. now rewrite H1, H2, H3, H4, H5, H6, H7, H8.
Qed.

Lemma canonical_date_line (d : string) :
  canonical_date d = true ->
  no_newline d = true /\ rstrip_eol d = d /\ String.length d = 10%nat.
Proof.
  intros H. apply canonical_date_inv in H.
  destruct H as (y1 & y2 & y3 & y4 & m1 & m2 & d1 & d2 & -> & H).
  destruct H as (H1 & H2 & H3 & H4 & H5 & H6 & H7 & H8 & _).
  apply isdigit_not_eol in H1, H2, H3, H4, H5, H6, H7, H8.
  unfold is_eol in *.
  apply orb_false_iff in H1 as [A1 B1], H2 as [A2 B2], H3 as [A3 B3], H4 as [A4 B4],
    H5 as [A5 B5], H6 as [A6 B6], H7 as [A7 B7], H8 as [A8 B8].
  split; [|split; [|reflexivity]].
  - unfold no_newline. simpl. rewrite A1, A2, A3, A4, A5, A6, A7, A8. reflexivity.
  - cbn [rstrip_eol]. unfold is_eol. rewrite A8, B8. reflexivity.
Qed.

Lemma input_int_blank (rest : string) : input_int (nl ++ rest) = (0, rest).
Proof.
  unfold input_int.
  change (nl ++ rest)%string with (EmptyString ++ nl ++ rest)%string.
  rewrite (input_line_line 64 EmptyString rest) by (reflexivity || simpl; lia).
  reflexivity.
Qed.

Lemma app_singleton_neq {A} (l : list A) (x : A) : l <> (l ++ [x])%list.
Proof.
  intros H. apply (f_equal length) in H. rewrite length_app in H. simpl in H. lia.
Qed.


Lemma map_alter_same {A B} (g : A -> B) (f : A -> A) (idx : nat) (l : list A) :
  (forall x, g (f x) = g x) -> map g (alter f idx l) = map g l.
Proof.
  intros Hf. revert idx. induction l as [|a l IH]; intros [|i]; try reflexivity.
  - change (alter f 0%nat (a :: l)) with (f a :: l). simpl. now rewrite Hf.
  - change (alter f (S i) (a :: l)) with (a :: alter f i l). simpl. now rewrite IH.
Qed.
(** ** The import appends *)

Lemma imported_refl (w : World) : imported w w.
Proof.
  exists [], []. rewrite !List.app_nil_r. repeat split; try constructor.
Qed.

Lemma imported_trans (w1 w2 w3 : World) :
  imported w1 w2 -> imported w2 w3 -> imported w1 w3.
Proof.
  intros (t1 & c1 & Ht1 & Hc1 & Hb1 & Hf1 & Hl1) (t2 & c2 & Ht2 & Hc2 & Hb2 & Hf2 & Hl2).
  exists (t1 ++ t2)%list, (c1 ++ c2)%list.
  rewrite Ht2, Ht1, Hc2, Hc1, Hb2, Hb1, !List.app_assoc.
  repeat split; [now apply Forall_app|]. rewrite !length_app. lia.
Qed.

Lemma parse_date_ten (d : string) : parse_date d = true -> strncpy 10 d = d.
Proof.
  unfold parse_date, strlen. intros H.
  destruct (Z.eqb_spec (Z.of_nat (String.length d)) 10) as [E|E]; [|discriminate].
  apply strncpy_all. lia.
Qed.

Lemma import_line_imported (line : string) (lineno : Z) :
  respects imported (import_line line lineno).
Proof.
  intros w.
  destruct (import_line_world line lineno w) as (T & C & out & -> & Hc & Hd).
  unfold imported. wsimpl.
  destruct Hd as [[-> ->]|(t & -> & _ & Hdate & _)];
    [|rewrite <- (parse_date_ten _ Hdate) in Hdate].
  - exists [], []. rewrite !List.app_nil_r. repeat split; constructor.
  - exists [t]. destruct Hc as [->|[name ->]].
    + exists []. rewrite List.app_nil_r. repeat split; [|simpl; lia].
      now constructor.
    + eexists [_]. repeat split; [|simpl; lia]. now constructor.
Qed.

Lemma import_lines_imported (turns : nat) (inp : string) (lineno : Z) :
  respects imported (import_lines turns inp lineno).
Proof.
  revert inp lineno. induction turns as [|n IH]; intros inp lineno; simpl.
  - apply (respects_ret _ imported_refl).
  - destruct (fgets 1024 inp) as [[line rest]|];
      [|apply (respects_ret _ imported_refl)].
    apply (respects_bind _ imported_trans); [|intros _; apply IH].
    destruct (lineno + 1 =? 1);
      [apply (respects_ret _ imported_refl)|apply import_line_imported].
Qed.

Lemma import_csv_imported (path : string) : respects imported (import_csv path).
Proof.
  unfold import_csv.
  respects_steps imported_refl imported_trans
    ltac:(idtac; lazymatch goal with
          | |- respects _ (import_lines _ _ _) => apply import_lines_imported
          | |- imported _ _ => cbv beta; exists [], []; rewrite !List.app_nil_r;
                               repeat split; constructor
          end).
Qed.

Lemma import_csv_io (path : string) :
  respects (unchanged (fun w => (files w, obfuscation w, stdin w))) (import_csv path).
Proof.
  unfold import_csv.
  respects_steps (unchanged_refl (fun w => (files w, obfuscation w, stdin w)))
                 (unchanged_trans (fun w => (files w, obfuscation w, stdin w)))
    ltac:(idtac; lazymatch goal with
          | |- respects _ (import_lines _ _ _) =>
              apply import_lines_unassigned; reflexivity
          | |- unchanged _ _ _ => reflexivity
          end).
Qed.
(** ** The counters after a load *)

Lemma max_id_fold {A} (id : A -> Z) (l : list A) (m : Z) :
  m <= fold_left (fun maxid x => if maxid <? id x then id x else maxid) l m /\
  forall x, x ∈ l ->
            id x <= fold_left (fun maxid x => if maxid <? id x then id x else maxid) l m.
Proof.
  revert m. induction l as [|a l IH]; intros m; simpl.
  - split; [lia|]. intros x Hx. now apply elem_of_nil in Hx.
  - destruct (IH (if m <? id a then id a else m)) as [H1 H2].
    destruct (Z.ltb_spec m (id a)); (split; [lia|]);
      intros x Hx; apply elem_of_cons in Hx as [->|Hx]; auto; lia.
Qed.

Lemma max_id_above {A} (id : A -> Z) (l : list A) :
  0 <= max_id id l /\ forall x, x ∈ l -> id x <= max_id id l.
Proof. apply max_id_fold. Qed.
(** ** Bytes under the key *)

Lemma lxor_byte (b k : Z) :
  0 <= b < 256 -> 0 <= k < 256 -> 0 <= Z.lxor b k < 256.
Proof.
  intros Hb Hk.
  assert (H0 : 0 <= Z.lxor b k) by (apply Z.lxor_nonneg; lia).
  split; [exact H0|].
  destruct (Z.eq_dec (Z.lxor b k) 0) as [->|Hne]; [lia|].
  change 256 with (2 ^ 8). apply Z.log2_lt_pow2; [lia|].
  pose proof (Z.log2_lxor b k ltac:(lia) ltac:(lia)) as Hl.
  assert (Hlb : Z.log2 b < 8).
  { destruct (Z.eq_dec b 0) as [->|]; [simpl; lia|].
    apply Z.log2_lt_pow2; [lia|]. change (2 ^ 8) with 256. lia. }
  assert (Hlk : Z.log2 k < 8).
  { destruct (Z.eq_dec k 0) as [->|]; [simpl; lia|].
    apply Z.log2_lt_pow2; [lia|]. change (2 ^ 8) with 256. lia. }
  lia.
Qed.

Lemma lxor_fixed (b k : Z) : Z.lxor b k = b -> k = 0.
Proof.
  intros H. apply (f_equal (Z.lxor b)) in H.
  now rewrite <- Z.lxor_assoc, Z.lxor_nilpotent, Z.lxor_0_l in H.
Qed.

Lemma int_value_low_byte (b0 b1 b2 b3 : Z) :
  0 <= b0 < 256 -> ABI.int_value [b0; b1; b2; b3] mod 256 = b0.
Proof.
  intros Hb. unfold ABI.int_value. cbn [ABI.le_value].
  set (X := b1 + 256 * (b2 + 256 * (b3 + 256 * 0))).
  destruct (b0 + 256 * X <? 2 ^ 31).
  - replace (b0 + 256 * X) with (b0 + X * 256) by lia.
    rewrite Z_mod_plus_full. now apply Z.mod_small.
  - replace (b0 + 256 * X - 2 ^ 32) with (b0 + (X - 2 ^ 24) * 256) by lia.
    rewrite Z_mod_plus_full. now apply Z.mod_small.
Qed.

Lemma int_value_under_key (id k : Z) :
  0 < k < 256 ->
  ABI.int_value (map (fun b => Z.lxor b k) (ABI.int_bytes id)) <> id.
Proof.
  intros Hk H. unfold ABI.int_bytes in H. cbn [ABI.le_bytes map] in H.
  apply (f_equal (fun z => z mod 256)) in H.
  assert (Hb : 0 <= id mod 256 < 256) by (apply Z.mod_pos_bound; lia).
  rewrite int_value_low_byte in H by (apply lxor_byte; lia).
  apply lxor_fixed in H. lia.
Qed.

Section MenuEndOfInput.
Context `{LC : Layout Category} `{LT : Layout Transaction} `{LB : Layout BudgetEntry}.

Lemma interactive_menu_end_of_input (w : World) :
  stdin w = EmptyString ->
  stores (exec interactive_menu w) = stores w /\
  files (exec interactive_menu w) = saved_files w /\
  stdin (exec interactive_menu w) = EmptyString.
Proof.
  intros E. unfold exec, interactive_menu. rewrite E.
  change (S (String.length "")) with 1%nat.
  rewrite interactive_menu_loop_turn. cbv zeta.
  rewrite read_int_end_of_input by exact E.
  change (0 =? 0) with true. cbv iota.
  fold (exec save_all (set_stdout w (stdout w ++ menu_text (obfuscate_enabled w)))).
  rewrite save_all_run. repeat split. exact E.
Qed.

End MenuEndOfInput.
(** * Properties of the operations and of the session *)

(** X1. Referential integrity is an invariant of the menu: when every
    transaction refers to a category of the store, the same holds after any
    action of the menu, so after an addition, an edit or a removal of a
    transaction or of a category, after an import, and after a whole session
    of the menu. *)
Theorem menu_keeps_references `{LC : Layout Category} `{LT : Layout Transaction}
    `{LB : Layout BudgetEntry} (c : Z) (w : World) :
  refs_ok w ->
  refs_ok (exec (menu_action c) w) /\ refs_ok (exec interactive_menu w).
Proof.
  intros H. split.
  - revert H. apply (menu_action_keeps refs_ok);
      first [ exact refs_ok_stores | exact add_transaction_refs
            | exact edit_transaction_refs | exact remove_transaction_refs
            | exact add_category_refs | exact edit_category_refs
            | exact remove_category_refs | exact set_budget_refs
            | exact import_line_refs ].
  - revert H. unfold exec, interactive_menu.
    apply (interactive_menu_loop_keeps refs_ok);
      first [ exact refs_ok_stores | exact add_transaction_refs
            | exact edit_transaction_refs | exact remove_transaction_refs
            | exact add_category_refs | exact edit_category_refs
            | exact remove_category_refs | exact set_budget_refs
            | exact import_line_refs ].
Qed.

Lemma menu_keeps_references_witness :
  refs_ok (food_world (typed ["Rent"])) /\
  refs_ok (exec (menu_action 5) (food_world (typed ["Rent"]))) /\
  refs_ok (exec interactive_menu (food_world (typed ["Rent"]))).
Proof.
  assert (H : refs_ok (food_world (typed ["Rent"]))).
  { intros t Ht. apply list_elem_of_singleton in Ht. subst t. reflexivity. }
  split; [exact H|]. exact (menu_keeps_references 5 _ H).
Defined.

Section MenuIds.
Context `{LC : Layout Category} `{LT : Layout Transaction} `{LB : Layout BudgetEntry}.






End MenuIds.



(** X3. The capacities are an invariant of the menu: when no array holds
    more elements than its capacity, the same holds after any action of the
    menu and after a whole session. *)
Theorem menu_keeps_capacity `{LC : Layout Category} `{LT : Layout Transaction}
    `{LB : Layout BudgetEntry} (c : Z) (w : World) :
  capacity_ok w ->
  capacity_ok (exec (menu_action c) w) /\ capacity_ok (exec interactive_menu w).
Proof.
  intros H. split.
  - revert H. apply (menu_action_keeps capacity_ok);
      first [ exact capacity_ok_stores | exact add_transaction_capacity
            | exact edit_transaction_capacity | exact remove_transaction_capacity
            | exact add_category_capacity | exact edit_category_capacity
            | exact remove_category_capacity | exact set_budget_capacity
            | exact import_line_capacity ].
  - revert H. unfold exec, interactive_menu.
    apply (interactive_menu_loop_keeps capacity_ok);
      first [ exact capacity_ok_stores | exact add_transaction_capacity
            | exact edit_transaction_capacity | exact remove_transaction_capacity
            | exact add_category_capacity | exact edit_category_capacity
            | exact remove_category_capacity | exact set_budget_capacity
            | exact import_line_capacity ].
Qed.

Lemma initial_world_capacity (inp : string) (now : tm) (fs : gmap string (list Z)) :
  capacity_ok (initial_world inp now fs).
Proof. unfold capacity_ok, txn_size, cat_size, bud_size. simpl. lia. Qed.

Lemma menu_keeps_capacity_witness :
  capacity_ok (initial_world (typed ["Food"]) sample_tm ∅) /\
  capacity_ok (exec (menu_action 5) (initial_world (typed ["Food"]) sample_tm ∅)) /\
  capacity_ok (exec interactive_menu (initial_world (typed ["Food"]) sample_tm ∅)).
Proof.
  split; [apply initial_world_capacity|].
  exact (menu_keeps_capacity 5 _ (initial_world_capacity _ _ _)).
Defined.

(** X4. Nothing is written to a file before the exit: an action of the
    menu other than the export (choice 9) leaves every file as it was, and
    an action other than the toggle (choice 12) leaves the flag and the key
    of the obfuscation as they were. *)
Theorem menu_action_writes_no_file `{LC : Layout Category} `{LT : Layout Transaction}
    `{LB : Layout BudgetEntry} (c : Z) (w : World) :
  (c <> 9 -> files (exec (menu_action c) w) = files w) /\
  (c <> 12 -> obfuscation (exec (menu_action c) w) = obfuscation w).
Proof.
  split; intros Hc.
  - apply (menu_action_unassigned files); try reflexivity; intros; congruence.
  - apply (menu_action_unassigned obfuscation); try reflexivity; intros; congruence.
Qed.

Lemma menu_action_writes_no_file_witness :
  files (exec (menu_action 5) (food_world (typed ["Rent"]))) = ∅ /\
  obfuscation (exec (menu_action 5) (food_world (typed ["Rent"]))) = (false, 0).
Proof.
  destruct (menu_action_writes_no_file 5 (food_world (typed ["Rent"]))) as [Hf Hk].
  split; [apply Hf; lia|apply Hk; lia].
Defined.

(** X5. The menu ends: a turn that does not leave consumes input, so the
    turns given to the loop (one more than the length of the input) are
    enough and more turns change nothing; and at the end of the input the
    choice reads as 0, on which the program saves the stores and leaves the
    menu with the stores as they were. *)
Theorem interactive_menu_ends `{LC : Layout Category} `{LT : Layout Transaction}
    `{LB : Layout BudgetEntry} (w : World) :
  (forall n, (String.length (stdin w) < n)%nat ->
             interactive_menu_loop n w = interactive_menu w) /\
  (stdin w = EmptyString ->
   stores (exec interactive_menu w) = stores w /\
   files (exec interactive_menu w) = saved_files w).
Proof.
  split.
  - intros n Hn. unfold interactive_menu.
    apply interactive_menu_loop_more; [exact Hn|lia].
  - intros E. destruct (interactive_menu_end_of_input w E) as (H1 & H2 & _).
    now split.
Qed.

Lemma interactive_menu_ends_witness :
  interactive_menu_loop 9 (food_world (typed ["5"; "Rent"]))
  = interactive_menu (food_world (typed ["5"; "Rent"])) /\
  stores (exec interactive_menu (food_world "")) = stores (food_world "") /\
  files (exec interactive_menu (food_world "")) = saved_files (food_world "").
Proof.
  split.
  - apply (proj1 (interactive_menu_ends (food_world (typed ["5"; "Rent"])))).
    simpl. lia.
  - apply (proj2 (interactive_menu_ends (food_world ""))). reflexivity.
Defined.

(** X6. The listings and the reports only print: after [list_categories],
    [list_transactions], [list_budgets], [monthly_summary],
    [category_summary] or [budget_report] the world is the one before with
    more output; [search_transactions] reads its criteria and prints, and
    changes nothing else. *)
Theorem listings_only_print (sd ed : option string) (y m : Z) (op : M unit)
    (w : World) :
  (In op [list_categories; list_transactions sd ed; list_budgets;
          monthly_summary y m; category_summary y m; budget_report y m] ->
   exists out, exec op w = set_stdout w (stdout w ++ out)) /\
  (exists out r,
     exec search_transactions w = set_stdin (set_stdout w (stdout w ++ out)) r).
Proof.
  split; [|apply search_transactions_io].
  intros Hop. simpl in Hop.
  destruct Hop as [<-|[<-|[<-|[<-|[<-|[<-|[]]]]]]].
  - apply list_categories_prints.
  - apply list_transactions_prints.
  - apply list_budgets_prints.
  - apply monthly_summary_prints.
  - apply category_summary_prints.
  - apply budget_report_prints.
Qed.

Lemma listings_only_print_witness :
  exists out,
    exec (category_summary 2024 3) (food_world "")
    = set_stdout (food_world "") (stdout (food_world "") ++ out).
Proof.
  apply (proj1 (listings_only_print None None 2024 3 (category_summary 2024 3)
                  (food_world ""))).
  simpl. tauto.
Defined.

(** X7. A line of the input that fits the buffer: [read_line] consumes
    the line with its newline and returns what [strlen] sees of it, the
    line up to its first NUL byte, without the line ends at the end of that
    (a carriage return before the newline is removed too).  For a line that
    holds no NUL byte this is the line without its line end. *)
Theorem read_line_takes_line (sz : nat) (l rest : string) (w : World) :
  stdin w = (l ++ nl ++ rest)%string ->
  no_newline l = true ->
  (String.length l + 2 <= sz)%nat ->
  read_line sz w = (rstrip_eol (c_str l), set_stdin w rest) /\
  (no_nul l = true -> read_line sz w = (rstrip_eol l, set_stdin w rest)).
Proof.
  intros Hin Hl Hsz. rewrite read_line_run, Hin.
  rewrite input_line_cut by assumption. split; [reflexivity|].
  intros Hz. now rewrite c_str_no_nul.
Qed.

Lemma read_line_takes_line_witness :
  let cut := ("Re" ++ String CR (String zero ("nt" ++ String CR "")))%string in
  read_line 64 (food_world (typed ["Rent" ++ String CR ""; "x"]))
  = ("Rent", set_stdin (food_world (typed ["Rent" ++ String CR ""; "x"])) (typed ["x"])) /\
  read_line 64 (food_world (typed [cut; "x"]))
  = ("Re", set_stdin (food_world (typed [cut; "x"])) (typed ["x"])).
Proof.
  intros cut. split.
  - apply (read_line_takes_line 64 ("Rent" ++ String CR "") (typed ["x"])).
    + reflexivity.
    + reflexivity.
    + simpl. lia.
    + reflexivity.
  - apply (read_line_takes_line 64 cut (typed ["x"])).
    + reflexivity.
    + reflexivity.
    + simpl. lia.
Defined.

(** X8. What [read_line] returns fits its buffer and holds no newline, for
    every input: the string has at most [sz - 1] characters; at the end of
    the input it is empty and the world is as it was. *)
Theorem read_line_fits (sz : nat) (w : World) :
  (String.length (fst (read_line sz w)) <= sz - 1)%nat /\
  no_newline (fst (read_line sz w)) = true /\
  (stdin w = EmptyString -> read_line sz w = (EmptyString, w)).
Proof.
  rewrite read_line_run. cbn [fst]. split; [apply input_line_length|].
  split; [apply input_line_no_newline|].
  intros E. rewrite E. cbn. unfold set_stdin. rewrite <- E. now rewrite world_eta.
Qed.

Lemma read_line_fits_witness :
  read_line 11 (food_world "") = (EmptyString, food_world "").
Proof.
  apply (proj2 (proj2 (read_line_fits 11 (food_world "")))). reflexivity.
Defined.

(** X9. A line that does not fit: when the input starts with [sz - 1]
    characters without a newline, [read_line] takes just these and leaves
    the rest of the line, with its newline, for the next read.  It returns
    what [strlen] sees of them, the characters up to the first NUL byte,
    without carriage returns at the end of that; when they hold no NUL
    byte, all of them. *)
Theorem read_line_truncates (sz : nat) (a rest : string) (w : World) :
  stdin w = (a ++ rest)%string ->
  no_newline a = true ->
  a <> EmptyString ->
  String.length a = (sz - 1)%nat ->
  read_line sz w = (rstrip_eol (c_str a), set_stdin w rest) /\
  (no_nul a = true -> read_line sz w = (rstrip_eol a, set_stdin w rest)).
Proof.
  intros Hin Ha Hne Hsz. rewrite read_line_run, Hin.
  rewrite input_line_full_cut by assumption. split; [reflexivity|].
  intros Hz. now rewrite c_str_no_nul.
Qed.

Lemma read_line_truncates_witness :
  read_line 11 (food_world (typed ["2024-03-15"; "1"]))
  = ("2024-03-15", set_stdin (food_world (typed ["2024-03-15"; "1"])) (typed [""; "1"])).
Proof.
  apply (read_line_truncates 11 "2024-03-15" (typed [""; "1"])).
  - reflexivity.
  - reflexivity.
  - discriminate.
  - reflexivity.
  - reflexivity.
Defined.

(** X10. A date typed in full at the prompt of [add_transaction] fills
    the buffer of eleven bytes, so its newline stays in the input: the
    prompt for the type reads that empty line, and the transaction that is
    added has the date typed, the type Expense whatever is typed next, and as
    its amount the number on the line after the date. *)
Theorem add_transaction_typed_date (w : World) (d rest : string) :
  canonical_date d = true ->
  stdin w = (d ++ nl ++ rest)%string ->
  forall t,
    txn_data (txns (exec add_transaction w)) = (txn_data (txns w) ++ [t])%list ->
    t_date t = d /\ t_type t = TYPE_EXPENSE /\ t_amount t = fst (input_double rest).
Proof.
  intros Hcan Hin t.
  destruct (canonical_date_line d Hcan) as (Hnl & Hstrip & Hlen).
  pose proof (parse_date_canonical d Hcan) as Hparse.
  assert (Hne : d <> EmptyString) by (destruct d; [discriminate|congruence]).
  unfold exec, add_transaction, txn_fresh_id, push_txn. mrun.
  rewrite ensure_txn_capacity_world. wsimpl.
  rewrite read_line_run. wsimpl. rewrite Hin.
  rewrite (input_line_full 11 d (nl ++ rest))
    by (assumption || (now apply canonical_date_no_nul) || (rewrite Hlen; reflexivity)).
  rewrite Hstrip. wsimpl.
  replace (strlen d =? 0) with false by (unfold strlen; rewrite Hlen; reflexivity).
  rewrite Hparse. wsimpl.
  rewrite read_int_run. wsimpl. rewrite input_int_blank. wsimpl.
  rewrite read_double_run. wsimpl.
  destruct (amount_leb _ (Q2Qc 0)); wsimpl;
    [intros H; now apply app_singleton_neq in H|].
  rewrite list_categories_run. wsimpl.
  destruct (cat_size (cats w) =? 0); wsimpl.
  - match goal with |- context [add_category ?W] =>
      destruct (add_category_world W) as (oc & ->) end. wsimpl.
    set (c := category_added _ _). clearbody c.
    destruct (cat_size c =? 0); wsimpl;
      [intros H; now apply app_singleton_neq in H|].
    rewrite read_int_run. wsimpl.
    unfold find_category_by_id at 1. wsimpl.
    match goal with |- context [existsb ?f (cat_data c)] =>
      destruct (existsb f (cat_data c)) end; wsimpl;
      [|intros H; now apply app_singleton_neq in H].
    rewrite read_line_run. wsimpl.
    intros H. apply app_inv_head in H. injection H as <-. now repeat split.
  - rewrite read_int_run. wsimpl.
    unfold find_category_by_id at 1. wsimpl.
    match goal with |- context [existsb ?f (cat_data (cats w))] =>
      destruct (existsb f (cat_data (cats w))) end; wsimpl;
      [|intros H; now apply app_singleton_neq in H].
    rewrite read_line_run. wsimpl.
    intros H. apply app_inv_head in H. injection H as <-. now repeat split.
Qed.

Lemma add_transaction_typed_date_witness :
  let w := food_world (typed ["2024-03-16"; "1"; "1"; "tea"]) in
  let t := mkTransaction 2 "2024-03-16" (Q2Qc (1 # 1)) 1 TYPE_EXPENSE "tea" in
  txn_data (txns (exec add_transaction w)) = [lunch; t] /\
  t_date t = "2024-03-16" /\ t_type t = TYPE_EXPENSE /\
  t_amount t = fst (input_double (typed ["1"; "1"; "tea"])).
Proof.
  intros w t.
  assert (H : txn_data (txns (exec add_transaction w))
              = (txn_data (txns w) ++ [t])%list) by (vm_compute; reflexivity).
  split; [exact H|].
  exact (add_transaction_typed_date w "2024-03-16" (typed ["1"; "1"; "tea"])
           eq_refl eq_refl t H).
Defined.

(** X11. The two lookups of a category agree: [find_category_by_id] finds
    an id exactly when [find_category_index_by_id] returns an index, which
    is then the index of the first category of the array with that id;
    otherwise the index is -1. *)
Theorem find_category_lookups_agree (id : Z) (w : World) :
  let i := find_category_index_by_id id w in
  (find_category_by_id id w = true <-> 0 <= i) /\
  (find_category_by_id id w = false <-> i = -1) /\
  (0 <= i ->
   exists c, cat_data (cats w) !! Z.to_nat i = Some c /\ c_id c = id /\
             forall j c', (j < Z.to_nat i)%nat ->
                          cat_data (cats w) !! j = Some c' -> c_id c' <> id).
Proof.
  intros i. subst i. unfold find_category_by_id, find_category_index_by_id.
  set (p := fun c => c_id c =? id). set (l := cat_data (cats w)).
  pose proof (find_index_none p l 0 ltac:(lia)) as Hnone.
  pose proof (find_index_range p l 0 ltac:(lia)) as Hrange.
  split; [|split].
  - destruct (existsb p l); split; intros H; try reflexivity; try discriminate.
    + destruct Hrange as [E|E]; [|lia]. apply Hnone in E. discriminate.
    + assert (find_index p l 0 = -1) by now apply Hnone. lia.
  - symmetry. exact Hnone.
  - intros Hi.
    destruct (find_index_lookup p l 0) as (c & Hc & Hp); [lia|lia|].
    rewrite Z.sub_0_r in Hc. exists c. split; [exact Hc|]. split; [subst p; simpl in Hp; lia|].
    clear Hnone Hrange Hc Hp c.
    assert (G : forall (k : list Category) (s : Z), 0 <= s -> 0 <= find_index p k s ->
                forall j c', (j < Z.to_nat (find_index p k s - s))%nat ->
                             k !! j = Some c' -> p c' = false).
    { induction k as [|x k IH]; intros s Hs Hf j c' Hj Hlook; [discriminate|].
      simpl in *. destruct (p x) eqn:Hx.
      - rewrite Z.sub_diag in Hj. simpl in Hj. lia.
      - destruct j as [|j]; [simpl in Hlook; congruence|].
        apply (IH (s + 1) ltac:(lia) Hf j c'); [|exact Hlook].
        destruct (find_index_range p k (s + 1)) as [E|E]; lia. }
    intros j c' Hj Hlook.
    specialize (G l 0 ltac:(lia) Hi j c'). rewrite Z.sub_0_r in G.
    specialize (G Hj Hlook). subst p. simpl in G. lia.
Qed.

Lemma find_category_lookups_agree_witness :
  exists c, cat_data (cats (world_of [] [Food; Rent] [] "")) !! 1%nat = Some c /\ c_id c = 2 /\
            forall j c', (j < 1)%nat ->
                         cat_data (cats (world_of [] [Food; Rent] [] "")) !! j = Some c' ->
                         c_id c' <> 2.
Proof.
  apply (proj2 (proj2 (find_category_lookups_agree 2 (world_of [] [Food; Rent] [] "")))).
  vm_compute. discriminate.
Defined.

(** X12. The removal of a transaction by the id read from the input: the
    categories, the budgets and the counter of the ids stay as they are; an
    id that no transaction has leaves the transactions as they are;
    otherwise the first transaction with the id is taken out and the last
    transaction of the array is moved to its place, and when the ids are
    unique the transactions left are exactly the others. *)
Theorem remove_transaction_removes (w : World) (id : Z) :
  fst (input_int (stdin w)) = id ->
  let w' := exec remove_transaction w in
  let idx := Z.to_nat (find_txn_index_by_id id w) in
  let l := txn_data (txns w) in
  cats w' = cats w /\ budgets w' = budgets w /\
  txn_next_id (txns w') = txn_next_id (txns w) /\
  (find_txn_index_by_id id w = -1 -> txns w' = txns w) /\
  (0 <= find_txn_index_by_id id w ->
   S (length (txn_data (txns w'))) = length l /\
   (forall j, (j < length l - 1)%nat ->
              txn_data (txns w') !! j
              = if decide (j = idx) then l !! (length l - 1)%nat else l !! j) /\
   (NoDup (map t_id l) ->
    forall t, t ∈ txn_data (txns w') <-> t ∈ l /\ t_id t <> id)).
Proof.
  intros Hid w' idx l. subst w' idx l.
  pose proof (remove_transaction_stores w) as E. cbv zeta in E. rewrite Hid in E.
  destruct (Z.ltb_spec (find_txn_index_by_id id w) 0) as [Hneg|Hidx].
  - apply stores_eq in E as (Ht & Hc & Hb). rewrite Ht, Hc, Hb.
    repeat split; try reflexivity; lia.
  - apply stores_eq3 in E as (Ht & Hc & Hb). rewrite Ht, Hc, Hb.
    cbn [txn_data txn_next_id].
    split; [reflexivity|]. split; [reflexivity|]. split; [reflexivity|].
    split; [lia|]. intros _.
    destruct (find_txn_index_found id w Hidx) as (t0 & Hlook & Ht0).
    set (idx := Z.to_nat (find_txn_index_by_id id w)) in *.
    set (l := txn_data (txns w)) in *.
    split; [now apply (swap_remove_length idx l t0)|]. split.
    + intros j Hj. unfold swap_remove.
      destruct (l !! (length l - 1)%nat) as [x|] eqn:Hlast.
      * rewrite lookup_take_lt by lia.
        destruct (decide (j = idx)) as [->|Hne].
        -- rewrite list_lookup_insert_eq by (apply lookup_lt_Some in Hlook; lia).
           reflexivity.
        -- now rewrite list_lookup_insert_ne by congruence.
      * apply lookup_ge_None in Hlast. lia.
    + intros Hnd t. split.
      * intros Hin. split; [eapply swap_remove_elem_of; eassumption|].
        rewrite (swap_remove_delete idx l t0 Hlook) in Hin.
        rewrite delete_take_drop in Hin.
        rewrite <- (take_drop_middle l idx t0 Hlook) in Hnd.
        rewrite map_app in Hnd. simpl in Hnd.
        apply list.NoDup_app in Hnd as (_ & H2 & H3).
        apply list.NoDup_cons in H3 as [H3 _].
        rewrite <- Ht0. intros Heq.
        apply elem_of_app in Hin as [Hin|Hin].
        -- apply (H2 (t_id t)); [apply list_elem_of_fmap; eauto|].
           rewrite Heq. apply list_elem_of_here.
        -- apply H3. rewrite <- Heq. apply list_elem_of_fmap. eauto.
      * intros [Hin Hne]. eapply swap_remove_keeps; [exact Hlook|exact Hin|].
        intros ->. congruence.
Qed.

Lemma remove_transaction_removes_witness :
  let w := world_of [lunch; refund; april] [Food] [] (typed ["1"]) in
  txn_data (txns (exec remove_transaction w)) !! 0%nat = Some april /\
  forall t, t ∈ txn_data (txns (exec remove_transaction w))
            <-> t ∈ [lunch; refund; april] /\ t_id t <> 1.
Proof.
  intros w.
  destruct (remove_transaction_removes w 1 eq_refl) as (_ & _ & _ & _ & H).
  destruct (H ltac:(vm_compute; discriminate)) as (_ & Hpos & Hset).
  split.
  - exact (Hpos 0%nat ltac:(simpl; lia)).
  - apply Hset. vm_compute.
    repeat (constructor; [rewrite ?elem_of_cons, ?elem_of_nil; intuition discriminate|]).
    constructor.
Defined.

(** X13. An edit of a transaction is local and takes what is typed: the
    categories, the budgets, the counter and the ids of the transactions
    stay as they are; an id that no transaction has changes nothing;
    otherwise only the first transaction with the id changes, and each of
    its fields is the value typed when that passes the test of the edit and
    the value before when it does not: the date typed when [parse_date]
    accepts it, the type typed when it is 0 or 1, the amount typed when it
    is above zero, the category id typed when it is not 0 and a category of
    the store has it, and the note typed when it is not blank.  A note of
    255 characters fills the field without a terminator, so the note is
    stated for the shorter ones. *)
Theorem edit_transaction_local (w : World) :
  let '(id, date, tp, a, cid, note, r) := edit_inputs (stdin w) in
  let w' := exec edit_transaction w in
  let idx := find_txn_index_by_id id w in
  cats w' = cats w /\ budgets w' = budgets w /\
  txn_next_id (txns w') = txn_next_id (txns w) /\
  map t_id (txn_data (txns w')) = map t_id (txn_data (txns w)) /\
  (idx = -1 -> txn_data (txns w') = txn_data (txns w)) /\
  (forall j, j <> Z.to_nat idx ->
             txn_data (txns w') !! j = txn_data (txns w) !! j) /\
  (forall t, 0 <= idx -> txn_data (txns w) !! Z.to_nat idx = Some t ->
     exists t', txn_data (txns w') !! Z.to_nat idx = Some t' /\
       t_id t' = t_id t /\
       t_date t' = (if parse_date date then date else t_date t) /\
       t_type t' = (if (tp =? 0) || (tp =? 1) then tp else t_type t) /\
       t_amount t' = (if amount_ltb (Q2Qc 0) a then a else t_amount t) /\
       t_category_id t'
       = (if negb (cid =? 0) && find_category_by_id cid w then cid
          else t_category_id t) /\
       ((String.length note < 255)%nat ->
        t_note t' = if strlen note =? 0 then t_note t else note)).
Proof.
  pose proof (edit_transaction_world w) as E.
  destruct (edit_inputs (stdin w)) as [[[[[[id date] tp] a] cid] note] r].
  destruct E as (r' & out & E). cbv zeta. rewrite E. wsimpl.
  split; [reflexivity|]. split; [reflexivity|]. split; [reflexivity|].
  destruct (Z.ltb_spec (find_txn_index_by_id id w) 0) as [Hneg|Hidx].
  - split; [reflexivity|]. split; [reflexivity|]. split; [reflexivity|].
    intros t Hge. lia.
  - split; [|split; [intros; lia|split]].
    + apply map_alter_same. intros t. apply edit_fields_id.
    + intros j Hj. rewrite list_lookup_alter_ne; [reflexivity|congruence].
    + intros t _ Ht. eexists. split.
      { rewrite list_lookup_alter_eq, Ht. reflexivity. }
      split; [apply edit_fields_id|].
      unfold edit_fields.
      destruct (parse_date date), ((tp =? 0) || (tp =? 1)),
        (amount_ltb (Q2Qc 0) a),
        (negb (cid =? 0) && find_category_by_id cid w),
        (strlen note =? 0);
        cbn [negb t_date t_amount t_category_id t_type t_note with_date with_type
             with_amount with_category_id with_note];
        repeat split; intros Hlen; try reflexivity; apply strncpy_all; lia.
Qed.

Lemma edit_transaction_local_witness :
  let w := world_of [lunch; refund] [Food] [] (typed ["2"; ""; "7"; "12.5"; "9"; "paid"]) in
  txn_data (txns (exec edit_transaction w)) !! 0%nat = Some lunch /\
  exists t', txn_data (txns (exec edit_transaction w)) !! 1%nat = Some t' /\
    t_id t' = 2 /\ t_date t' = "2024-03-31" /\ t_type t' = TYPE_INCOME /\
    t_amount t' = Q2Qc (25 # 2) /\ t_category_id t' = 1 /\ t_note t' = "paid".
Proof.
  intros w. pose proof (edit_transaction_local w) as H.
  destruct (edit_inputs (stdin w)) as [[[[[[id date] tp] a] cid] note] r] eqn:E.
  vm_compute in E. injection E as <- <- <- <- <- <- <-.
  cbv zeta in H.
  destruct H as (_ & _ & _ & _ & _ & Hother & Hedit).
  split.
  - exact (Hother 0%nat ltac:(vm_compute; discriminate)).
  - destruct (Hedit refund ltac:(vm_compute; discriminate) eq_refl)
      as (t' & Ht' & H1 & H2 & H3 & H4 & H5 & H6).
    exists t'. split; [exact Ht'|]. split; [exact H1|]. split; [exact H2|].
    split; [exact H3|]. split; [rewrite H4; apply Qc_is_canon; reflexivity|].
    split; [exact H5|]. apply H6. vm_compute. lia.
Defined.

(** X14. An edit of a category renames: the transactions, the budgets, the
    counter and the ids of the categories stay as they are, so every
    reference to the category stays valid; an id that no category has, or a
    blank name, changes nothing; otherwise the first category with the id
    takes the first 63 characters of the name typed. *)
Theorem edit_category_renames (w : World) :
  let id := fst (input_int (stdin w)) in
  let name := fst (input_line 64 (snd (input_int (stdin w)))) in
  let w' := exec edit_category w in
  let idx := find_category_index_by_id id w in
  txns w' = txns w /\ budgets w' = budgets w /\
  cat_next_id (cats w') = cat_next_id (cats w) /\
  map c_id (cat_data (cats w')) = map c_id (cat_data (cats w)) /\
  (idx = -1 \/ strlen name = 0 -> cats w' = cats w) /\
  (forall c, 0 <= idx -> strlen name <> 0 ->
             cat_data (cats w) !! Z.to_nat idx = Some c ->
             cat_data (cats w')
             = <[Z.to_nat idx := mkCategory (c_id c) (strncpy 63 name)]>
                 (cat_data (cats w))).
Proof.
  pose proof (edit_category_stores w) as E.
  destruct (input_int (stdin w)) as [id r]. cbv zeta in *. cbn [fst snd].
  destruct (Z.ltb_spec (find_category_index_by_id id w) 0) as [Hneg|Hidx];
    cbn [orb] in E.
  - apply stores_eq in E as (Ht & Hc & Hb). rewrite Ht, Hc, Hb.
    repeat split; try reflexivity. intros c Hge. lia.
  - destruct (Z.eqb_spec (strlen (fst (input_line 64 r))) 0) as [Hblank|Hname].
    + apply stores_eq in E as (Ht & Hc & Hb). rewrite Ht, Hc, Hb.
      repeat split; try reflexivity. intros c _ Hne. lia.
    + apply stores_eq3 in E as (Ht & Hc & Hb). rewrite Ht, Hc, Hb.
      cbn [cat_data cat_next_id].
      split; [reflexivity|]. split; [reflexivity|]. split; [reflexivity|].
      split; [now apply map_alter_same|]. split; [intros [H|H]; lia|].
      intros c _ _ Hlook.
      now rewrite (alter_lookup_insert _ _ _ c Hlook).
Qed.

Lemma edit_category_renames_witness :
  let w := world_of [lunch] [Food; Rent] [] (typed ["2"; "Housing"]) in
  cat_data (cats (exec edit_category w)) = [Food; mkCategory 2 "Housing"].
Proof.
  intros w.
  destruct (edit_category_renames w) as (_ & _ & _ & _ & _ & H).
  exact (H Rent ltac:(vm_compute; discriminate) ltac:(vm_compute; discriminate) eq_refl).
Defined.

(** X15. An import only appends: the transactions and the categories of
    the store before are all kept, in their places; the first ten characters
    of the date of every transaction that is appended are a date that
    [parse_date] accepts (the source copies ten characters into the field
    and leaves its eleventh byte as it was); a category is created only
    together with a transaction; the budgets, the files, the obfuscation and
    the input stay as they are.  Of a file that cannot be opened nothing is
    imported. *)
Theorem import_csv_appends (path : string) (w : World) :
  let w' := exec (import_csv path) w in
  (exists ts cs,
     txn_data (txns w') = (txn_data (txns w) ++ ts)%list /\
     cat_data (cats w') = (cat_data (cats w) ++ cs)%list /\
     budgets w' = budgets w /\
     Forall (fun t => parse_date (strncpy 10 (t_date t)) = true) ts /\
     (length cs <= length ts)%nat) /\
  files w' = files w /\ obfuscation w' = obfuscation w /\ stdin w' = stdin w /\
  (files w !! path = None -> stores w' = stores w).
Proof.
  intros w'. subst w'. split; [apply import_csv_imported|].
  pose proof (import_csv_io path w) as H. unfold unchanged in H.
  injection H as H1 H2 H3 H4.
  split; [exact H1|]. split; [unfold obfuscation, exec; now rewrite H2, H3|].
  split; [exact H4|].
  intros Hnone. unfold exec, import_csv. mrun. now rewrite Hnone.
Qed.

(** A file of three rows, the second with a date that is not one: two
    transactions and the category Fun are appended; and a path without a
    file. *)
Lemma import_csv_appends_witness :
  let rows := ["2024-05-01,0,3,Food,tea"; "May 2nd,0,1,Food,"; "2024-05-03,1,4,Fun,"] in
  let w := set_files (food_world "") {[ "in.csv" := csv_file rows ]} in
  let w' := exec (import_csv "in.csv") w in
  (exists ts cs,
     txn_data (txns w') = (txn_data (txns w) ++ ts)%list /\
     cat_data (cats w') = (cat_data (cats w) ++ cs)%list /\
     budgets w' = budgets w /\
     Forall (fun t => parse_date (strncpy 10 (t_date t)) = true) ts /\
     (length cs <= length ts)%nat) /\
  map t_date (txn_data (txns w')) = ["2024-03-15"; "2024-05-01"; "2024-05-03"] /\
  map c_name (cat_data (cats w')) = ["Food"; "Fun"] /\
  stores (exec (import_csv "none.csv") w) = stores w.
Proof.
  intros rows w w'.
  split; [exact (proj1 (import_csv_appends "in.csv" w))|].
  split; [vm_compute; reflexivity|]. split; [vm_compute; reflexivity|].
  apply (proj2 (proj2 (proj2 (proj2 (import_csv_appends "none.csv" w))))).
  vm_compute. reflexivity.
Defined.

(** X16. The validation of [set_budget]: the transactions and the
    categories stay as they are; an unknown category, a month outside 1 to
    12 or an amount below zero leaves the budgets as they are; a valid set
    on a key that has no entry appends the entry, whatever the year is and
    also with the amount zero. *)
Theorem set_budget_validates (w : World) :
  let '(cid, year, month, amt, r) := budget_inputs (stdin w) in
  let w' := exec set_budget w in
  txns w' = txns w /\ cats w' = cats w /\
  (find_category_by_id cid w = false \/ month < 1 \/ 12 < month \/ (amt < 0)%Qc ->
   budgets w' = budgets w) /\
  (find_category_by_id cid w = true -> 1 <= month <= 12 -> (0 <= amt)%Qc ->
   existsb (budget_key_eqb cid year month) (bud_data (budgets w)) = false ->
   bud_data (budgets w')
   = (bud_data (budgets w) ++ [mkBudgetEntry cid year month amt])%list).
Proof.
  pose proof (set_budget_world w) as E.
  destruct (budget_inputs (stdin w)) as [[[[cid year] month] amt] r].
  destruct E as (out & r' & E & _). cbv zeta. rewrite E. wsimpl.
  split; [reflexivity|]. split; [reflexivity|]. split.
  - intros H.
    assert (Hok : find_category_by_id cid w && (1 <=? month) && (month <=? 12)
                  && amount_leb (Q2Qc 0) amt = false).
    { destruct H as [H|[H|[H|H]]].
      - now rewrite H.
      - destruct (Z.leb_spec 1 month); [lia|]. now rewrite andb_false_r.
      - destruct (Z.leb_spec month 12); [lia|]. now rewrite andb_false_r.
      - destruct (amount_leb (Q2Qc 0) amt) eqn:Ha; [|now rewrite andb_false_r].
        apply amount_leb_le in Ha. now apply Qcle_not_lt in Ha. }
    now rewrite Hok.
  - intros Hc Hm Ha Hnew.
    destruct (Z.leb_spec 1 month); [|lia]. destruct (Z.leb_spec month 12); [|lia].
    apply amount_leb_le in Ha. rewrite Hc, Ha. cbn [andb].
    unfold budget_set.
    apply (find_index_none _ _ 0 ltac:(lia)) in Hnew. rewrite Hnew. reflexivity.
Qed.

Lemma set_budget_validates_witness :
  let w := world_of [] [Food] [march_budget] (typed ["1"; "-5"; "12"; "0"]) in
  bud_data (budgets (exec set_budget w))
  = [march_budget; mkBudgetEntry 1 (-5) 12 (Q2Qc 0)] /\
  budgets (exec set_budget (world_of [] [Food] [march_budget] (typed ["1"; "2024"; "13"])))
  = budgets (world_of [] [Food] [march_budget] (typed ["1"; "2024"; "13"])).
Proof.
  intros w. split.
  - pose proof (set_budget_validates w) as H.
    destruct (budget_inputs (stdin w)) as [[[[cid year] month] amt] r] eqn:E.
    vm_compute in E. injection E as <- <- <- <- <-.
    destruct H as (_ & _ & _ & H).
    exact (H eq_refl ltac:(lia) ltac:(discriminate) eq_refl).
  - pose proof (set_budget_validates
                  (world_of [] [Food] [march_budget] (typed ["1"; "2024"; "13"]))) as H.
    destruct (budget_inputs _) as [[[[cid year] month] amt] r] eqn:E.
    vm_compute in E. injection E as <- <- <- <- <-.
    destruct H as (_ & _ & H & _). apply H. right. right. left. lia.
Defined.

Lemma list_transactions_loop (sd ed : option string) (l : list Transaction)
    (w : World) :
  for_each l (fun t =>
      if match sd with
         | Some sd => compare_dates (t_date t) sd <? 0
         | None => false
         end then ret tt
      else if match ed with
              | Some ed => 0 <? compare_dates (t_date t) ed
              | None => false
              end then ret tt
      else
        cname <- gets (category_name (t_category_id t)) ;;
        printf ("  id=" ++ fmt_d (t_id t) ++ "  " ++ t_date t ++ "  "
                ++ type_tag (t_type t) ++ "  " ++ fmt_2f (t_amount t)
                ++ "  [" ++ cname ++ "]  " ++ t_note t ++ nl)) w
  = (tt, set_stdout w (stdout w
           ++ map (transaction_line w) (List.filter (in_range sd ed) l))).
Proof.
  revert w. induction l as [|t l IH]; intros w.
  - simpl. unfold ret, set_stdout. now rewrite List.app_nil_r, world_eta.
  - cbn [for_each List.filter]. unfold bind at 1. unfold in_range at 1.
    destruct (match sd with Some s => _ | None => false end).
    { cbn [negb andb]. unfold ret at 1. apply IH. }
    destruct (match ed with Some e => _ | None => false end).
    { cbn [negb andb]. unfold ret at 1. apply IH. }
    cbn [negb andb]. unfold bind at 1, gets at 1, printf, modify.
    rewrite IH. wsimpl. cbn [map]. rewrite <- List.app_assoc. reflexivity.
Qed.

(** X17. What [list_transactions] prints: for an empty store the line
    (none); otherwise, in the order of the store, one line for every
    transaction whose date is not below the start date and not above the end
    date in the order of [strcmp], both bounds included, an absent bound
    excluding nothing; nothing else of the world changes. *)
Theorem list_transactions_range (sd ed : option string) (w : World) :
  exec (list_transactions sd ed) w
  = set_stdout w
      (stdout w ++
       "Transactions:" ::
       if (length (txn_data (txns w)) =? 0)%nat then [" (none)" ++ nl]
       else nl :: map (transaction_line w)
                    (List.filter (in_range sd ed) (txn_data (txns w)))).
Proof.
  unfold exec, list_transactions. unfold bind at 1, printf at 1, modify at 1.
  unfold bind at 1, gets at 1. wsimpl.
  destruct (txn_data (txns w)) as [|t l] eqn:El.
  - change (Z.of_nat (length (@nil Transaction)) =? 0) with true.
    change (length (@nil Transaction) =? 0)%nat with true. cbv iota.
    unfold printf, modify. wsimpl. now rewrite <- List.app_assoc.
  - replace (Z.of_nat (length (t :: l)) =? 0) with false
      by (symmetry; apply Z.eqb_neq; simpl; lia).
    replace (length (t :: l) =? 0)%nat with false by reflexivity.
    unfold bind at 1, printf at 1, modify at 1. wsimpl.
    rewrite list_transactions_loop. wsimpl.
    rewrite <- !List.app_assoc. reflexivity.
Qed.

Section LoadCounters.
Context `{LC : Layout Category} `{LT : Layout Transaction} `{LB : Layout BudgetEntry}.

Lemma max_id_below {A} (id : A -> Z) (l : list A) :
  ids_fit id l = true -> max_id id l < INT_MAX.
Proof.
  unfold max_id, ids_fit.
  assert (G : forall m, m < INT_MAX -> forallb (fun x => id x <? INT_MAX) l = true ->
                fold_left (fun maxid x => if maxid <? id x then id x else maxid) l m
                < INT_MAX).
  { induction l as [|x l IH]; intros m Hm H; [exact Hm|].
    simpl in H. apply andb_prop in H as [Hx Hl]. apply Z.ltb_lt in Hx.
    simpl. apply IH; [|exact Hl]. destruct (m <? id x); assumption. }
  apply G. reflexivity.
Qed.

(** X18. The stores after [load_all] at the start of the program: no
    array holds more elements than its capacity; and when the ids of the
    records loaded into a store are all below [INT_MAX], so that the
    [maxid + 1] of the source does not overflow, the counter of the store is
    above zero, a value of [int], and above the id of every record loaded:
    an id given later is the id of no record of the files. *)
Theorem load_all_counters (w : World) :
  let w' := exec load_all (fresh w) in
  capacity_ok w' /\
  (ids_fit t_id (txn_data (txns w')) = true ->
   0 < txn_next_id (txns w') <= INT_MAX /\
   forall t, t ∈ txn_data (txns w') -> t_id t < txn_next_id (txns w')) /\
  (ids_fit c_id (cat_data (cats w')) = true ->
   0 < cat_next_id (cats w') <= INT_MAX /\
   forall c, c ∈ cat_data (cats w') -> c_id c < cat_next_id (cats w')).
Proof.
  intros w'. subst w'. rewrite load_all_run. cbv zeta.
  change (cats (fresh w)) with init_cats.
  change (txns (fresh w)) with init_txns.
  change (budgets (fresh w)) with init_budgets.
  set (cs := take 1024 (file_records (A := Category) CAT_FILE (fresh w))).
  set (ts := file_records (A := Transaction) TRAN_FILE (fresh w)).
  set (bs := take 1024 (file_records (A := BudgetEntry) BUD_FILE (fresh w))).
  set (T := match files (fresh w) !! TRAN_FILE with Some _ => _ | None => _ end).
  set (C := if (length cs =? 0)%nat then _ else _).
  set (B := if (length bs =? 0)%nat then _ else _).
  assert (HT : txn_size T <= txn_cap T /\
               (ids_fit t_id (txn_data T) = true ->
                0 < txn_next_id T <= INT_MAX /\
                forall t, t ∈ txn_data T -> t_id t < txn_next_id T)).
  { assert (H0 : txn_size init_txns <= txn_cap init_txns /\
                 (ids_fit t_id (txn_data init_txns) = true ->
                  0 < txn_next_id init_txns <= INT_MAX /\
                  forall t, t ∈ txn_data init_txns -> t_id t < txn_next_id init_txns)).
    { unfold txn_size, INT_MAX. simpl. repeat split; try lia.
      intros t Ht. now apply elem_of_nil in Ht. }
    subst T. destruct (files (fresh w) !! TRAN_FILE) as [content|]; [|exact H0].
    destruct (0 <? Z.of_nat (length content)); [|exact H0].
    destruct (max_id_above t_id ts) as [Hm Hx].
    unfold txn_size. cbn [txn_data txn_cap txn_next_id].
    split; [lia|]. intros Hfit. apply max_id_below in Hfit.
    repeat split; try lia. intros t Ht. specialize (Hx t Ht). lia. }
  assert (HC : cat_size C <= cat_cap C /\
               (ids_fit c_id (cat_data C) = true ->
                0 < cat_next_id C <= INT_MAX /\
                forall c, c ∈ cat_data C -> c_id c < cat_next_id C)).
  { subst C. destruct (length cs =? 0)%nat.
    - unfold cat_size, INT_MAX. simpl. repeat split; try lia.
      intros c Hc. now apply elem_of_nil in Hc.
    - destruct (max_id_above c_id cs) as [Hm Hx].
      unfold cat_size. cbn [cat_data cat_cap cat_next_id].
      split; [lia|]. intros Hfit. apply max_id_below in Hfit.
      repeat split; try lia. intros c Hc. specialize (Hx c Hc). lia. }
  assert (HB : bud_size B <= bud_cap B).
  { subst B. destruct (length bs =? 0)%nat; unfold bud_size; simpl; lia. }
  unfold capacity_ok. wsimpl. tauto.
Qed.

End LoadCounters.

(** The files that [save_all] writes of a store with the transaction
    lunch and the category Food, loaded at the next start. *)
Lemma load_all_counters_witness :
  let w := set_files (food_world "") (files (exec save_all (food_world ""))) in
  let w' := exec load_all (fresh w) in
  map t_id (txn_data (txns w')) = [1] /\ map c_id (cat_data (cats w')) = [1] /\
  txn_next_id (txns w') = 2 /\ cat_next_id (cats w') = 2 /\
  (forall t, t ∈ txn_data (txns w') -> t_id t < txn_next_id (txns w')) /\
  (forall c, c ∈ cat_data (cats w') -> c_id c < cat_next_id (cats w')).
Proof.
  intros w w'.
  destruct (load_all_counters w) as (_ & Ht & Hc). fold w' in Ht, Hc.
  split; [vm_compute; reflexivity|]. split; [vm_compute; reflexivity|].
  split; [vm_compute; reflexivity|]. split; [vm_compute; reflexivity|].
  split.
  - apply Ht. vm_compute. reflexivity.
  - apply Hc. vm_compute. reflexivity.
Defined.

(** X19. The toggle of the obfuscation: it leaves the stores and the files
    as they are, so no file is written again with the new setting; when the
    obfuscation is on it is turned off and the key is set to 0, without a
    question; when it is off it is turned on only on an answer that starts
    with y or Y followed by a key line that is not empty, and the key is the
    code of the first character of that line. *)
Theorem toggle_obfuscation_effect (w : World) :
  let w' := exec toggle_obfuscation w in
  let ans := fst (input_line 8 (stdin w)) in
  let k := fst (input_line 8 (snd (input_line 8 (stdin w)))) in
  stores w' = stores w /\ files w' = files w /\
  (obfuscate_enabled w = true -> obfuscation w' = (false, 0) /\ stdin w' = stdin w) /\
  (obfuscate_enabled w = false ->
   obfuscation w'
   = if (Ascii.eqb (first_char ans) "y" || Ascii.eqb (first_char ans) "Y")
        && negb (strlen k =? 0)
     then (true, code (first_char k)) else obfuscation w).
Proof.
  cbv zeta.
  split; [apply toggle_obfuscation_stores|].
  unfold exec, toggle_obfuscation. mrun.
  destruct (obfuscate_enabled w) eqn:En; cbn [negb]; unfold set_obfuscation; wsimpl.
  - repeat split; intros; discriminate.
  - rewrite read_line_run. wsimpl.
    destruct (Ascii.eqb (first_char _) "y" || Ascii.eqb (first_char _) "Y"); wsimpl.
    + rewrite read_line_run. wsimpl.
      destruct (strlen _ =? 0); wsimpl; unfold obfuscation; wsimpl;
        (split; [reflexivity|split; [discriminate|intros _; now rewrite ?En]]).
    + unfold obfuscation. wsimpl.
      split; [reflexivity|split; [discriminate|intros _; now rewrite ?En]].
Qed.

Lemma toggle_obfuscation_effect_witness :
  obfuscation (exec toggle_obfuscation (food_world (typed ["y"; "Z"]))) = (true, 90) /\
  obfuscation (exec toggle_obfuscation obfuscated_world) = (false, 0).
Proof.
  split.
  - destruct (toggle_obfuscation_effect (food_world (typed ["y"; "Z"]))) as (_ & _ & _ & H).
    exact (H eq_refl).
  - destruct (toggle_obfuscation_effect obfuscated_world) as (_ & _ & H & _).
    exact (proj1 (H eq_refl)).
Defined.

(** ** What [atoi] makes of a line cut at a NUL byte *)

Lemma scan_digits_value (w : nat) (s : string) (acc : Z) :
  (String.length s <= w)%nat -> fst (scan_digits w s acc) = digits_value s acc.
Proof.
  revert s acc. induction w as [|w IH]; intros s acc H.
  - destruct s; [reflexivity|simpl in H; lia].
  - destruct s as [|c s]; [reflexivity|]. cbn [scan_digits digits_value].
    destruct (isdigit c); [|reflexivity]. apply IH. simpl in H. lia.
Qed.

Lemma skip_space_length (s : string) :
  (String.length (skip_space s) <= String.length s)%nat.
Proof.
  induction s as [|c s IH]; [simpl; lia|]. cbn [skip_space].
  destruct (isspace c); simpl in *; lia.
Qed.

Lemma strtol_value (s : string) : strtol s = to_long (decimal_prefix s).
Proof.
  unfold strtol, scan_int, decimal_prefix.
  pose proof (skip_space_length s) as L.
  destruct (skip_space s) as [|c s']; [reflexivity|]. simpl in L.
  destruct (is_sign c).
  - replace (0 <? Z.of_nat (String.length s)) with true
      by (symmetry; apply Z.ltb_lt; lia).
    cbn [andb]. destruct (starts_with_digit s'); [|reflexivity].
    pose proof (scan_digits_value (String.length s) s' 0 ltac:(lia)) as E.
    destruct (scan_digits (String.length s) s' 0) as [v r]. simpl in E. subst v.
    reflexivity.
  - replace (0 <? Z.of_nat (S (String.length s))) with true
      by (symmetry; apply Z.ltb_lt; lia).
    cbn [andb]. destruct (isdigit c) eqn:D; [|reflexivity].
    pose proof (scan_digits_value (S (String.length s)) (String c s') 0
                  ltac:(simpl; lia)) as E.
    destruct (scan_digits (S (String.length s)) (String c s') 0) as [v r].
    simpl in E. subst v. reflexivity.
Qed.

Lemma starts_with_digit_app (a b : string) :
  starts_with_digit b = false ->
  starts_with_digit (a ++ b) = starts_with_digit a.
Proof. intros H. now destruct a. Qed.

Lemma digits_value_app (a b : string) (acc : Z) :
  starts_with_digit b = false -> digits_value (a ++ b) acc = digits_value a acc.
Proof.
  intros H. revert acc. induction a as [|c a IH]; intros acc.
  - destruct b as [|c b]; [reflexivity|]. simpl in *. now rewrite H.
  - change ((String c a ++ b)%string) with (String c (a ++ b)).
    cbn [digits_value]. destruct (isdigit c); [apply IH|reflexivity].
Qed.

Lemma decimal_prefix_app (a b : string) :
  starts_with_digit b = false -> decimal_prefix b = 0 ->
  decimal_prefix (a ++ b) = decimal_prefix a.
Proof.
  intros Hd Hb. induction a as [|c a IH]; [exact Hb|].
  change ((String c a ++ b)%string) with (String c (a ++ b)).
  unfold decimal_prefix in *. cbn [skip_space].
  destruct (isspace c); [exact IH|].
  rewrite starts_with_digit_app, digits_value_app by assumption.
  change (String c (a ++ b)) with ((String c a ++ b)%string).
  now rewrite digits_value_app.
Qed.

Lemma is_eol_space (c : ascii) : is_eol c = true -> isspace c = true.
Proof.
  unfold is_eol. intros H. apply orb_true_iff in H as [H|H];
    apply Ascii.eqb_eq in H; subst c; reflexivity.
Qed.

Lemma is_eol_not_digit (c : ascii) : is_eol c = true -> isdigit c = false.
Proof.
  unfold is_eol. intros H. apply orb_true_iff in H as [H|H];
    apply Ascii.eqb_eq in H; subst c; reflexivity.
Qed.

Lemma all_eol_inert (e : string) :
  all_eol e = true -> starts_with_digit e = false /\ decimal_prefix e = 0.
Proof.
  intros H. split.
  - destruct e as [|c e]; [reflexivity|]. unfold all_eol in H. simpl in H.
    apply andb_true_iff in H as [H _]. simpl. now apply is_eol_not_digit.
  - unfold decimal_prefix. replace (skip_space e) with EmptyString; [reflexivity|].
    induction e as [|c e IH]; [reflexivity|]. unfold all_eol in *. simpl in H.
    apply andb_true_iff in H as [Hc He]. cbn [skip_space].
    rewrite (is_eol_space c Hc). now apply IH.
Qed.

Lemma rstrip_eol_split (p : string) :
  exists e, p = (rstrip_eol p ++ e)%string /\ all_eol e = true.
Proof.
  induction p as [|c p (e & Hp & He)]; [now exists EmptyString|].
  cbn [rstrip_eol]. destruct (rstrip_eol p) as [|c' r] eqn:R.
  - change (p = e) in Hp. subst p. destruct (is_eol c) eqn:Hc.
    + exists (String c e). split; [reflexivity|].
      unfold all_eol in *. simpl. now rewrite Hc, He.
    + now exists e.
  - exists e. split; [|exact He].
    change ((String c (String c' r) ++ e)%string) with (String c (String c' r ++ e)).
    now rewrite <- Hp.
Qed.

Lemma atoi_rstrip_eol (p : string) : atoi (rstrip_eol p) = atoi p.
Proof.
  destruct (rstrip_eol_split p) as (e & Hp & He).
  apply all_eol_inert in He as [Hd Hz].
  unfold atoi. rewrite !strtol_value. rewrite Hp at 2.
  now rewrite decimal_prefix_app.
Qed.

Lemma atoi_cut (a x : string) : atoi (a ++ String zero x) = atoi a.
Proof.
  unfold atoi. rewrite !strtol_value.
  now rewrite decimal_prefix_app.
Qed.

Lemma rstrip_eol_app (a b : string) :
  rstrip_eol b <> EmptyString -> rstrip_eol (a ++ b) = (a ++ rstrip_eol b)%string.
Proof.
  intros H. induction a as [|c a IH]; [reflexivity|].
  change ((String c a ++ b)%string) with (String c (a ++ b)).
  change ((String c a ++ rstrip_eol b)%string) with (String c (a ++ rstrip_eol b)).
  cbn [rstrip_eol]. rewrite IH.
  destruct (a ++ rstrip_eol b)%string eqn:E; [|reflexivity].
  destruct a; [now change (rstrip_eol b = EmptyString) in E|discriminate].
Qed.

Lemma strlen_app_cons (a : string) (c : ascii) (x : string) :
  strlen (a ++ String c x) <> 0.
Proof.
  unfold strlen. destruct a as [|c' a];
    [change ((EmptyString ++ String c x)%string) with (String c x)
    |change ((String c' a ++ String c x)%string) with (String c' (a ++ String c x))];
    cbn [String.length]; lia.
Qed.

Lemma c_str_split (l : string) :
  no_nul l = false -> exists q, l = (c_str l ++ String zero q)%string.
Proof.
  induction l as [|c l IH]; [discriminate|].
  unfold no_nul in *. cbn [list_ascii_of_string forallb c_str].
  destruct (Ascii.eqb c zero) eqn:Hc.
  - intros _. apply Ascii.eqb_eq in Hc. subst c. now exists l.
  - cbn [negb andb]. intros H. destruct (IH H) as (q & Hq). exists q.
    change ((String c (c_str l) ++ String zero q)%string)
      with (String c (c_str l ++ String zero q)).
    now rewrite <- Hq.
Qed.

(** The number that [read_int] makes of a line that reads as 0: the NUL
    bytes of the line do not matter. *)
Lemma read_int_zero (l : string) :
  strlen (rstrip_eol l) = 0 \/ atoi (rstrip_eol l) = 0 ->
  (if strlen (rstrip_eol (c_str l)) =? 0 then 0 else atoi (rstrip_eol (c_str l))) = 0.
Proof.
  intros Hzero. destruct (no_nul l) eqn:Hz.
  - rewrite c_str_no_nul by assumption.
    destruct Hzero as [H|H]; [now rewrite H|]. now destruct (_ =? 0).
  - destruct (c_str_split l Hz) as (q & Hq).
    assert (Hne : rstrip_eol (String zero q) <> EmptyString).
    { cbn [rstrip_eol]. destruct (rstrip_eol q); [|discriminate].
      change (is_eol zero) with false. discriminate. }
    assert (E : exists x, rstrip_eol l = (c_str l ++ String zero x)%string).
    { assert (E0 : rstrip_eol l = (c_str l ++ rstrip_eol (String zero q))%string).
      { rewrite <- rstrip_eol_app by assumption. now rewrite <- Hq. }
      rewrite E0. cbn [rstrip_eol]. destruct (rstrip_eol q) as [|c' r].
      - change (is_eol zero) with false. now exists EmptyString.
      - now exists (String c' r). }
    destruct E as (x & E). rewrite E in Hzero.
    destruct Hzero as [H|H].
    + now apply strlen_app_cons in H.
    + rewrite atoi_cut in H. rewrite atoi_rstrip_eol, H. now destruct (_ =? 0).
Qed.

Section MenuChoice.
Context `{LC : Layout Category} `{LT : Layout Transaction} `{LB : Layout BudgetEntry}.

(** X20. A choice that is not a number ends the session: when the line
    read at the prompt of the menu is blank or [atoi] reads it as 0 (a word,
    say), the menu does what it does on the choice 0: it saves the stores
    and returns, with the stores as they were and the rest of the input
    unread. *)
Theorem interactive_menu_leaves_on_zero (w : World) (l rest : string) :
  stdin w = (l ++ nl ++ rest)%string ->
  no_newline l = true ->
  (String.length l + 2 <= 64)%nat ->
  strlen (rstrip_eol l) = 0 \/ atoi (rstrip_eol l) = 0 ->
  let w' := exec interactive_menu w in
  stores w' = stores w /\ files w' = saved_files w /\ stdin w' = rest.
Proof.
  intros Hin Hl Hlen Hzero. cbv zeta.
  unfold exec, interactive_menu. rewrite interactive_menu_loop_turn. cbv zeta.
  rewrite read_int_run. wsimpl. rewrite Hin. unfold input_int.
  rewrite input_line_cut by assumption. cbn [fst snd].
  rewrite (read_int_zero l Hzero). change (0 =? 0) with true. cbv iota.
  match goal with |- context [save_all ?W] => fold (exec save_all W) end.
  rewrite save_all_run. repeat split.
Qed.

End MenuChoice.

Lemma interactive_menu_leaves_on_zero_witness :
  let w := food_world (typed ["quit"; "1"]) in
  stores (exec interactive_menu w) = stores w /\
  files (exec interactive_menu w) = saved_files w /\
  stdin (exec interactive_menu w) = typed ["1"].
Proof.
  intros w.
  apply (interactive_menu_leaves_on_zero w "quit" (typed ["1"])).
  - reflexivity.
  - reflexivity.
  - simpl. lia.
  - right. reflexivity.
Defined.

(** X21. Files written with the obfuscation on are not decoded at the
    next start: the program starts with the obfuscation off and loads the
    files before the menu can turn it on, so [load_all] reads the bytes as
    they are.  For the x86-64 layouts and a key from 1 to 255, the first
    category loaded from the file that [save_all] wrote has not the id of
    the first category saved. *)
Theorem obfuscated_files_read_raw (w : World) (c : Category) (cs : list Category)
    (inp : string) (now : tm) :
  obfuscate_enabled w = true ->
  0 < obf_key w < 256 ->
  cat_data (cats w) = c :: cs ->
  let w' := exec load_all (initial_world inp now (files (exec save_all w))) in
  exists c' cs',
    cat_data (cats w') = c' :: cs' /\
    c_id c' = ABI.int_value (map (fun b => Z.lxor b (obf_key w)) (ABI.int_bytes (c_id c))) /\
    c_id c' <> c_id c.
Proof.
  intros Hen Hkey Hcats w'. subst w'.
  set (W0 := initial_world inp now (files (exec save_all w))).
  destruct (load_all_fresh_stores W0) as (Hc & _).
  change (fresh W0) with W0 in Hc. rewrite Hc. clear Hc.
  unfold file_records.
  change (files W0) with (files (exec save_all w)).
  rewrite save_all_run. wsimpl.
  destruct (saved_file_lookup w) as (Hlook & _). rewrite Hlook, Hcats.
  change (length (c :: cs) =? 0)%nat with false. cbv iota.
  change (obfuscate_buffer W0 ?b) with b.
  rewrite obfuscate_buffer_length, bytes_of_records_length.
  rewrite Nat.div_mul by discriminate.
  cbn [length records_of_bytes]. rewrite firstn_cons.
  eexists _, _. split; [reflexivity|].
  assert (E : c_id (of_bytes (A := Category)
                      (take (sizeof (A := Category))
                         (obfuscate_buffer w (bytes_of_records (c :: cs)))))
              = ABI.int_value (map (fun b => Z.lxor b (obf_key w)) (ABI.int_bytes (c_id c)))).
  { unfold obfuscate_buffer. rewrite Hen.
    destruct (Z.eqb_spec (obf_key w) 0) as [E0|_]; [lia|]. cbn [negb orb].
    unfold bytes_of_records. cbn [map concat]. rewrite map_app.
    rewrite take_app_length' by (rewrite length_map; symmetry; exact (@to_bytes_length Category category_layout c)).
    cbn [to_bytes of_bytes category_layout].
    unfold ABI.category_bytes, ABI.category_of_bytes, ABI.slice. cbn [c_id].
    rewrite drop_0, map_app.
    rewrite take_app_length' by (rewrite length_map; reflexivity).
    reflexivity. }
  split; [exact E|]. rewrite E. now apply int_value_under_key.
Qed.

Lemma obfuscated_files_read_raw_witness :
  exists c' cs',
    cat_data (cats (exec load_all
                      (initial_world "" sample_tm (files (exec save_all obfuscated_world)))))
    = c' :: cs' /\
    c_id c' = ABI.int_value (map (fun b => Z.lxor b 90) (ABI.int_bytes 1)) /\
    c_id c' <> 1.
Proof.
  apply (obfuscated_files_read_raw obfuscated_world Food [] "" sample_tm).
  - reflexivity.
  - simpl. lia.
  - reflexivity.
Defined.

Section MainSaves.
Context `{LC : Layout Category} `{LT : Layout Transaction} `{LB : Layout BudgetEntry}.

Lemma saved_files_again (w : World) :
  saved_files (set_files w (saved_files w)) = saved_files w.
Proof.
  unfold saved_files at 1. wsimpl.
  destruct (saved_file_lookup w) as (Hc & Ht & Hb).
  set (f := saved_files w) in *.
  apply map_eq. intros k.
  destruct (length (cat_data (cats w)) =? 0)%nat;
    destruct (length (txn_data (txns w)) =? 0)%nat;
    destruct (length (bud_data (budgets w)) =? 0)%nat;
    try reflexivity;
    (destruct (decide (k = CAT_FILE)) as [->|?];
     [|destruct (decide (k = TRAN_FILE)) as [->|?];
       [|destruct (decide (k = BUD_FILE)) as [->|?]]]);
    repeat first [ rewrite lookup_insert_eq
                 | rewrite lookup_insert_ne by (discriminate || congruence) ];
    rewrite ?Hc, ?Ht, ?Hb; reflexivity.
Qed.

Lemma main_run (w : World) :
  exists out,
    let w1 := set_stdout w (stdout w ++ out) in
    let w4 := exec save_all (exec interactive_menu (exec load_all w1)) in
    exec main w = set_stdout w4 (stdout w4 ++ ["Goodbye." ++ nl]).
Proof.
  exists ["Personal Finance Manager (C) — Advanced" ++ nl;
          "Note: This program stores data in current directory." ++ nl;
          "Optional file obfuscation (XOR) is available from menu." ++ nl ++ nl].
  cbv zeta. unfold exec, main. unfold bind, printf, modify. wsimpl.
  rewrite <- !List.app_assoc. cbn [app].
  match goal with |- context [load_all ?W] => set (w1 := W) end.
  destruct (load_all w1) as [[] w2]. cbn [snd].
  destruct (interactive_menu w2) as [[] w3]. cbn [snd].
  destruct (save_all w3) as [[] w4]. reflexivity.
Qed.

Lemma load_all_output (w : World) (out : list string) :
  stores (exec load_all (set_stdout w out)) = stores (exec load_all w) /\
  stdin (exec load_all (set_stdout w out)) = stdin w.
Proof.
  rewrite !load_all_run. cbv zeta.
  change (files (set_stdout w out)) with (files w).
  change (txns (set_stdout w out)) with (txns w).
  change (cats (set_stdout w out)) with (cats w).
  change (budgets (set_stdout w out)) with (budgets w).
  change (file_records CAT_FILE (set_stdout w out))
    with (file_records (A := Category) CAT_FILE w).
  change (file_records TRAN_FILE (set_stdout w out))
    with (file_records (A := Transaction) TRAN_FILE w).
  change (file_records BUD_FILE (set_stdout w out))
    with (file_records (A := BudgetEntry) BUD_FILE w).
  split; reflexivity.
Qed.

Lemma saved_files_set_stdout (v : World) (o : list string) :
  saved_files (set_stdout v o) = saved_files v.
Proof. reflexivity. Qed.

Lemma main_saved (w3 : World) (o : list string) :
  let w' := set_stdout (exec save_all w3) o in
  files w' = saved_files w' /\ stores w' = stores w3.
Proof.
  cbv zeta. rewrite save_all_run, saved_files_set_stdout, saved_files_again.
  split; reflexivity.
Qed.

(** X22. Whatever the session does, [main] leaves the files in step with
    the stores: at the end every store that is not empty has the file that
    [save_all] writes for it, so saving once more would change no file.  On
    an empty input the program loads, saves and ends: the stores at the end
    are the stores that [load_all] gives. *)
Theorem main_leaves_files_saved (w : World) :
  let w' := exec main w in
  files w' = saved_files w' /\
  (stdin w = EmptyString -> stores w' = stores (exec load_all w)).
Proof.
  cbv zeta. destruct (main_run w) as [out E]. cbv zeta in E. rewrite E. clear E.
  destruct (load_all_output w (stdout w ++ out)) as [Hst Hin2].
  revert Hst Hin2.
  generalize (exec load_all (set_stdout w (stdout w ++ out))). intros w2 Hst Hin2.
  pose proof (interactive_menu_end_of_input w2) as H3. revert H3.
  generalize (exec interactive_menu w2). intros w3 H3.
  match goal with |- context [set_stdout (exec save_all w3) ?o] =>
    destruct (main_saved w3 o) as [H1 H2] end.
  split; [exact H1|].
  intros Hin. rewrite Hin in Hin2. destruct (H3 Hin2) as (H4 & _).
  now rewrite H2, H4, Hst.
Qed.

End MainSaves.

Lemma main_leaves_files_saved_witness :
  stores (exec main (initial_world "" sample_tm ∅))
  = stores (exec load_all (initial_world "" sample_tm ∅)).
Proof.
  apply (proj2 (main_leaves_files_saved (initial_world "" sample_tm ∅))).
  reflexivity.
Defined.

(** X23. Dates in the zero-padded form YYYY-MM-DD, with a month from 01 to
    12 and a day from 01 to 31, are all accepted by [parse_date], and on
    them [compare_dates] is below zero exactly when the first date is before
    the second in the calendar: the range tests of the listings and of the
    reports compare such dates as dates. *)
Theorem canonical_dates_compare_as_dates (a b : string) :
  canonical_date a = true -> canonical_date b = true ->
  parse_date a = true /\ parse_date b = true /\
  forall va vb, sscanf_date a = Some va -> sscanf_date b = Some vb ->
                (compare_dates a b < 0 <-> ymd_lt va vb).
Proof.
  intros Ha Hb. split; [now apply parse_date_canonical|].
  split; [now apply parse_date_canonical|].
  intros va vb. now apply canonical_date_order.
Qed.

Lemma canonical_dates_compare_as_dates_witness :
  parse_date "2024-02-29" = true /\ parse_date "2024-11-03" = true /\
  (compare_dates "2024-02-29" "2024-11-03" < 0
   <-> ymd_lt (2024, 2, 29) (2024, 11, 3)).
Proof.
  destruct (canonical_dates_compare_as_dates "2024-02-29" "2024-11-03" eq_refl eq_refl)
    as (H1 & H2 & H3).
  split; [exact H1|]. split; [exact H2|].
  exact (H3 (2024, 2, 29) (2024, 11, 3) eq_refl eq_refl).
Defined.

(** X24. After [ensure_txn_capacity], [ensure_cat_capacity] and
    [ensure_budget_capacity] the array has room for one more element: from
    a store that does not hold more than its capacity, the capacity after
    the call is above the size and not below the capacity before, and the
    elements and the counter are as they were; the capacity of the
    transactions is 16 when it was 0 and twice what it was when the array
    was full. *)
Theorem ensure_capacity_makes_room (w : World) :
  capacity_ok w ->
  let wt := exec ensure_txn_capacity w in
  let wc := exec ensure_cat_capacity w in
  let wb := exec ensure_budget_capacity w in
  (txn_size (txns wt) + 1 <= txn_cap (txns wt) /\
   txn_cap (txns w) <= txn_cap (txns wt) /\
   txn_data (txns wt) = txn_data (txns w) /\
   txn_next_id (txns wt) = txn_next_id (txns w)) /\
  (cat_size (cats wc) + 1 <= cat_cap (cats wc) /\
   cat_cap (cats w) <= cat_cap (cats wc) /\
   cat_data (cats wc) = cat_data (cats w) /\
   cat_next_id (cats wc) = cat_next_id (cats w)) /\
  (bud_size (budgets wb) + 1 <= bud_cap (budgets wb) /\
   bud_cap (budgets w) <= bud_cap (budgets wb) /\
   bud_data (budgets wb) = bud_data (budgets w)) /\
  (txn_cap (txns w) = 0 -> txn_cap (txns wt) = 16) /\
  (0 < txn_cap (txns w) -> txn_size (txns w) = txn_cap (txns w) ->
   txn_cap (txns wt) = 2 * txn_cap (txns w)).
Proof.
  intros (Ht & Hc & Hb). cbv zeta. unfold exec.
  rewrite ensure_txn_capacity_world, ensure_cat_capacity_world,
    ensure_budget_capacity_world. wsimpl.
  unfold txn_size, cat_size, bud_size in *. cbn [txn_data cat_data bud_data].
  pose proof (ensured_fits (txn_cap (txns w)) (Z.of_nat (length (txn_data (txns w)))) 16).
  pose proof (ensured_grows (txn_cap (txns w)) (Z.of_nat (length (txn_data (txns w)))) 16).
  pose proof (ensured_fits (cat_cap (cats w)) (Z.of_nat (length (cat_data (cats w)))) 8).
  pose proof (ensured_grows (cat_cap (cats w)) (Z.of_nat (length (cat_data (cats w)))) 8).
  pose proof (ensured_fits (bud_cap (budgets w)) (Z.of_nat (length (bud_data (budgets w)))) 8).
  pose proof (ensured_grows (bud_cap (budgets w)) (Z.of_nat (length (bud_data (budgets w)))) 8).
  repeat split; try lia.
  - intros E. unfold ensured, grow. rewrite E.
    destruct (Z.ltb_spec 0 (Z.of_nat (length (txn_data (txns w))) + 1)); [reflexivity|lia].
  - intros Hpos Hfull. unfold ensured, grow.
    destruct (Z.ltb_spec (txn_cap (txns w)) (Z.of_nat (length (txn_data (txns w))) + 1));
      [|lia].
    destruct (Z.eqb_spec (txn_cap (txns w)) 0); lia.
Qed.

Lemma ensure_capacity_makes_room_witness :
  txn_cap (txns (exec ensure_txn_capacity (initial_world "" sample_tm ∅))) = 16.
Proof.
  destruct (ensure_capacity_makes_room (initial_world "" sample_tm ∅)
              (initial_world_capacity _ _ _)) as (_ & _ & _ & H & _).
  exact (H eq_refl).
Defined.

(** X25. The removal of a category does not look at the budgets: when a
    category of a store with unique ids is removed (no transaction refers to
    it), the budgets are all kept, also those of the removed category, and
    the name under which the listings and the reports show its id is
    UNKNOWN from then on. *)
Theorem remove_category_keeps_budgets (w : World) (id : Z) :
  fst (input_int (stdin w)) = id ->
  unique_ids (cat_data (cats w)) ->
  0 <= find_category_index_by_id id w ->
  (forall t, t ∈ txn_data (txns w) -> t_category_id t <> id) ->
  let w' := exec remove_category w in
  budgets w' = budgets w /\
  (length (cat_data (cats w')) < length (cat_data (cats w)))%nat /\
  category_name id w' = "UNKNOWN".
Proof.
  intros Hid Hu Hidx Hfree. cbv zeta.
  pose proof (remove_category_stores w) as E. cbv zeta in E. rewrite Hid in E.
  destruct (Z.ltb_spec (find_category_index_by_id id w) 0) as [|_]; [lia|].
  assert (Hused : existsb (fun t => t_category_id t =? id) (txn_data (txns w)) = false).
  { apply not_true_iff_false. intros H. apply existsb_exists in H as (t & Hin & Ht).
    apply (Hfree t); [now apply list_elem_of_In|lia]. }
  rewrite Hused in E. cbn [orb] in E.
  apply stores_eq3 in E as (_ & Hc & Hb).
  destruct (find_category_index_found id w Hidx) as (c & Hlook & Hcid).
  split; [exact Hb|]. split.
  { rewrite Hc. cbn [cat_data]. pose proof (swap_remove_length _ _ _ Hlook). lia. }
  unfold category_name.
  assert (Hnone : find_category_index_by_id id (exec remove_category w) = -1).
  { unfold find_category_index_by_id. apply find_index_none; [lia|].
    rewrite Hc. cbn [cat_data].
    apply not_true_iff_false. intros H. apply existsb_exists in H as (x & Hin & Hx).
    apply list_elem_of_In in Hin.
    rewrite (swap_remove_delete _ _ _ Hlook), delete_take_drop in Hin.
    unfold unique_ids in Hu.
    rewrite <- (take_drop_middle _ _ _ Hlook), map_app in Hu. simpl in Hu.
    apply list.NoDup_app in Hu as (_ & H2 & H3).
    apply list.NoDup_cons in H3 as [H3 _].
    assert (Hxid : c_id x = c_id c) by lia.
    apply elem_of_app in Hin as [Hin|Hin].
    - apply (H2 (c_id x)); [apply list_elem_of_fmap; eauto|].
      rewrite Hxid. apply list_elem_of_here.
    - apply H3. rewrite <- Hxid. apply list_elem_of_fmap. eauto. }
  now rewrite Hnone.
Qed.

Lemma remove_category_keeps_budgets_witness :
  let w := world_of [] [Food; Rent] [march_budget] (typed ["1"]) in
  budgets (exec remove_category w) = budgets w /\
  (length (cat_data (cats (exec remove_category w))) < 2)%nat /\
  category_name 1 (exec remove_category w) = "UNKNOWN".
Proof.
  intros w. apply (remove_category_keeps_budgets w 1).
  - reflexivity.
  - vm_compute.
    repeat (constructor; [rewrite ?elem_of_cons, ?elem_of_nil; intuition discriminate|]).
    constructor.
  - vm_compute. discriminate.
  - intros t Ht. now apply elem_of_nil in Ht.
Defined.
